(** * Welcome Home ETL: paginated fetch and assembly

    A shallow embedding of the pagination code of the repository:
    - [utils/wh_api_utils.py]: [download_table_csv], [_get_next_page_url];
    - [welcome_home_export/main.py]: [to_snake_case], [fetch_all_ids_from_api];
    - [welcome_home/main.py]: [fetch_prospect_ids_from_activities].

    Python [str] values are lists of characters (code points below 256),
    Python [int]s are [Z], the HTTP server is a function from requests to
    outcomes, and the effects of the code (file writes, log records, the
    requests sent) are threaded through an explicit [world]. *)

From Stdlib Require Import ZArith List String Ascii Bool Lia.
From Stdlib Require Import DecimalString.
From stdpp Require Import base gmap strings list.
Import ListNotations.

Local Open Scope list_scope.
Local Open Scope Z_scope.

(** ** Strings *)

Abbreviation pystr := (list ascii).

(** A string literal of the source, as a list of characters. *)
Definition py (s : string) : pystr := list_ascii_of_string s.

Definition chr (n : N) : ascii := ascii_of_N n.
Definition ord (c : ascii) : N := N_of_ascii c.

Definition NL : ascii := chr 10.
Definition DQUOTE : ascii := chr 34.
Definition SQUOTE : ascii := chr 39.

(** [str.isspace] on one character: the separators of Unicode below 256. *)
Definition isspace (c : ascii) : bool :=
  let n := ord c in
  (N.leb 9 n && N.leb n 13) || (N.leb 28 n && N.leb n 32)
  || N.eqb n 133 || N.eqb n 160.

Definition in_range (lo hi : N) (c : ascii) : bool :=
  N.leb lo (ord c) && N.leb (ord c) hi.

Definition is_upper_az : ascii -> bool := in_range 65 90.
Definition is_lower_az : ascii -> bool := in_range 97 122.
Definition is_digit : ascii -> bool := in_range 48 57.

(** [str.lower] on one character: A-Z, and the capital letters of Latin-1
    (192-222 but the multiplication sign 215). *)
Definition lower_char (c : ascii) : ascii :=
  let n := ord c in
  if in_range 65 90 c then chr (n + 32)
  else if in_range 192 222 c && negb (N.eqb n 215) then chr (n + 32)
  else c.

Definition lower (s : pystr) : pystr := map lower_char s.

Fixpoint drop_while (p : ascii -> bool) (s : pystr) : pystr :=
  match s with
  | [] => []
  | c :: s' => if p c then drop_while p s' else s
  end.

Definition lstrip_with (p : ascii -> bool) (s : pystr) : pystr := drop_while p s.
Definition rstrip_with (p : ascii -> bool) (s : pystr) : pystr :=
  rev (drop_while p (rev s)).
Definition strip_with (p : ascii -> bool) (s : pystr) : pystr :=
  rstrip_with p (lstrip_with p s).

(** [s.strip()] *)
Definition strip (s : pystr) : pystr := strip_with isspace s.

Definition char_in (chars : pystr) (c : ascii) : bool :=
  existsb (Ascii.eqb c) chars.

(** [s.strip(chars)] *)
Definition strip_chars (chars : pystr) (s : pystr) : pystr :=
  strip_with (char_in chars) s.

(** [s.split(c)] for a one-character separator: never the empty list. *)
Fixpoint split (c : ascii) (s : pystr) : list pystr :=
  match s with
  | [] => [[]]
  | x :: s' =>
      if Ascii.eqb x c then [] :: split c s'
      else match split c s' with
           | w :: ws => (x :: w) :: ws
           | [] => [[x]]
           end
  end.

(** [sep.join(parts)] *)
Fixpoint join (sep : pystr) (parts : list pystr) : pystr :=
  match parts with
  | [] => []
  | [w] => w
  | w :: ws => w ++ sep ++ join sep ws
  end.

Fixpoint str_eqb (a b : pystr) : bool :=
  match a, b with
  | [], [] => true
  | x :: a', y :: b' => Ascii.eqb x y && str_eqb a' b'
  | _, _ => false
  end.

Fixpoint starts_with (pre s : pystr) : bool :=
  match pre, s with
  | [], _ => true
  | x :: pre', y :: s' => Ascii.eqb x y && starts_with pre' s'
  | _ :: _, [] => false
  end.

(** [sub in s] *)
Fixpoint str_in (sub s : pystr) : bool :=
  starts_with sub s ||
  match s with
  | [] => false
  | _ :: s' => str_in sub s'
  end.

(** [str(n)] for an integer. *)
Definition str_of_Z (n : Z) : pystr :=
  py (NilZero.string_of_int (Z.to_int n)).

(** Truth value of a string: the empty string is false. *)
Definition truthy_str (s : pystr) : bool :=
  match s with [] => false | _ :: _ => true end.

(** ** Regular expressions

    The patterns of the source use single characters, character classes
    under [*], [+] and [?] (all greedy), and capture groups. A pattern is
    the list of its items in the order they are written. *)

Inductive item : Type :=
| One (p : ascii -> bool)    (* one character of the class *)
| Star (p : ascii -> bool)   (* p*  *)
| Plus (p : ascii -> bool)   (* p+  *)
| Opt (p : ascii -> bool)    (* p?  *)
| GOpen                      (* (   *)
| GClose.                    (* )   *)

Abbreviation pattern := (list item).

Definition lit (c : ascii) : ascii -> bool := Ascii.eqb c.
Definition not_char (c : ascii) : ascii -> bool := fun x => negb (Ascii.eqb c x).
(** [.]: any character but a newline. *)
Definition dot : ascii -> bool := not_char NL.
Definition either (p q : ascii -> bool) : ascii -> bool := fun x => p x || q x.

(** A literal stretch of a pattern. *)
Definition lits (s : string) : pattern := map (fun c => One (lit c)) (py s).

(** The outcome of a match: the text each item consumed, in the order of
    the items, and what is left of the subject. *)
Abbreviation pieces := (list pystr).

Definition push (w : pystr) (r : option (pieces * pystr)) : option (pieces * pystr) :=
  match r with
  | Some (ps, rest) => Some (w :: ps, rest)
  | None => None
  end.

(** Greedy repetition with backtracking: take one more character when
    the rest of the pattern still matches after it, else stop here. *)
Fixpoint star (p : ascii -> bool) (k : pystr -> option (pieces * pystr))
  (s : pystr) : option (pystr * (pieces * pystr)) :=
  match s with
  | c :: s' =>
      if p c then
        match star p k s' with
        | Some (w, r) => Some (c :: w, r)
        | None => match k s with Some r => Some ([], r) | None => None end
        end
      else match k s with Some r => Some ([], r) | None => None end
  | [] => match k s with Some r => Some ([], r) | None => None end
  end.

Definition glue (c : option ascii) (r : option (pystr * (pieces * pystr)))
  : option (pieces * pystr) :=
  match r with
  | Some (w, (ps, rest)) =>
      Some ((match c with Some x => x :: w | None => w end) :: ps, rest)
  | None => None
  end.

(** Match the pattern at the start of the subject. *)
Fixpoint match_here (its : pattern) (s : pystr) : option (pieces * pystr) :=
  match its with
  | [] => Some ([], s)
  | One p :: its' =>
      match s with
      | c :: s' => if p c then push [c] (match_here its' s') else None
      | [] => None
      end
  | Star p :: its' => glue None (star p (match_here its') s)
  | Plus p :: its' =>
      match s with
      | c :: s' => if p c then glue (Some c) (star p (match_here its') s') else None
      | [] => None
      end
  | Opt p :: its' =>
      match s with
      | c :: s' =>
          if p c then
            match push [c] (match_here its' s') with
            | Some r => Some r
            | None => push [] (match_here its' s)
            end
          else push [] (match_here its' s)
      | [] => push [] (match_here its' s)
      end
  | GOpen :: its' => push [] (match_here its' s)
  | GClose :: its' => push [] (match_here its' s)
  end.

(** [re.search]: the first position, from the left, where the pattern
    matches. The result is the skipped prefix, the pieces and the rest. *)
Fixpoint search_from (its : pattern) (skipped : pystr) (s : pystr)
  : option (pystr * pieces * pystr) :=
  match match_here its s with
  | Some (ps, rest) => Some (rev skipped, ps, rest)
  | None =>
      match s with
      | [] => None
      | c :: s' => search_from its (c :: skipped) s'
      end
  end.

Definition re_search (its : pattern) (s : pystr) : option (pystr * pieces * pystr) :=
  search_from its [] s.

(** Groups, in the order of their opening parentheses. A group under
    construction is [(true, text)], a closed one [(false, text)]. *)
Fixpoint close_last (gs : list (bool * pystr)) : list (bool * pystr) * bool :=
  match gs with
  | [] => ([], false)
  | (o, t) :: gs' =>
      let '(gs'', closed) := close_last gs' in
      if closed then ((o, t) :: gs'', true)
      else if o then ((false, t) :: gs'', true)
      else ((o, t) :: gs'', false)
  end.

Definition feed (w : pystr) (gs : list (bool * pystr)) : list (bool * pystr) :=
  map (fun g : bool * pystr => if fst g then (true, snd g ++ w) else g) gs.

Fixpoint groups_go (its : pattern) (ps : pieces) (gs : list (bool * pystr))
  : list (bool * pystr) :=
  match its, ps with
  | GOpen :: its', _ :: ps' => groups_go its' ps' (gs ++ [(true, [])])
  | GClose :: its', _ :: ps' => groups_go its' ps' (fst (close_last gs))
  | _ :: its', w :: ps' => groups_go its' ps' (feed w gs)
  | _, _ => gs
  end.

Definition groups (its : pattern) (ps : pieces) : list pystr :=
  map snd (groups_go its ps []).

(** [match.group(n)], n >= 1. *)
Definition group (its : pattern) (ps : pieces) (n : nat) : pystr :=
  nth (n - 1)%nat (groups its ps) [].

(** [re.sub(pattern, repl, s)]: non-overlapping matches from the left,
    each replaced by [repl groups]; [skip] counts the characters of the
    subject still covered by the last match. *)
Fixpoint sub_go (its : pattern) (repl : list pystr -> pystr) (skip : nat)
  (s : pystr) : pystr :=
  match s with
  | [] =>
      match skip, match_here its [] with
      | O, Some (ps, _) => repl (groups its ps)
      | _, _ => []
      end
  | c :: s' =>
      match skip with
      | S k => sub_go its repl k s'
      | O =>
          match match_here its s with
          | Some (ps, _) =>
              match length (concat ps) with
              | O => repl (groups its ps) ++ c :: sub_go its repl O s'
              | S k => repl (groups its ps) ++ sub_go its repl k s'
              end
          | None => c :: sub_go its repl O s'
          end
      end
  end.

Definition re_sub (its : pattern) (repl : list pystr -> pystr) (s : pystr) : pystr :=
  sub_go its repl 0%nat s.

(** The replacement template [r'\1_\2']. *)
Definition repl_1_underscore_2 (gs : list pystr) : pystr :=
  nth 0%nat gs [] ++ py "_" ++ nth 1%nat gs [].

(** ** Cursor extraction *)

Definition quote : ascii -> bool := either (lit DQUOTE) (lit SQUOTE).

(** [r'<([^>]+)>\s*;\s*rel=["\']?next["\']?'] (utils/wh_api_utils.py) *)
Definition NEXT_LINK : pattern :=
  [One (lit "<"); GOpen; Plus (not_char ">"); GClose; One (lit ">");
   Star isspace; One (lit ";"); Star isspace]
  ++ lits "rel=" ++ [Opt quote] ++ lits "next" ++ [Opt quote].

(** [r'<([^>]+)>;\s*rel="next"'] (welcome_home/main.py) *)
Definition NEXT_LINK_STRICT : pattern :=
  [One (lit "<"); GOpen; Plus (not_char ">"); GClose; One (lit ">");
   One (lit ";"); Star isspace]
  ++ lits "rel=" ++ [One (lit DQUOTE)] ++ lits "next" ++ [One (lit DQUOTE)].

(** The token ['rel="next"'] both ID-extraction loops look for. *)
Definition REL_NEXT : pystr := py "rel=" ++ [DQUOTE] ++ py "next" ++ [DQUOTE].

(** [_get_next_page_url(link_header)]: [None] for an absent or empty
    header and when the pattern is found nowhere. *)
Definition _get_next_page_url (link_header : option pystr) : option pystr :=
  match link_header with
  | None => None
  | Some [] => None
  | Some h =>
      match re_search NEXT_LINK h with
      | Some (_, ps, _) => Some (group NEXT_LINK ps 1)
      | None => None
      end
  end.

(** The pagination step of [fetch_all_ids_from_api]:
    ['Link' in response.headers and 'rel="next"' in response.headers['Link']],
    then [split(';')[0].strip('<>')]. *)
Definition export_next_url (link_header : option pystr) : option pystr :=
  match link_header with
  | Some h =>
      if str_in REL_NEXT h
      then Some (strip_chars (py "<>") (hd [] (split ";" h)))
      else None
  | None => None
  end.

(** The pagination step of [fetch_prospect_ids_from_activities]. *)
Definition prospects_next_url (link_header : option pystr) : option pystr :=
  match link_header with
  | Some h =>
      if truthy_str h && str_in REL_NEXT h then
        match re_search NEXT_LINK_STRICT h with
        | Some (_, ps, _) => Some (group NEXT_LINK_STRICT ps 1)
        | None => None
        end
      else None
  | None => None
  end.

(** Truth value of an optional string, as [while url:] tests it. *)
Definition truthy_url (u : option pystr) : bool :=
  match u with
  | Some s => truthy_str s
  | None => false
  end.

(** ** Table names *)

Definition TABLES_TO_PROCESS : list pystr :=
  map py ["Organizations"; "Referrers"; "Influencers"; "Units"; "HousingContracts";
          "DepositTransactions"; "MarketingTouchpoints"; "ServiceAgreements"; "Traits";
          "Prospects"; "Residents"; "Activities"]%string.

(** [to_snake_case(name)] *)
Definition to_snake_case (name : pystr) : pystr :=
  let s1 :=
    re_sub [GOpen; One dot; GClose; GOpen; One is_upper_az; Plus is_lower_az; GClose]
      repl_1_underscore_2 name in
  lower
    (re_sub [GOpen; One (either is_lower_az is_digit); GClose; GOpen; One is_upper_az; GClose]
       repl_1_underscore_2 s1).

(** ** JSON values and activities *)

(** The scalar JSON values a record id or a record type takes. *)
Inductive jvalue : Type :=
| JNull
| JInt (n : Z)
| JStr (s : pystr).

Global Instance jvalue_eq_dec : EqDecision jvalue.
Proof. solve_decision. Defined.

Definition jvalue_enc (v : jvalue) : option (Z + pystr) :=
  match v with
  | JNull => None
  | JInt n => Some (inl n)
  | JStr s => Some (inr s)
  end.

Definition jvalue_dec (x : option (Z + pystr)) : jvalue :=
  match x with
  | None => JNull
  | Some (inl n) => JInt n
  | Some (inr s) => JStr s
  end.

Global Instance jvalue_countable : Countable jvalue.
Proof. apply (inj_countable' jvalue_enc jvalue_dec). intros []; reflexivity. Defined.

(** Truth value of a JSON scalar: [None], [0] and [''] are false. *)
Definition truthy (v : jvalue) : bool :=
  match v with
  | JNull => false
  | JInt n => negb (Z.eqb n 0)
  | JStr s => truthy_str s
  end.

(** An activity, through the two keys the code reads with [dict.get]:
    [None] stands for a missing key. *)
Record activity : Type := Activity {
  record_type : option jvalue;
  record_id : option jvalue
}.

(** [activity.get(key)]: a missing key reads as [None]. *)
Definition dict_get (field : option jvalue) : jvalue :=
  match field with
  | Some v => v
  | None => JNull
  end.

(** ** HTTP *)

Record request : Type := Request {
  req_url : pystr;
  req_limit : option Z;      (* params={"limit": n}, or no params *)
  req_authorization : pystr;
  req_accept : pystr
}.

Record response : Type := Response {
  status_code : Z;
  text : pystr;
  link : option pystr;                  (* headers.get('Link') *)
  json : option (list activity)         (* response.json(); None: it raises *)
}.

(** [requests.get]: a reply, or a failure of the connection. *)
Inductive http_result : Type :=
| ConnectionFailed
| Reply (r : response).

Abbreviation server := (request -> http_result).

(** [requests.exceptions.RequestException], with its response if any. *)
Inductive request_exception : Type :=
| ConnectionError
| HTTPError (r : response).

(** [response.raise_for_status()] raises on 4xx and 5xx. *)
Definition is_error_status (r : response) : bool :=
  Z.leb 400 (status_code r) && Z.ltb (status_code r) 600.

(** ** Effects *)

Inductive level : Type := DEBUG | INFO | WARNING | ERROR.

Inductive message : Type :=
(* utils/wh_api_utils.py *)
| StartingDownload (table : pystr)
| DownloadingPage (page : Z) (url : pystr)
| PageRecords (page : Z) (records : Z)
| FoundNextPageUrl (url : pystr)
| NoNextPageUrl
| NoMorePages
| DownloadedRecords (total : Z) (table path : pystr)
| ErrorDownloading (table : pystr)
| ResponseStatus (code : Z)
| ResponseBody (body : pystr)
(* welcome_home_export/main.py *)
| StartingFetch (table : pystr)
| EmptyResponse (table : pystr)
| FoundIdColumn (column : pystr)
| FallbackIdColumn (expected used : pystr)
| PageFetched (page : Z) (records : Z)
| CsvParseError (table : pystr)
| FetchError (table : pystr)
| FinishedFetching (table : pystr) (total : Z)
(* welcome_home/main.py *)
| StartingProspects
| NoMoreActivities (page : Z)
| ProcessingActivities (count : Z) (page : Z)
| UniqueSoFar (count : Z)
| ActivitiesFetchError (page : Z)
| ActivitiesUnexpectedError (page : Z)
| CompletedProspects (count : Z).

Record world : Type := World {
  files : gmap pystr pystr;          (* path -> content *)
  log : list (level * message);      (* oldest first *)
  sent : list request                (* oldest first *)
}.

Definition logging (l : level) (m : message) (w : world) : world :=
  World (files w) (log w ++ [(l, m)]) (sent w).

(** [open(path, 'w')]: the file is created, or emptied. *)
Definition open_w (path : pystr) (w : world) : world :=
  World (<[path := []]> (files w)) (log w) (sent w).

(** [f.write(data)] *)
Definition write (path : pystr) (data : pystr) (w : world) : world :=
  World (<[path := default [] (files w !! path) ++ data]> (files w)) (log w) (sent w).

Definition read_file (path : pystr) (w : world) : option pystr := files w !! path.

(** [requests.get(...)] followed by [raise_for_status()]. *)
Definition http_get (srv : server) (rq : request) (w : world)
  : (request_exception + response) * world :=
  let w' := World (files w) (log w) (sent w ++ [rq]) in
  match srv rq with
  | ConnectionFailed => (inl ConnectionError, w')
  | Reply r => if is_error_status r then (inl (HTTPError r), w') else (inr r, w')
  end.

(** [len(x)] *)
Definition len {A : Type} (l : list A) : Z := Z.of_nat (length l).

(** ** Text-merge: [download_table_csv] *)

(** [os.path.join(a, b)] on POSIX. *)
Definition path_join (a b : pystr) : pystr :=
  if starts_with (py "/") b then b
  else match rev a with
       | [] => b
       | c :: _ => if Ascii.eqb c "/" then a ++ b else a ++ py "/" ++ b
       end.

Definition csv_base_url (table_name : pystr) : pystr :=
  py "https://crm.welcomehomesoftware.com/api/exports/community/all/table/" ++ table_name.

Definition csv_request (api_key url : pystr) : request :=
  Request url None (py "Bearer " ++ api_key) (py "text/csv").

(** The body of the loop between the request and the Link header: page 1
    is written whole; a later page loses its first line and is written
    after a newline, when it has more than that line. The result is the
    new world and [lines_in_page]. *)
Definition merge_page (path : pystr) (page_count : Z) (content : pystr)
  (w : world) : world * Z :=
  if page_count =? 1 then
    (write path content w, len (split NL (strip content)) - 1)
  else
    let lines := split NL (strip content) in
    if 1 <? len lines
    then (write path ([NL] ++ join [NL] (tl lines)) w, len lines - 1)
    else (w, 0).

(** The debug record [_get_next_page_url] leaves. *)
Definition next_page_debug (link_header : option pystr) (w : world) : world :=
  match link_header with
  | None => w
  | Some [] => w
  | Some _ =>
      match _get_next_page_url link_header with
      | Some u => logging DEBUG (FoundNextPageUrl u) w
      | None => logging DEBUG NoNextPageUrl w
      end
  end.

(** The [while current_url:] loop. [None]: the loop is still running
    when the fuel is spent. Otherwise the total on leaving the loop, or
    the exception that left it. *)
Fixpoint download_pages (fuel : nat) (srv : server) (api_key path : pystr)
  (current_url : option pystr) (page_count total_records : Z) (w : world)
  : option ((request_exception + Z) * world) :=
  match fuel with
  | O => None
  | S fuel' =>
      match current_url with
      | Some url =>
          if truthy_str url then
            let page_count := page_count + 1 in
            let w := logging INFO (DownloadingPage page_count url) w in
            match http_get srv (csv_request api_key url) w with
            | (inl e, w) => Some (inl e, w)
            | (inr r, w) =>
                let content := text r in
                let '(w, n) := merge_page path page_count content w in
                let total_records := total_records + n in
                let w := logging INFO (PageRecords page_count n) w in
                let w := next_page_debug (link r) w in
                let current_url := _get_next_page_url (link r) in
                if truthy_url current_url
                then download_pages fuel' srv api_key path current_url
                       page_count total_records w
                else Some (inr total_records, logging INFO NoMorePages w)
            end
          else Some (inr total_records, w)
      | None => Some (inr total_records, w)
      end
  end.

(** [download_table_csv(table_name, api_key, temp_dir)]: the path of the
    file, or [None] after an exception. The outer [None] is fuel. *)
Definition download_table_csv (fuel : nat) (srv : server)
  (table_name api_key temp_dir : pystr) (w : world) : option (option pystr * world) :=
  let base_url := csv_base_url table_name in
  let csv_file_path := path_join temp_dir (table_name ++ py ".csv") in
  let w := logging INFO (StartingDownload table_name) w in
  let w := open_w csv_file_path w in
  match download_pages fuel srv api_key csv_file_path (Some base_url) 0 0 w with
  | None => None
  | Some (inr total_records, w) =>
      Some (Some csv_file_path,
            logging INFO (DownloadedRecords total_records table_name csv_file_path) w)
  | Some (inl e, w) =>
      let w := logging ERROR (ErrorDownloading table_name) w in
      match e with
      | HTTPError r =>
          Some (None, logging ERROR (ResponseBody (text r))
                        (logging ERROR (ResponseStatus (status_code r)) w))
      | ConnectionError => Some (None, w)
      end
  end.

(** ** Structured-merge: [fetch_all_ids_from_api] *)

Definition EXPORT_API_BASE_URL : pystr :=
  py "https://crm.welcomehomesoftware.com/api/exports/community/all/table".

Definition json_request (api_token url : pystr) (limit : option Z) : request :=
  Request url limit (py "Bearer " ++ api_token) (py "application/json").

Section ExportModel.

(** The values of a parsed column, and [pd.read_csv] on a page body:
    the columns in order, each with its cells ([None]: a null cell), or
    [None] when the parser raises. *)
Variable cell : Type.
Abbreviation dataframe := (list (pystr * list (option cell))).
Variable read_csv : pystr -> option dataframe.

(** [df.columns] *)
Definition columns (df : dataframe) : list pystr := map fst df.

(** [name in df.columns] *)
Definition has_column (name : pystr) (df : dataframe) : bool :=
  existsb (str_eqb name) (columns df).

(** [df[name].dropna().tolist()] *)
Fixpoint column_values (name : pystr) (df : dataframe) : list cell :=
  match df with
  | [] => []
  | (c, cells) :: df' =>
      if str_eqb name c then omap id cells else column_values name df'
  end.

(** The inner [try] of the loop: the ids of one page, or [None] when
    parsing raises (also [df.columns[0]] on a frame with no column). *)
Definition page_ids (table_name response_text : pystr) (w : world)
  : option (list cell) * world :=
  match read_csv response_text with
  | None => (None, w)
  | Some df =>
      let snake_case_table := to_snake_case table_name in
      let expected_id_column := snake_case_table ++ py ".id" in
      if has_column expected_id_column df then
        let id_column := expected_id_column in
        let w := logging INFO (FoundIdColumn id_column) w in
        (Some (column_values id_column df), w)
      else
        match columns df with
        | [] => (None, w)
        | id_column :: _ =>
            let w := logging WARNING (FallbackIdColumn expected_id_column id_column) w in
            (Some (column_values id_column df), w)
        end
  end.

(** The [while url:] loop of [fetch_all_ids_from_api]; every [return []]
    of the source leaves it with the empty list. *)
Fixpoint fetch_ids_loop (fuel : nat) (srv : server) (api_token table_name : pystr)
  (url : option pystr) (all_ids : list cell) (page_number : Z) (w : world)
  : option (list cell * world) :=
  match fuel with
  | O => None
  | S fuel' =>
      if truthy_url url then
        match http_get srv (json_request api_token (default [] url) None) w with
        | (inl _, w) => Some ([], logging ERROR (FetchError table_name) w)
        | (inr r, w) =>
            let response_text := text r in
            if negb (truthy_str (strip response_text)) then
              Some ([], logging ERROR (EmptyResponse table_name) w)
            else
              match page_ids table_name response_text w with
              | (None, w) => Some ([], logging ERROR (CsvParseError table_name) w)
              | (Some ids, w) =>
                  let all_ids := all_ids ++ ids in
                  let w := logging INFO (PageFetched page_number (len ids)) w in
                  let page_number := page_number + 1 in
                  fetch_ids_loop fuel' srv api_token table_name
                    (export_next_url (link r)) all_ids page_number w
              end
        end
      else
        Some (all_ids, logging INFO (FinishedFetching table_name (len all_ids)) w)
  end.

(** [fetch_all_ids_from_api(table_name, records_per_page)] *)
Definition fetch_all_ids_from_api (fuel : nat) (srv : server) (api_token : pystr)
  (table_name : pystr) (records_per_page : Z) (w : world)
  : option (list cell * world) :=
  let url := EXPORT_API_BASE_URL ++ py "/" ++ table_name ++ py "?limit="
             ++ str_of_Z records_per_page in
  let w := logging INFO (StartingFetch table_name) w in
  fetch_ids_loop fuel srv api_token table_name (Some url) [] 1 w.

End ExportModel.

(** ** Structured-merge, distinct ids: [fetch_prospect_ids_from_activities] *)

Definition PROSPECTS_API_BASE_URL : pystr :=
  py "https://crm.welcomehomesoftware.com/api".

(** The test of the loop over one page's activities. *)
Definition is_prospect (a : activity) : bool :=
  bool_decide (dict_get (record_type a) = JStr (py "Prospect"))
  && truthy (dict_get (record_id a)).

(** The [for activity in activities] loop: [prospect_ids.add(...)]. *)
Fixpoint add_prospects (activities : list activity) (prospect_ids : gset jvalue)
  : gset jvalue :=
  match activities with
  | [] => prospect_ids
  | a :: rest =>
      add_prospects rest
        (if is_prospect a then prospect_ids ∪ {[ dict_get (record_id a) ]}
         else prospect_ids)
  end.

(** The [while url:] loop; both [except] clauses and the empty page
    leave it with [break], keeping [prospect_ids]. *)
Fixpoint prospects_loop (fuel : nat) (srv : server) (api_token : pystr)
  (url : option pystr) (params : option Z) (page_number : Z)
  (prospect_ids : gset jvalue) (w : world) : option (gset jvalue * world) :=
  match fuel with
  | O => None
  | S fuel' =>
      if truthy_url url then
        match http_get srv (json_request api_token (default [] url) params) w with
        | (inl _, w) =>
            Some (prospect_ids, logging ERROR (ActivitiesFetchError page_number) w)
        | (inr r, w) =>
            match json r with
            | None =>
                Some (prospect_ids,
                      logging ERROR (ActivitiesUnexpectedError page_number) w)
            | Some [] =>
                Some (prospect_ids, logging INFO (NoMoreActivities page_number) w)
            | Some activities =>
                let w := logging INFO
                           (ProcessingActivities (len activities) page_number) w in
                let prospect_ids := add_prospects activities prospect_ids in
                let w := logging INFO (UniqueSoFar (Z.of_nat (size prospect_ids))) w in
                match prospects_next_url (link r) with
                | Some u =>
                    prospects_loop fuel' srv api_token (Some u) None
                      (page_number + 1) prospect_ids w
                | None => Some (prospect_ids, w)
                end
            end
        end
      else Some (prospect_ids, w)
  end.

(** [fetch_prospect_ids_from_activities(records_per_page)]: the set as a
    list, in the order the set enumerates its elements. *)
Definition fetch_prospect_ids_from_activities (fuel : nat) (srv : server)
  (api_token : pystr) (records_per_page : Z) (w : world)
  : option (list jvalue * world) :=
  let url := PROSPECTS_API_BASE_URL ++ py "/activities" in
  let w := logging INFO StartingProspects w in
  match prospects_loop fuel srv api_token (Some url) (Some records_per_page) 1 ∅ w with
  | None => None
  | Some (prospect_ids, w) =>
      let w := logging INFO (CompletedProspects (Z.of_nat (size prospect_ids))) w in
      Some (elements prospect_ids, w)
  end.

(** * Vocabulary of the properties *)

(** What an item of a pattern may consume. *)
Definition conforms (it : item) (w : pystr) : Prop :=
  match it with
  | One p => exists c, w = [c] /\ p c = true
  | Star p => forallb p w = true
  | Plus p => w <> [] /\ forallb p w = true
  | Opt p => w = [] \/ exists c, w = [c] /\ p c = true
  | GOpen => w = []
  | GClose => w = []
  end.

(** The subject cannot feed a repetition of [p] any further. *)
Definition stops (p : ascii -> bool) (s : pystr) : Prop :=
  match s with
  | [] => True
  | c :: _ => p c = false
  end.

(** [sub] occurs in [s]. *)
Definition occurs (sub s : pystr) : Prop := exists a b, s = a ++ sub ++ b.

Definition is_quote_text (q : pystr) : Prop := q = [] \/ q = [DQUOTE] \/ q = [SQUOTE].


(** The pieces of a match of [NEXT_LINK]. *)
Definition next_link_pieces (g w1 w2 q0 q1 : pystr) : pieces :=
  [["<"]; []; g; []; [">"]; w1; [";"]; w2;
   ["r"]; ["e"]; ["l"]; ["="]; q0; ["n"]; ["e"]; ["x"]; ["t"]; q1]%char.


(** Every [<] of the text has a [>] after it. *)
Fixpoint brackets_closed (s : pystr) : bool :=
  match s with
  | [] => true
  | c :: s' =>
      (if Ascii.eqb c "<" then existsb (Ascii.eqb ">") s' else true)
      && brackets_closed s'
  end.

(** A request met a transport error: no reply, or a 4xx/5xx status. *)
Definition transport_failed (srv : server) (rq : request) : Prop :=
  match srv rq with
  | ConnectionFailed => True
  | Reply r => is_error_status r = true
  end.

(** A well-formed chain of pages: each URL is answered by its page
    without a transport error, the Link header of each page but the last
    gives the URL of the next one, and the last page gives none. [mk]
    builds the request of a URL, [next] reads the Link header. *)
Fixpoint link_chain (srv : server) (mk : pystr -> request)
  (next : option pystr -> option pystr) (pages : list (pystr * response)) : Prop :=
  match pages with
  | [] => True
  | (u, r) :: rest =>
      truthy_str u = true
      /\ srv (mk u) = Reply r
      /\ is_error_status r = false
      /\ match rest with
         | [] => truthy_url (next (link r)) = false
         | (u', _) :: _ => next (link r) = Some u'
         end
      /\ link_chain srv mk next rest
  end.

(** The record count of a page body: its lines, less the header. *)
Definition page_records (content : pystr) : Z :=
  len (split NL (strip content)) - 1.

(** What a page after the first adds to the file. *)
Definition later_page_text (content : pystr) : pystr :=
  let lines := split NL (strip content) in
  if 1 <? len lines then [NL] ++ join [NL] (tl lines) else [].

(** What a page adds to the file, by its number. *)
Definition chunk (page_count : Z) (content0 : pystr) : pystr :=
  if page_count =? 1 then content0 else later_page_text content0.




(** The ids a page body yields in structured-merge, without the log. *)
Definition ids_of_page {cell : Type}
  (read_csv : pystr -> option (list (pystr * list (option cell))))
  (table_name response_text : pystr) : option (list cell) :=
  match read_csv response_text with
  | None => None
  | Some df =>
      let expected := to_snake_case table_name ++ py ".id" in
      if has_column cell expected df then Some (column_values cell expected df)
      else match columns cell df with
           | [] => None
           | first :: _ => Some (column_values cell first df)
           end
  end.

(** The content of a file, empty when there is none. *)
Definition content (path : pystr) (w : world) : pystr :=
  default [] (files w !! path).

Definition empty_world : world := World ∅ [] [].

(** ** Scenarios *)

(** A reply with status 200. *)
Definition ok_text (body : pystr) (link_header : option pystr) : http_result :=
  Reply (Response 200 body link_header None).

Definition ok_json (activities : list activity) (link_header : option pystr)
  : http_result :=
  Reply (Response 200 [] link_header (Some activities)).

(** The Link header [<url>; rel="next"]. *)
Definition next_header (url : pystr) : pystr :=
  py "<" ++ url ++ py ">; " ++ REL_NEXT.

(** A reader of one-column bodies, standing in for [pd.read_csv] in the
    scenarios: the first line names the column, every other line is a
    cell, null when empty. *)
Definition one_column_csv (body : pystr) : option (list (pystr * list (option pystr))) :=
  match split NL body with
  | [] => None
  | header :: rows =>
      Some [(header, map (fun l : pystr => if truthy_str l then Some l else None) rows)]
  end.

(** A server that maps the listed URLs to replies and fails elsewhere. *)
Fixpoint serve (table : list (pystr * http_result)) (rq : request) : http_result :=
  match table with
  | [] => ConnectionFailed
  | (u, res) :: rest => if str_eqb u (req_url rq) then res else serve rest rq
  end.

Definition PAGE2 : pystr := py "https://crm.welcomehomesoftware.com/api/p2".

(** Text-merge: the two pages of the specification. *)
Definition two_csv_pages : server :=
  serve [(csv_base_url (py "Units"),
          ok_text (py "id,name" ++ [NL] ++ py "1,a" ++ [NL] ++ py "2,b")
            (Some (next_header PAGE2)));
         (PAGE2, ok_text (py "id,name" ++ [NL] ++ py "3,c") None)].

(** Text-merge: a second page that is only a header line. *)
Definition header_only_second_page : server :=
  serve [(csv_base_url (py "Units"),
          ok_text (py "id,name" ++ [NL] ++ py "1,a") (Some (next_header PAGE2)));
         (PAGE2, ok_text (py "id,name") None)].

Definition export_url (table : pystr) : pystr :=
  EXPORT_API_BASE_URL ++ py "/" ++ table ++ py "?limit=10000".

(** Structured-merge: a first page with two ids, then an empty body. *)
Definition empty_second_page : server :=
  serve [(export_url (py "Units"),
          ok_text (py "units.id" ++ [NL] ++ py "1" ++ [NL] ++ py "2")
            (Some (next_header PAGE2)));
         (PAGE2, ok_text [] None)].

(** Structured-merge: two pages of ids. *)
Definition two_id_pages : server :=
  serve [(export_url (py "Units"),
          ok_text (py "units.id" ++ [NL] ++ py "1" ++ [NL] ++ py "2")
            (Some (next_header PAGE2)));
         (PAGE2, ok_text (py "units.id" ++ [NL] ++ py "3") None)].

(** Structured-merge: a Link header with single quotes around next. *)
Definition single_quoted_link : pystr :=
  py "<https://x/y?cursor=abc>; rel='next'".

(** Prospects: a page with one prospect, then a transport error. *)
Definition prospects_url : pystr := PROSPECTS_API_BASE_URL ++ py "/activities".

Definition prospect (id : Z) : activity :=
  Activity (Some (JStr (py "Prospect"))) (Some (JInt id)).




(** [x] was collected from a prospect activity of a page among [reqs]. *)
Definition collected (srv : server) (reqs : list request) (x : jvalue) : Prop :=
  truthy x = true
  /\ exists rq r activities a,
       In rq reqs /\ srv rq = Reply r /\ json r = Some activities /\ In a activities
       /\ record_type a = Some (JStr (py "Prospect")) /\ record_id a = Some x.

(** * The pipelines around the fetches *)

(** ** [camel_to_snake_case] (main.py, archive/main.py) *)

Definition camel_to_snake_case (name : pystr) : pystr :=
  let s1 :=
    re_sub [GOpen; One dot; GClose; GOpen; One is_upper_az; Plus is_lower_az; GClose]
      repl_1_underscore_2 name in
  lower
    (re_sub [GOpen; One (either is_lower_az is_digit); GClose; GOpen; One is_upper_az; GClose]
       repl_1_underscore_2 s1).

(** The pieces of a match of [NEXT_LINK_STRICT]. *)
Definition strict_link_pieces (g w : pystr) : pieces :=
  [["<"]; []; g; []; [">"]; [";"]; w;
   ["r"]; ["e"]; ["l"]; ["="]; [DQUOTE]; ["n"]; ["e"]; ["x"]; ["t"]; [DQUOTE]]%char.

(** [response.json()] as a list, empty when it raises. *)
Definition page_activities (r : response) : list activity := default [] (json r).

(** A well-formed chain of activity pages: the first request carries
    [params], the later ones none; every page holds activities; the Link
    header of each page but the last gives the next URL. *)
Fixpoint prospects_chain (srv : server) (api_token : pystr) (params : option Z)
  (pages : list (pystr * response)) : Prop :=
  match pages with
  | [] => True
  | (u, r) :: rest =>
      truthy_str u = true
      /\ srv (json_request api_token u params) = Reply r
      /\ is_error_status r = false
      /\ page_activities r <> []
      /\ match rest with
         | [] => prospects_next_url (link r) = None
         | (u', _) :: _ => prospects_next_url (link r) = Some u'
         end
      /\ prospects_chain srv api_token None rest
  end.

(** The requests of a chain of activity pages. *)
Fixpoint prospects_requests (api_token : pystr) (params : option Z)
  (pages : list (pystr * response)) : list request :=
  match pages with
  | [] => []
  | (u, _) :: rest => json_request api_token u params :: prospects_requests api_token None rest
  end.

(** The set after the pages of a chain. *)
Fixpoint collect_pages (pages : list (pystr * response)) (prospect_ids : gset jvalue)
  : gset jvalue :=
  match pages with
  | [] => prospect_ids
  | (_, r) :: rest => collect_pages rest (add_prospects (page_activities r) prospect_ids)
  end.

(** Prospects: two pages, with a duplicate and with ids that do not count. *)
Definition prospects_two_pages : server :=
  serve [(prospects_url,
          ok_json [prospect 7; Activity (Some (JStr (py "Resident"))) (Some (JInt 8));
                   prospect 0]
            (Some (next_header PAGE2)));
         (PAGE2, ok_json [prospect 7; prospect 9] None)].


(** Text-merge: a first page, then a transport error. *)
Definition csv_failing_second_page : server :=
  serve [(csv_base_url (py "Units"),
          ok_text (py "id,name" ++ [NL] ++ py "1,a") (Some (next_header PAGE2)))].

(** [t] is [s] with underscores inserted. *)
Inductive underscored : pystr -> pystr -> Prop :=
| underscored_nil : underscored [] []
| underscored_keep c s t : underscored s t -> underscored (c :: s) (c :: t)
| underscored_insert s t : underscored s t -> underscored s ("_"%char :: t).

(** A pattern of two groups that cover a match, neither match empty,
    with an upper-case letter in every match. *)
Definition two_groups (its : pattern) : Prop :=
  forall s ps rest,
    match_here its s = Some (ps, rest) ->
    exists g1 g2,
      groups its ps = [g1; g2] /\ concat ps = g1 ++ g2 /\ g1 ++ g2 <> []
      /\ exists c, In c (g1 ++ g2) /\ is_upper_az c = true.

Definition no_capital (s : pystr) : Prop :=
  forallb (fun c => negb (is_upper_az c)) s = true.

(** ** The three-step pipeline: [main.py] and the utilities it calls

    [process_table] downloads a table with [download_table_csv], uploads
    the file with [upload_to_azure_blob] and runs the table's SQL file
    with [load_data_to_snowflake]; [load_config] builds the configuration.
    The last three are those of [archive/utils]. What lies outside the
    repository (configparser, the environment, the Azure SDK, the
    Snowflake connector, [str.format], [tempfile], [pathlib]) is a field
    of [platform]. *)

Inductive exception : Type :=
| ValueError (msg : pystr)
| FileNotFoundError (msg : pystr)
| KeyError (key : pystr)
| NoSuchFile (path : pystr)       (* [open] of a file that does not exist *)
| LibraryError (msg : pystr).     (* raised inside a library *)

(** The message of a log record: a text, or a text followed by [str(e)]. *)
Inductive note : Type :=
| Text (t : pystr)
| TextExc (t : pystr) (e : exception).

(** A [dict] of strings, and the [dict] of the sections of a configuration. *)
Abbreviation options := (gmap pystr pystr).
Abbreviation config_dict := (gmap pystr options).

(** [config.read(path)] followed by [dict(config[section])] for each section. *)
Inductive ini_file : Type :=
| NotRead                          (* [config.read] returns no file *)
| Unparsable (msg : pystr)         (* configparser raises *)
| Sections (config : config_dict).

Record platform : Type := Platform {
  api : server;
  read_ini : pystr -> ini_file;
  environ : gmap pystr pystr;                       (* os.environ *)
  config_path : pystr;                              (* Path(__file__).parent / "config.ini" *)
  sql_path : pystr -> pystr;                        (* Path(__file__).parent / "sql" / name *)
  mkdtemp : world -> pystr;                         (* the directory TemporaryDirectory() makes *)
  rmtree : pystr -> gmap pystr pystr -> gmap pystr pystr;   (* and its removal *)
  (* the message of the exception a call raises, [None] when it returns *)
  from_connection_string : pystr -> option pystr;
  upload_blob : pystr -> pystr -> pystr -> pystr -> option pystr;
  connect : pystr -> pystr -> pystr -> pystr -> pystr -> pystr -> option pystr;
  execute : list pystr -> pystr -> option pystr;    (* the statements run before, the statement *)
  (* sql.format(database=, schema=, stage_name=, blob_name=) *)
  format : pystr -> pystr -> pystr -> pystr -> pystr -> exception + pystr
}.

Record system : Type := System {
  host : world;                                     (* files, requests, records of wh_api_utils *)
  records : list (level * note);                    (* records of the other loggers, oldest first *)
  blobs : gmap (pystr * pystr * pystr) pystr;       (* (connection string, container, blob) -> content *)
  executed : list pystr;                            (* statements run by Snowflake cursors, oldest first *)
  connections : nat                                 (* Snowflake connections that are open *)
}.

Definition emit (l : level) (n : note) (s : system) : system :=
  System (host s) (records s ++ [(l, n)]) (blobs s) (executed s) (connections s).

Definition info (t : pystr) : system -> system := emit INFO (Text t).
Definition warning (t : pystr) : system -> system := emit WARNING (Text t).
Definition error (t : pystr) : system -> system := emit ERROR (Text t).

Definition on_host (w : world) (s : system) : system :=
  System w (records s) (blobs s) (executed s) (connections s).

(** [d[key]] and [c[section][key]] *)
Definition getitem (d : options) (key : pystr) : exception + pystr :=
  match d !! key with
  | Some v => inr v
  | None => inl (KeyError key)
  end.

Definition getitem2 (c : config_dict) (section key : pystr) : exception + pystr :=
  match c !! section with
  | Some d => getitem d key
  | None => inl (KeyError section)
  end.

(** [c[section][key] = v] for a section that [c] has. *)
Definition setitem2 (section key v : pystr) (c : config_dict) : config_dict :=
  match c !! section with
  | Some d => <[section := <[key := v]> d]> c
  | None => c
  end.

(** [key in d] *)
Definition has_key {V : Type} (key : pystr) (d : gmap pystr V) : bool :=
  match d !! key with
  | Some _ => true
  | None => false
  end.

(** Truth value of [d.get(key)]. *)
Definition truthy_get (d : options) (key : pystr) : bool :=
  truthy_str (default [] (d !! key)).

(** Truth value of [c.get(section, {}).get(key)]. *)
Definition truthy_get2 (c : config_dict) (section key : pystr) : bool :=
  truthy_get (default ∅ (c !! section)) key.

(** Truth value of [c.get(section)]: the section is there and has a key. *)
Definition truthy_section (c : config_dict) (section : pystr) : bool :=
  match c !! section with
  | Some d => negb (bool_decide (d = ∅))
  | None => false
  end.

Definition and_then {A B : Type} (x : exception + A) (k : A -> exception + B)
  : exception + B :=
  match x with
  | inl e => inl e
  | inr a => k a
  end.

Notation "'let!' x := e 'in' k" := (and_then e (fun x => k))
  (at level 10, x name, e at level 100, k at level 200).

(** *** [load_config] (archive/utils/config_utils.py) *)

Definition REQUIRED_SNOWFLAKE_FIELDS : list pystr :=
  [py "user"; py "password"; py "account"; py "warehouse"; py "database";
   py "schema"; py "stage_name"].

(** [os.getenv] gives [None] for a variable that is not set; stored under
    [api_key], [None] is refused by the test that follows like the empty
    string, which stands for it here. *)
Definition load_config (P : platform) (config_path : pystr) (s : system)
  : (exception + config_dict) * system :=
  if negb (truthy_str config_path)
  then (inl (ValueError (py "Configuration file path cannot be empty")), s)
  else
    match read_ini P config_path with
    | NotRead =>
        (inl (FileNotFoundError (py "Configuration file not found: " ++ config_path)), s)
    | Unparsable msg => (inl (LibraryError msg), s)
    | Sections config_dict =>
        match List.find (fun section => negb (has_key section config_dict))
                [py "Azure"; py "Snowflake"] with
        | Some section =>
            (inl (ValueError (py "Required configuration section '" ++ section
                              ++ py "' is missing")), s)
        | None =>
            let config_dict :=
              match environ P !! py "AZURE_CONNECTION_STRING" with
              | Some v => setitem2 (py "Azure") (py "connection_string") v config_dict
              | None => config_dict
              end in
            if negb (has_key (py "WelcomeHome") config_dict)
            then (inl (KeyError (py "WelcomeHome")), s)
            else
              let config_dict :=
                setitem2 (py "WelcomeHome") (py "api_key")
                  (default [] (environ P !! py "WELCOME_HOME_API_KEY")) config_dict in
              let config_dict :=
                setitem2 (py "Snowflake") (py "password")
                  (default
                     (default [] (default ∅ (config_dict !! py "Snowflake") !! py "password"))
                     (environ P !! py "SNOWFLAKE_PASSWORD"))
                  config_dict in
              if negb (truthy_get2 config_dict (py "WelcomeHome") (py "api_key"))
              then (inl (ValueError (py "Welcome Home API key not found in environment variables or config file. Please set WELCOME_HOME_API_KEY in .env file.")), s)
              else
                let snowflake_config := default ∅ (config_dict !! py "Snowflake") in
                let missing_fields :=
                  List.filter (fun field => negb (truthy_get snowflake_config field))
                    REQUIRED_SNOWFLAKE_FIELDS in
                match missing_fields with
                | _ :: _ =>
                    (inl (ValueError (py "Missing Snowflake configuration fields: "
                                      ++ join (py ", ") missing_fields
                                      ++ py ". Please check your config.ini file and ensure SNOWFLAKE_PASSWORD is set in .env file.")), s)
                | [] => (inr config_dict, info (py "Configuration loaded successfully") s)
                end
        end
    end.

(** *** [upload_to_azure_blob] (archive/utils/azure_utils.py) *)

Definition raised (msg : option pystr) : exception + unit :=
  match msg with
  | Some m => inl (LibraryError m)
  | None => inr tt
  end.

(** [open(path, "rb")] and the read of the file. *)
Definition open_rb (path : pystr) (w : world) : exception + pystr :=
  match files w !! path with
  | Some data => inr data
  | None => inl (NoSuchFile path)
  end.

Definition upload_to_azure_blob (P : platform) (azure_config : options)
  (local_file : pystr) (s : system) : (exception + bool) * system :=
  match getitem azure_config (py "blob_name") with
  | inl e => (inl e, s)
  | inr name =>
      let s := info (py "Uploading file to Azure Blob Storage: " ++ name) s in
      let attempt : exception + system :=
        let! connection_string := getitem azure_config (py "connection_string") in
        let! _ := raised (from_connection_string P connection_string) in
        let! container_name := getitem azure_config (py "container_name") in
        let! blob_name := getitem azure_config (py "blob_name") in
        let! data := open_rb local_file (host s) in
        let! _ := raised (upload_blob P connection_string container_name blob_name data) in
        inr (System (host s) (records s)
               (<[(connection_string, container_name, blob_name) := data]> (blobs s))
               (executed s) (connections s)) in
      match attempt with
      | inr s => (inr true, info (py "File uploaded successfully to: " ++ name) s)
      | inl e => (inr false, emit ERROR (TextExc (py "Error uploading file to Azure Blob Storage: ") e) s)
      end
  end.

(** *** [read_sql_file], [load_data_to_snowflake] (archive/utils/snowflake_utils.py) *)

Definition read_sql_file (file_path : pystr) (w : world) : exception + pystr :=
  match files w !! file_path with
  | None => inl (FileNotFoundError (py "SQL file not found: " ++ file_path))
  | Some sql => inr sql
  end.

(** The loop over the statements: the exception that left it, if any. *)
Fixpoint execute_statements (P : platform) (sql_statements : list pystr) (s : system)
  : option exception * system :=
  match sql_statements with
  | [] => (None, s)
  | stmt :: rest =>
      if truthy_str (strip stmt) then
        let s := info (py "Executing SQL statement: " ++ firstn 100 (strip stmt) ++ py "...") s in
        match execute P (executed s) stmt with
        | Some msg => (Some (LibraryError msg), s)
        | None =>
            execute_statements P rest
              (System (host s) (records s) (blobs s) (executed s ++ [stmt]) (connections s))
        end
      else execute_statements P rest s
  end.

Definition snowflake_connect (P : platform) (snowflake_config : options) (s : system)
  : exception + system :=
  let! user := getitem snowflake_config (py "user") in
  let! password := getitem snowflake_config (py "password") in
  let! account := getitem snowflake_config (py "account") in
  let! warehouse := getitem snowflake_config (py "warehouse") in
  let! database := getitem snowflake_config (py "database") in
  let! schema := getitem snowflake_config (py "schema") in
  let! _ := raised (connect P user password account warehouse database schema) in
  inr (System (host s) (records s) (blobs s) (executed s) (S (connections s))).

Definition formatted_sql (P : platform) (snowflake_config azure_config : options)
  (file_path : pystr) (w : world) : exception + pystr :=
  let! sql := read_sql_file file_path w in
  let! database := getitem snowflake_config (py "database") in
  let! schema := getitem snowflake_config (py "schema") in
  let! stage_name := getitem snowflake_config (py "stage_name") in
  let! blob_name := getitem azure_config (py "blob_name") in
  format P sql database schema stage_name blob_name.

Definition load_failed (e : exception) (s : system) : bool * system :=
  (false, emit ERROR (TextExc (py "Error loading data into Snowflake: ") e) s).

Definition load_data_to_snowflake (P : platform) (snowflake_config azure_config : options)
  (file_path : pystr) (s : system) : bool * system :=
  let s := info (py "Connecting to Snowflake") s in
  match snowflake_connect P snowflake_config s with
  | inl e => load_failed e s
  | inr s =>
      match formatted_sql P snowflake_config azure_config file_path (host s) with
      | inl e => load_failed e s
      | inr sql =>
          let sql_statements := split ";" sql in
          match execute_statements P sql_statements s with
          | (Some e, s) => load_failed e s
          | (None, s) =>
              (* conn.close() *)
              let s := System (host s) (records s) (blobs s) (executed s)
                         (Nat.pred (connections s)) in
              (true, info (py "Data loaded successfully into the table") s)
          end
      end
  end.

(** *** [process_table] (main.py) *)

Definition GREEN : pystr := [chr 27] ++ py "[92m".
Definition RESET : pystr := [chr 27] ++ py "[0m".

Definition colorize_table_name (table_name : pystr) : pystr :=
  GREEN ++ table_name ++ RESET.

Definition rule (n : nat) : pystr := repeat "="%char n.

(** [os.path.getsize] of a file written as UTF-8. *)
Definition getsize (data : pystr) : Z :=
  fold_right (fun c n => (if N.ltb (ord c) 128 then 1 else 2) + n) 0 data.

(** How a block of statements ends: it goes on with a value, the function
    returns, or an exception leaves it. *)
Inductive flow (A B : Type) : Type :=
| Next (a : A)
| Return (v : B)
| Raise (e : exception).
Arguments Next {A B} a.
Arguments Return {A B} v.
Arguments Raise {A B} e.

(** Truth value of [csv_file_path]. *)
Definition truthy_path (p : option pystr) : bool :=
  match p with
  | Some p => truthy_str p
  | None => false
  end.

(** The dictionary [azure_config] of steps 2 and 3. *)
Definition make_azure_config (table_name : pystr) (config : config_dict)
  : exception + options :=
  let! connection_string := getitem2 config (py "Azure") (py "connection_string") in
  let! container_name := getitem2 config (py "Azure") (py "container_name") in
  inr (<[py "blob_name" := lower table_name ++ py ".csv"]>
         (<[py "container_name" := container_name]>
            (<[py "connection_string" := connection_string]> ∅))).

Definition make_snowflake_config (table_name : pystr) (config : config_dict)
  : exception + options :=
  let! user := getitem2 config (py "Snowflake") (py "user") in
  let! password := getitem2 config (py "Snowflake") (py "password") in
  let! account := getitem2 config (py "Snowflake") (py "account") in
  let! warehouse := getitem2 config (py "Snowflake") (py "warehouse") in
  let! database := getitem2 config (py "Snowflake") (py "database") in
  let! schema := getitem2 config (py "Snowflake") (py "schema") in
  let! stage_name := getitem2 config (py "Snowflake") (py "stage_name") in
  inr (<[py "stage_name" := stage_name]>
         (<[py "table_name" := lower table_name]>
            (<[py "schema" := schema]>
               (<[py "database" := database]>
                  (<[py "warehouse" := warehouse]>
                     (<[py "account" := account]>
                        (<[py "password" := password]>
                           (<[py "user" := user]> ∅)))))))).

(** Step 1, inside the temporary directory. The outer [None] is fuel. *)
Definition download_step (fuel : nat) (P : platform) (table_name : pystr)
  (config : config_dict) (temp_dir : pystr) (s : system)
  : option (flow (option pystr) (option bool) * system) :=
  let s := info (rule 80) s in
  let s := info (py "STEP 1: Query API endpoint and download CSV to temporary location") s in
  let s := info (rule 80) s in
  match getitem2 config (py "WelcomeHome") (py "api_key") with
  | inl e => Some (Raise e, s)
  | inr api_key =>
      match download_table_csv fuel (api P) table_name api_key temp_dir (host s) with
      | None => None
      | Some (csv_file_path, w) =>
          let s := on_host w s in
          if negb (truthy_path csv_file_path) then
            Some (Return (Some false),
                  error (py "Failed to download CSV from API for table: "
                         ++ colorize_table_name table_name) s)
          else
            let path := default [] csv_file_path in
            match files (host s) !! path with
            | None =>
                Some (Return (Some false), error (py "CSV file does not exist: " ++ path) s)
            | Some data =>
                let file_size := getsize data in
                let s := info (py "Downloaded and processed CSV file size: "
                               ++ str_of_Z file_size ++ py " bytes") s in
                if file_size =? 0 then
                  Some (Return (Some false),
                        warning (py "CSV file is empty for table: "
                                 ++ colorize_table_name table_name) s)
                else Some (Next csv_file_path, s)
            end
      end
  end.

(** Step 2, inside the temporary directory. *)
Definition upload_step (P : platform) (table_name : pystr) (config : config_dict)
  (api_download : bool) (csv_file_path : option pystr) (s : system)
  : flow (option options) (option bool) * system :=
  let s := info (rule 80) s in
  let s := info (py "STEP 2: Upload CSV to blob storage from temporary location") s in
  let s := info (rule 80) s in
  if negb (truthy_path csv_file_path) && api_download then
    (Return (Some false), error (py "No CSV file available for blob upload") s)
  else if negb (truthy_path csv_file_path) then
    (Return (Some false),
     error (py "Cannot upload to blob without first downloading CSV. Enable api_download=True.") s)
  else
    match make_azure_config table_name config with
    | inl e => (Raise e, s)
    | inr azure_config =>
        match upload_to_azure_blob P azure_config (default [] csv_file_path) s with
        | (inl e, s) => (Raise e, s)
        | (inr success, s) =>
            if negb success then
              (Return (Some false),
               error (py "Failed to upload CSV to blob storage for table: "
                      ++ colorize_table_name table_name) s)
            else (Next (Some azure_config), s)
        end
    end.

(** The block [with tempfile.TemporaryDirectory() as temp_dir:]; the
    directory is removed on every way out of the block. *)
Definition in_temporary_directory (fuel : nat) (P : platform) (table_name : pystr)
  (config : config_dict) (api_download blob_upload : bool) (s : system)
  : option (flow (option options) (option bool) * system) :=
  let temp_dir := mkdtemp P (host s) in
  let s := info (py "Using temporary directory: " ++ temp_dir) s in
  let step1 :=
    if api_download then download_step fuel P table_name config temp_dir s
    else Some (Next None, s) in
  let step2 :=
    match step1 with
    | None => None
    | Some (Next csv_file_path, s) =>
        if blob_upload then Some (upload_step P table_name config api_download csv_file_path s)
        else Some (Next None, s)
    | Some (Return v, s) => Some (Return v, s)
    | Some (Raise e, s) => Some (Raise e, s)
    end in
  match step2 with
  | None => None
  | Some (r, s) =>
      Some (r, on_host (World (rmtree P temp_dir (files (host s)))
                          (log (host s)) (sent (host s))) s)
  end.

(** Step 3. *)
Definition load_step (P : platform) (table_name : pystr) (config : config_dict)
  (azure_config : option options) (s : system) : bool * system :=
  let s := info (rule 80) s in
  let s := info (py "STEP 3: Use SQL in sql/" ++ camel_to_snake_case table_name
                 ++ py ".sql to load table into Snowflake from stage") s in
  let s := info (rule 80) s in
  let sql_file_path := sql_path P (camel_to_snake_case table_name ++ py ".sql") in
  if negb (has_key sql_file_path (files (host s))) then
    let s := warning (py "SQL file not found: " ++ sql_file_path) s in
    let s := info (py "To complete the pipeline, create the appropriate SQL file and execute it in Snowflake") s in
    (false, s)
  else
    let s := info (py "SQL file available at: " ++ sql_file_path) s in
    if truthy_section config (py "Snowflake") then
      let configs :=
        let! azure_config :=
          match azure_config with
          | None => make_azure_config table_name config
          | Some a => inr a
          end in
        let! snowflake_config := make_snowflake_config table_name config in
        inr (snowflake_config, azure_config) in
      match configs with
      | inl e =>
          let s := emit ERROR (TextExc (py "Auto-load to Snowflake failed: ") e) s in
          let s := info (py "Please execute the SQL file manually in Snowflake") s in
          (false, s)
      | inr (snowflake_config, azure_config) =>
          let '(load_success, s) :=
            load_data_to_snowflake P snowflake_config azure_config sql_file_path s in
          if load_success then
            let s := info (py "Data loaded successfully into snowflake table: "
                           ++ colorize_table_name table_name) s in
            (true, info (py "Successfully processed table: "
                         ++ colorize_table_name table_name) s)
          else
            (false, error (py "Failed to auto-load data to Snowflake for table: "
                           ++ colorize_table_name table_name) s)
      end
    else
      let s := info (py "To complete the pipeline, execute the SQL file in Snowflake to load the data") s in
      let s := warning (py "Snowflake configuration missing - cannot auto-load data") s in
      (false, s).

(** [process_table(table_name, config, api_download, blob_upload,
    snowflake_load)]: what it returns ([None] is Python's [None], which the
    function returns when it ends without step 3) or the exception it
    raises. The outer [None] is fuel. *)
Definition process_table (fuel : nat) (P : platform) (table_name : pystr)
  (config : config_dict) (api_download blob_upload snowflake_load : bool) (s : system)
  : option ((exception + option bool) * system) :=
  let steps_to_run :=
    (if api_download then [py "API Download"] else [])
    ++ (if blob_upload then [py "Blob Upload"] else [])
    ++ (if snowflake_load then [py "Snowflake Load"] else []) in
  let s := info (py "Processing " ++ colorize_table_name table_name
                 ++ py " table - Steps: " ++ join (py ", ") steps_to_run) s in
  let block :=
    if api_download || blob_upload
    then in_temporary_directory fuel P table_name config api_download blob_upload s
    else Some (Next None, s) in
  match block with
  | None => None
  | Some (Return v, s) => Some (inr v, s)
  | Some (Raise e, s) => Some (inl e, s)
  | Some (Next azure_config, s) =>
      if snowflake_load then
        let '(success, s) := load_step P table_name config azure_config s in
        Some (inr (Some success), s)
      else Some (inr None, s)
  end.

(** *** [main] (main.py) *)

Definition TABLES : list pystr :=
  [py "Prospects"; py "Residents"; py "Activities"; py "DepositTransactions"].

(** The loop over the tables: [successful_tables], [failed_tables]. *)
Fixpoint process_tables (fuel : nat) (P : platform) (config : config_dict)
  (tables successful_tables failed_tables : list pystr) (s : system)
  : option (list pystr * list pystr * system) :=
  match tables with
  | [] => Some (successful_tables, failed_tables, s)
  | table_name :: rest =>
      let s := info ([NL] ++ rule 120) s in
      let s := info (py "PROCESSING TABLE: " ++ colorize_table_name table_name) s in
      let s := info (rule 120) s in
      match process_table fuel P table_name config true true true s with
      | None => None
      | Some (inr (Some true), s) =>
          process_tables fuel P config rest (successful_tables ++ [table_name]) failed_tables s
      | Some (inr _, s) =>
          process_tables fuel P config rest successful_tables (failed_tables ++ [table_name]) s
      | Some (inl e, s) =>
          let s := emit ERROR (TextExc (py "Error processing table "
                                        ++ colorize_table_name table_name ++ py ": ") e) s in
          process_tables fuel P config rest successful_tables (failed_tables ++ [table_name]) s
      end
  end.

(** [main()]: the exit code. *)
Definition main (fuel : nat) (P : platform) (s : system) : option (Z * system) :=
  let s := info (rule 100) s in
  let s := info (py "WELCOME HOME DATA EXPORT PIPELINE STARTING") s in
  let s := info (rule 100) s in
  match load_config P (config_path P) s with
  | (inl e, s) => Some (1, emit ERROR (TextExc (py "Pipeline failed with error: ") e) s)
  | (inr config, s) =>
      if negb (truthy_get2 config (py "WelcomeHome") (py "api_key")) then
        Some (1, error (py "Welcome Home API key not configured. Please set WELCOME_HOME_API_KEY in .env file.") s)
      else if negb (truthy_get2 config (py "Azure") (py "connection_string")) then
        Some (1, error (py "Azure connection string not configured. Please set AZURE_CONNECTION_STRING in .env file.") s)
      else if negb (truthy_section config (py "Snowflake")) then
        Some (1, error (py "Snowflake configuration not found. Please check your config.ini file.") s)
      else
        match process_tables fuel P config TABLES [] [] s with
        | None => None
        | Some (successful_tables, failed_tables, s) =>
            let s := info ([NL] ++ rule 100) s in
            let s := info (py "PIPELINE COMPLETED") s in
            let s := info (rule 100) s in
            let s :=
              match successful_tables with
              | _ :: _ =>
                  info (py "Successfully processed " ++ str_of_Z (len successful_tables)
                        ++ py " tables: " ++ join (py ", ") successful_tables) s
              | [] => s
              end in
            let s :=
              match failed_tables with
              | _ :: _ =>
                  error (py "Failed to process " ++ str_of_Z (len failed_tables)
                         ++ py " tables: " ++ join (py ", ") failed_tables) s
              | [] => s
              end in
            match failed_tables with
            | [] => Some (0, info (py "All tables processed successfully!") s)
            | _ :: _ =>
                Some (1, error (py "Pipeline completed with " ++ str_of_Z (len failed_tables)
                                ++ py " failures.") s)
            end
        end
  end.

(** ** Vocabulary and scenarios of the pipeline *)

(** A statement that [load_data_to_snowflake] runs: not blank. *)
Definition runs (stmt : pystr) : bool := truthy_str (strip stmt).

(** [s'] has the records of [s] and then [more]. *)
Definition logged (s s' : system) (more : list (level * note)) : Prop :=
  records s' = records s ++ more.

(** A record that reports a problem. *)
Definition is_problem (r : level * note) : bool :=
  match fst r with
  | ERROR | WARNING => true
  | _ => false
  end.

(** The blob of a table in the account and container of a configuration. *)
Definition table_blob (config : config_dict) (table_name : pystr)
  : option (pystr * pystr * pystr) :=
  match getitem2 config (py "Azure") (py "connection_string"),
        getitem2 config (py "Azure") (py "container_name") with
  | inr connection_string, inr container_name =>
      Some (connection_string, container_name, lower table_name ++ py ".csv")
  | _, _ => None
  end.

(** The configuration before the tests of [load_config], from the
    sections of the file. *)
Definition overridden (P : platform) (file : config_dict) : config_dict :=
  let c1 :=
    match environ P !! py "AZURE_CONNECTION_STRING" with
    | Some v => setitem2 (py "Azure") (py "connection_string") v file
    | None => file
    end in
  let c2 :=
    setitem2 (py "WelcomeHome") (py "api_key")
      (default [] (environ P !! py "WELCOME_HOME_API_KEY")) c1 in
  setitem2 (py "Snowflake") (py "password")
    (default (default [] (default ∅ (c2 !! py "Snowflake") !! py "password"))
       (environ P !! py "SNOWFLAKE_PASSWORD")) c2.

(** A configuration file with the three sections, a key and a password
    of its own. *)
Definition lab_ini : config_dict :=
  {[ py "Azure" := {[ py "connection_string" := py "in-file"; py "container_name" := py "raw" ]};
     py "Snowflake" := {[ py "user" := py "etl"; py "password" := py "in-file";
                          py "account" := py "acc"; py "warehouse" := py "wh";
                          py "database" := py "db"; py "schema" := py "sch";
                          py "stage_name" := py "stage" ]};
     py "WelcomeHome" := {[ py "api_key" := py "in-file" ]} ]}.

(** Services that all answer, around the two pages of Units. *)
Definition lab : platform := {|
  api := two_csv_pages;
  read_ini := fun _ => Sections lab_ini;
  environ := {[ py "WELCOME_HOME_API_KEY" := py "k"; py "SNOWFLAKE_PASSWORD" := py "pw";
                py "AZURE_CONNECTION_STRING" := py "cs" ]};
  config_path := py "config.ini";
  sql_path := fun name => py "sql/" ++ name;
  mkdtemp := fun _ => py "/tmp/t";
  rmtree := fun dir fs => delete (path_join dir (py "Units.csv")) fs;
  from_connection_string := fun _ => None;
  upload_blob := fun _ _ _ _ => None;
  connect := fun _ _ _ _ _ _ => None;
  execute := fun _ _ => None;
  format := fun sql _ _ _ _ => inr sql
|}.

(** The same with an environment that sets nothing. *)
Definition lab_no_env : platform := {|
  api := api lab; read_ini := read_ini lab; environ := ∅;
  config_path := config_path lab; sql_path := sql_path lab; mkdtemp := mkdtemp lab;
  rmtree := rmtree lab; from_connection_string := from_connection_string lab;
  upload_blob := upload_blob lab; connect := connect lab; execute := execute lab;
  format := format lab
|}.

(** The same with a database that refuses the statement [b]. *)
Definition lab_refusing : platform := {|
  api := api lab; read_ini := read_ini lab; environ := environ lab;
  config_path := config_path lab; sql_path := sql_path lab; mkdtemp := mkdtemp lab;
  rmtree := rmtree lab; from_connection_string := from_connection_string lab;
  upload_blob := upload_blob lab; connect := connect lab;
  execute := fun _ stmt => if str_eqb stmt (py " b") then Some (py "refused") else None;
  format := format lab
|}.

(** A machine that holds the SQL file of Units. *)
Definition lab_system : system :=
  System (World {[ py "sql/units.sql" := py "a; b;" ++ [NL] ]} [] []) [] ∅ [] 0.

(** The configuration [load_config] gives in [lab]. *)
Definition lab_config : config_dict :=
  match fst (load_config lab (config_path lab) lab_system) with
  | inr c => c
  | inl _ => ∅
  end.

(** Whether [snowflake.connector.connect] returns a connection. *)
Definition connects (P : platform) (snowflake_config : options) (s : system) : bool :=
  match snowflake_connect P snowflake_config s with
  | inr _ => true
  | inl _ => false
  end.

(** The dictionaries [process_table] passes for Units in [lab]. *)
Definition lab_azure : options :=
  match make_azure_config (py "Units") lab_config with
  | inr a => a
  | inl _ => ∅
  end.

Definition lab_snowflake : options :=
  match make_snowflake_config (py "Units") lab_config with
  | inr a => a
  | inl _ => ∅
  end.

(** [s'] has the records of [s] and then others, if any. *)
Definition grows (s s' : system) : Prop :=
  exists more, records s' = records s ++ more.

(** Between [s] and [s'], a record reports a problem. *)
Definition reports_problem (s s' : system) : Prop :=
  exists before r after,
    records s' = records s ++ before ++ r :: after /\ is_problem r = true.


(** [lab] with an API whose second page does not answer. *)
Definition lab_offline : platform := {|
  api := csv_failing_second_page; read_ini := read_ini lab; environ := environ lab;
  config_path := config_path lab; sql_path := sql_path lab; mkdtemp := mkdtemp lab;
  rmtree := rmtree lab; from_connection_string := from_connection_string lab;
  upload_blob := upload_blob lab; connect := connect lab; execute := execute lab;
  format := format lab
|}.



(** Whether a run ended, and with which value. *)
Definition returned {A B : Type} (x : option ((exception + A) * B)) : option (option A) :=
  match x with
  | Some (inr v, _) => Some (Some v)
  | Some (inl _, _) => Some None
  | None => None
  end.

(** An API that answers every request with one page of one record, and
    a machine that holds the SQL files of the four tables of [TABLES]. *)
Definition lab_all : platform := {|
  api := fun _ => ok_text (py "id" ++ [NL] ++ py "1") None;
  read_ini := read_ini lab; environ := environ lab;
  config_path := config_path lab; sql_path := sql_path lab; mkdtemp := mkdtemp lab;
  rmtree := fun dir fs =>
    filter (fun entry => starts_with (path_join dir []) (fst entry) = false) fs;
  from_connection_string := from_connection_string lab;
  upload_blob := upload_blob lab; connect := connect lab; execute := execute lab;
  format := format lab
|}.

Definition lab_all_system : system :=
  System (World {[ py "sql/prospects.sql" := py "a;";
                   py "sql/residents.sql" := py "b;";
                   py "sql/activities.sql" := py "c;";
                   py "sql/deposit_transactions.sql" := py "d;" ]} [] []) [] ∅ [] 0.

(** ** The two ID pipelines: [welcome_home_export/main.py] and
    [welcome_home/main.py]

    Both connect to Snowflake, fetch ids, and write them with
    [write_pandas]. The connector, [write_pandas], the clock and
    [str.upper] are fields of [connector]; [A] is the type of an id. *)

Record connector (A : Type) : Type := Connector {
  (* the message of the exception a call raises, [None] when it returns *)
  sf_connect : option pystr;
  sf_execute : list pystr -> pystr -> option pystr;   (* the statements run before, the statement *)
  (* write_pandas(conn, df, table_name, ...): (success, nchunks, nrows), or it raises *)
  sf_write_pandas : pystr -> list A -> list pystr -> exception + (bool * Z * Z);
  sf_now : world -> pystr;                            (* datetime.now(tz).strftime('%Y-%m-%d %H:%M:%S') *)
  str_upper : pystr -> pystr                          (* str.upper *)
}.
Arguments sf_connect {A} _.
Arguments sf_execute {A} _ _ _.
Arguments sf_write_pandas {A} _ _ _ _.
Arguments sf_now {A} _ _.
Arguments str_upper {A} _ _.

Record warehouse (A : Type) : Type := Warehouse {
  wh_world : world;                       (* requests and records of the fetch *)
  wh_records : list (level * note);       (* the other records, oldest first *)
  wh_executed : list pystr;               (* statements run by cursors, oldest first *)
  (* calls of write_pandas that returned: table, overwrite, the ID and LOAD_DTS columns *)
  wh_written : list (pystr * bool * list A * list pystr);
  wh_connections : nat                    (* connections that are open *)
}.
Arguments Warehouse {A} _ _ _ _ _.
Arguments wh_world {A} _.
Arguments wh_records {A} _.
Arguments wh_executed {A} _.
Arguments wh_written {A} _.
Arguments wh_connections {A} _.

Definition wh_emit {A : Type} (l : level) (n : note) (s : warehouse A) : warehouse A :=
  Warehouse (wh_world s) (wh_records s ++ [(l, n)]) (wh_executed s) (wh_written s)
    (wh_connections s).

Definition wh_info {A : Type} (t : pystr) : warehouse A -> warehouse A :=
  wh_emit INFO (Text t).
Definition wh_warning {A : Type} (t : pystr) : warehouse A -> warehouse A :=
  wh_emit WARNING (Text t).
Definition wh_error {A : Type} (t : pystr) : warehouse A -> warehouse A :=
  wh_emit ERROR (Text t).

Definition wh_on_world {A : Type} (w : world) (s : warehouse A) : warehouse A :=
  Warehouse w (wh_records s) (wh_executed s) (wh_written s) (wh_connections s).

(** [cursor.execute(stmt)] *)
Definition wh_execute {A : Type} (C : connector A) (stmt : pystr) (s : warehouse A)
  : exception + warehouse A :=
  match sf_execute C (wh_executed s) stmt with
  | Some msg => inl (LibraryError msg)
  | None =>
      inr (Warehouse (wh_world s) (wh_records s) (wh_executed s ++ [stmt]) (wh_written s)
             (wh_connections s))
  end.

(** [connection.close()] *)
Definition wh_close {A : Type} (s : warehouse A) : warehouse A :=
  Warehouse (wh_world s) (wh_records s) (wh_executed s) (wh_written s)
    (Nat.pred (wh_connections s)).

Definition blue_text (text : pystr) : pystr := [chr 27] ++ py "[34m" ++ text ++ [chr 27] ++ py "[0m".
Definition green_text (text : pystr) : pystr := [chr 27] ++ py "[32m" ++ text ++ [chr 27] ++ py "[0m".

(** [get_snowflake_connection()]: whether it returns a connection. *)
Definition get_snowflake_connection {A : Type} (C : connector A) (s : warehouse A)
  : bool * warehouse A :=
  match sf_connect C with
  | Some msg =>
      (false, wh_emit ERROR (TextExc (py "Error connecting to Snowflake: ") (LibraryError msg)) s)
  | None =>
      (true, Warehouse (wh_world s) (wh_records s) (wh_executed s) (wh_written s)
               (S (wh_connections s)))
  end.

(** How a [main] ends: it returns, [sys.exit] was called, or an exception
    leaves it. *)
Inductive ending : Type :=
| Finished
| Exited (code : Z)
| Failed (e : exception).

Module WelcomeHomeExport.

Definition indent (n : nat) : pystr := repeat " "%char n.

(** The text of [create_table_query]. *)
Definition create_table_query (snowflake_table_name : pystr) : pystr :=
  [NL] ++ indent 8 ++ py "CREATE OR REPLACE TABLE " ++ snowflake_table_name ++ py " ("
  ++ [NL] ++ indent 12 ++ py "id NUMBER,"
  ++ [NL] ++ indent 12 ++ py "load_dts TIMESTAMP_NTZ"
  ++ [NL] ++ indent 8 ++ py ");"
  ++ [NL] ++ indent 8.

(** [create_table_and_load_data(connection, table_name, ids)]: the
    exception it raises again, if any. *)
Definition create_table_and_load_data {A : Type} (C : connector A) (table_name : pystr)
  (ids : list A) (s : warehouse A) : option exception * warehouse A :=
  let snowflake_table_name := to_snake_case table_name in
  let load_timestamp := sf_now C (wh_world s) in
  let failed (e : exception) (s : warehouse A) :=
    (Some e, wh_emit ERROR (TextExc (py "Error during Snowflake operation for table "
                                     ++ blue_text snowflake_table_name ++ py ": ") e) s) in
  match wh_execute C (create_table_query snowflake_table_name) s with
  | inl e => failed e s
  | inr s =>
      let s := wh_info (py "Table '" ++ blue_text snowflake_table_name
                        ++ py "' created or replaced.") s in
      match ids with
      | _ :: _ =>
          let load_timestamp_str := load_timestamp in
          match sf_write_pandas C (str_upper C snowflake_table_name) ids
                  (repeat load_timestamp_str (length ids)) with
          | inl e => failed e s
          | inr (success, nchunks, nrows) =>
              let s :=
                Warehouse (wh_world s) (wh_records s) (wh_executed s)
                  (wh_written s
                   ++ [(str_upper C snowflake_table_name, true, ids,
                        repeat load_timestamp_str (length ids))])
                  (wh_connections s) in
              if success then
                (None, wh_info (green_text (py "SUCCESSFULLY LOADED") ++ py " "
                                ++ str_of_Z nrows ++ py " records into '"
                                ++ blue_text snowflake_table_name
                                ++ py "' using pandas (processed in "
                                ++ str_of_Z nchunks ++ py " chunks).") s)
              else
                (None, wh_error (py "Failed to load data into '"
                                 ++ blue_text snowflake_table_name
                                 ++ py "' using pandas.") s)
          end
      | [] =>
          (None, wh_info (green_text (py "No new data to load") ++ py " for '"
                          ++ blue_text snowflake_table_name ++ py "'.") s)
      end
  end.

Definition valid_tables : list pystr :=
  map py ["Organizations"; "Referrers"; "Influencers"; "Units"; "HousingContracts";
          "DepositTransactions"; "MarketingTouchpoints"; "ServiceAgreements"; "Traits";
          "Prospects"; "Residents"; "Activities"]%string.

(** [table in valid_tables] *)
Definition is_valid (table : pystr) : bool := existsb (str_eqb table) valid_tables.

(** The choice of [tables_to_run]: the tables, or the name that is not
    valid and ends the run. *)
Definition tables_to_run (specific_tables : option pystr) : pystr + list pystr :=
  if truthy_url specific_tables then
    let tables_to_run := map strip (split "," (default [] specific_tables)) in
    match List.find (fun table => negb (is_valid table)) tables_to_run with
    | Some table => inl table
    | None => inr tables_to_run
    end
  else inr TABLES_TO_PROCESS.

(** The loop [for table in tables_to_run]. The outer [None] is fuel. *)
Fixpoint load_tables {A : Type} (fuel : nat) (C : connector A) (srv : server)
  (read_csv : pystr -> option (list (pystr * list (option A)))) (api_token : pystr)
  (tables : list pystr) (s : warehouse A) : option (option exception * warehouse A) :=
  match tables with
  | [] => Some (None, s)
  | table :: rest =>
      let s := wh_info (py "Processing table: " ++ blue_text table) s in
      match fetch_all_ids_from_api A read_csv fuel srv api_token table 10000 (wh_world s) with
      | None => None
      | Some (ids, w) =>
          let s := wh_on_world w s in
          match ids with
          | _ :: _ =>
              match create_table_and_load_data C table ids s with
              | (Some e, s) => Some (Some e, s)
              | (None, s) =>
                  load_tables fuel C srv read_csv api_token rest (wh_info (py "---") s)
              end
          | [] => load_tables fuel C srv read_csv api_token rest (wh_info (py "---") s)
          end
      end
  end.

(** [main(specific_tables)] *)
Definition main {A : Type} (fuel : nat) (C : connector A) (srv : server)
  (read_csv : pystr -> option (list (pystr * list (option A)))) (api_token : pystr)
  (specific_tables : option pystr) (s : warehouse A) : option (ending * warehouse A) :=
  match get_snowflake_connection C s with
  | (false, s) => Some (Finished, s)
  | (true, s) =>
      let body :=
        match tables_to_run specific_tables with
        | inl table =>
            Some (Exited 1,
                  wh_error (py "Invalid table name: '" ++ table ++ py "'. Valid tables are: "
                            ++ join (py ", ") valid_tables) s)
        | inr tables_to_run =>
            let s := wh_info (py "Processing " ++ str_of_Z (len tables_to_run)
                              ++ py " table(s): " ++ join (py ", ") tables_to_run) s in
            match load_tables fuel C srv read_csv api_token tables_to_run s with
            | None => None
            | Some (Some e, s) => Some (Failed e, s)
            | Some (None, s) => Some (Finished, s)
            end
        end in
      (* finally *)
      match body with
      | None => None
      | Some (r, s) => Some (r, wh_info (py "Snowflake connection closed.") (wh_close s))
      end
  end.

End WelcomeHomeExport.

Module WelcomeHome.

Definition table_name : pystr := py "prospects".

Definition drop_sql : pystr := py "DROP TABLE IF EXISTS " ++ table_name.

Definition create_sql : pystr :=
  [NL] ++ repeat " "%char 8 ++ py "CREATE TABLE " ++ table_name ++ py " ("
  ++ [NL] ++ repeat " "%char 12 ++ py "id INTEGER,"
  ++ [NL] ++ repeat " "%char 12 ++ py "load_dts TIMESTAMP_NTZ"
  ++ [NL] ++ repeat " "%char 8 ++ py ")"
  ++ [NL] ++ repeat " "%char 8.

(** [create_table_and_load_data(connection, prospect_ids)]: the exception
    it raises again, if any. *)
Definition create_table_and_load_data {A : Type} (C : connector A) (prospect_ids : list A)
  (s : warehouse A) : option exception * warehouse A :=
  let failed (e : exception) (s : warehouse A) :=
    (Some e, wh_emit ERROR (TextExc (py "Error creating table or loading data: ") e) s) in
  match wh_execute C drop_sql s with
  | inl e => failed e s
  | inr s =>
      let s := wh_info (py "Dropped existing table " ++ blue_text table_name
                        ++ py " if it existed") s in
      match wh_execute C create_sql s with
      | inl e => failed e s
      | inr s =>
          let s := wh_info (py "Created table " ++ blue_text table_name) s in
          let current_time := sf_now C (wh_world s) in
          match prospect_ids with
          | _ :: _ =>
              match sf_write_pandas C (str_upper C table_name) prospect_ids
                      (repeat current_time (length prospect_ids)) with
              | inl e => failed e s
              | inr (success, nchunks, nrows) =>
                  let s :=
                    Warehouse (wh_world s) (wh_records s) (wh_executed s)
                      (wh_written s
                       ++ [(str_upper C table_name, false, prospect_ids,
                            repeat current_time (length prospect_ids))])
                      (wh_connections s) in
                  if success then
                    (None, wh_info (py "Successfully loaded " ++ green_text (str_of_Z nrows)
                                    ++ py " prospect records into " ++ blue_text table_name) s)
                  else (None, wh_error (py "Failed to load data into " ++ table_name) s)
              end
          | [] =>
              (None, wh_warning (py "No prospect IDs found to load into " ++ table_name) s)
          end
      end
  end.

(** [main()], with the two variables of the environment it tests. It
    returns [None] on every path. The outer [None] is fuel. *)
Definition main (fuel : nat) (C : connector jvalue) (srv : server)
  (API_TOKEN SNOWFLAKE_PASSWORD : option pystr) (s : warehouse jvalue)
  : option (warehouse jvalue) :=
  let s := wh_info (py "Starting Welcome Home prospects data pipeline") s in
  if negb (truthy_url API_TOKEN) then
    Some (wh_error (py "WELCOME_HOME_API_KEY environment variable is not set") s)
  else if negb (truthy_url SNOWFLAKE_PASSWORD) then
    Some (wh_error (py "SNOWFLAKE_PASSWORD environment variable is not set") s)
  else
    match get_snowflake_connection C s with
    | (false, s) => Some (wh_error (py "Failed to establish Snowflake connection") s)
    | (true, s) =>
        match fetch_prospect_ids_from_activities fuel srv (default [] API_TOKEN) 10000
                (wh_world s) with
        | None => None
        | Some (prospect_ids, w) =>
            let s := wh_on_world w s in
            let s :=
              match prospect_ids with
              | _ :: _ =>
                  match create_table_and_load_data C prospect_ids s with
                  | (Some e, s) => wh_emit ERROR (TextExc (py "Pipeline failed: ") e) s
                  | (None, s) =>
                      wh_info (py "Pipeline completed successfully! Loaded "
                               ++ green_text (str_of_Z (len prospect_ids))
                               ++ py " prospect records") s
                  end
              | [] => wh_warning (py "No prospect IDs found from activities") s
              end in
            (* finally *)
            Some (wh_info (py "Snowflake connection closed") (wh_close s))
        end
    end.

End WelcomeHome.

(** ** The archived pipeline: [archive/main.py] *)

Module Archive.

(** [api_download_and_upload(table_name, config)]. The outer [None] is fuel. *)
Definition api_download_and_upload (fuel : nat) (P : platform) (table_name : pystr)
  (config : config_dict) (s : system) : option ((exception + bool) * system) :=
  let s := info (py "Processing " ++ colorize_table_name table_name
                 ++ py " - API Download and Blob Upload") s in
  let temp_dir := mkdtemp P (host s) in
  let leave (s : system) : system :=
    on_host (World (rmtree P temp_dir (files (host s))) (log (host s)) (sent (host s))) s in
  let s := info (py "Using temporary directory: " ++ temp_dir) s in
  let s := info (rule 80) s in
  let s := info (py "STEP 1: Query API endpoint and download CSV to temporary location") s in
  let s := info (rule 80) s in
  match getitem2 config (py "WelcomeHome") (py "api_key") with
  | inl e => Some (inl e, leave s)
  | inr api_key =>
      match download_table_csv fuel (api P) table_name api_key temp_dir (host s) with
      | None => None
      | Some (csv_file_path, w) =>
          let s := on_host w s in
          if negb (truthy_path csv_file_path) then
            Some (inr false,
                  leave (error (py "Failed to download CSV from API for table: "
                                ++ colorize_table_name table_name) s))
          else
            let path := default [] csv_file_path in
            match files (host s) !! path with
            | None =>
                Some (inr false, leave (error (py "CSV file does not exist: " ++ path) s))
            | Some data =>
                let file_size := getsize data in
                let s := info (py "Downloaded and processed CSV file size: "
                               ++ str_of_Z file_size ++ py " bytes") s in
                if file_size =? 0 then
                  Some (inr false,
                        leave (warning (py "CSV file is empty for table: "
                                        ++ colorize_table_name table_name) s))
                else
                  let s := info (rule 80) s in
                  let s := info (py "STEP 2: Upload CSV to blob storage from temporary location") s in
                  let s := info (rule 80) s in
                  match make_azure_config table_name config with
                  | inl e => Some (inl e, leave s)
                  | inr azure_config =>
                      match upload_to_azure_blob P azure_config path s with
                      | (inl e, s) => Some (inl e, leave s)
                      | (inr success, s) =>
                          if negb success then
                            Some (inr false,
                                  leave (error (py "Failed to upload CSV to blob storage for table: "
                                                ++ colorize_table_name table_name) s))
                          else
                            Some (inr true,
                                  info (py "API download and blob upload completed successfully for "
                                        ++ colorize_table_name table_name) (leave s))
                      end
                  end
            end
      end
  end.

(** [snowflake_load(table_name, config)] *)
Definition snowflake_load (P : platform) (table_name : pystr) (config : config_dict)
  (s : system) : bool * system :=
  let s := info (py "Processing " ++ colorize_table_name table_name ++ py " - Snowflake Load") s in
  let s := info (rule 80) s in
  let s := info (py "Loading data into Snowflake from stage for table: " ++ table_name) s in
  let s := info (rule 80) s in
  let sql_file_path := sql_path P (camel_to_snake_case table_name ++ py ".sql") in
  if negb (has_key sql_file_path (files (host s))) then
    let s := warning (py "SQL file not found: " ++ sql_file_path) s in
    (false, info (py "To complete the pipeline, create the appropriate SQL file and execute it in Snowflake") s)
  else
    let s := info (py "SQL file available at: " ++ sql_file_path) s in
    if negb (truthy_section config (py "Snowflake")) then
      (false, warning (py "Snowflake configuration missing - cannot load data") s)
    else
      let configs :=
        let! azure_config := make_azure_config table_name config in
        let! snowflake_config := make_snowflake_config table_name config in
        inr (snowflake_config, azure_config) in
      match configs with
      | inl e =>
          let s := emit ERROR (TextExc (py "Snowflake load failed: ") e) s in
          (false, info (py "Please execute the SQL file manually in Snowflake") s)
      | inr (snowflake_config, azure_config) =>
          let '(load_success, s) :=
            load_data_to_snowflake P snowflake_config azure_config sql_file_path s in
          if load_success then
            (true, info (py "Data loaded successfully into snowflake table: "
                         ++ colorize_table_name table_name) s)
          else
            (false, error (py "Failed to load data to Snowflake for table: "
                           ++ colorize_table_name table_name) s)
      end.

(** The two steps of a table in the loop of [main]. *)
Definition run_table (fuel : nat) (P : platform) (table_name : pystr)
  (config : config_dict) (s : system) : option ((exception + bool) * system) :=
  match api_download_and_upload fuel P table_name config s with
  | None => None
  | Some (inr true, s) =>
      let '(load_success, s) := snowflake_load P table_name config s in
      Some (inr load_success, s)
  | Some (r, s) => Some (r, s)
  end.

End Archive.

(** ** Vocabulary and scenarios of the ID pipelines *)

(** [ids] is what [fetch_all_ids_from_api] returns for [table], from some
    state of the world. *)
Definition fetched {A : Type} (read_csv : pystr -> option (list (pystr * list (option A))))
  (fuel : nat) (srv : server) (api_token : pystr) (p : pystr * list A) : Prop :=
  exists w w',
    fetch_all_ids_from_api A read_csv fuel srv api_token (fst p) 10000 w = Some (snd p, w').

(** The tables of a run whose fetch gave ids. *)
Definition with_ids {A : Type} (p : pystr * list A) : bool :=
  match snd p with
  | [] => false
  | _ :: _ => true
  end.

(** The call of [write_pandas] that replaces a table by its ids, all
    rows with the timestamp [ts]. *)
Definition replacement {A : Type} (C : connector A) (p : pystr * list A) (ts : pystr)
  : pystr * bool * list A * list pystr :=
  (str_upper C (to_snake_case (fst p)), true, snd p, repeat ts (length (snd p))).

(** A connector that answers, with a clock that stands still, for ids
    that are strings and for ids that are JSON values. *)
Definition upper_az (s : pystr) : pystr :=
  map (fun c => if is_lower_az c then chr (ord c - 32) else c) s.

Definition answering (A : Type) : connector A := {|
  sf_connect := None;
  sf_execute := fun _ _ => None;
  sf_write_pandas := fun _ ids _ => inr (true, 1, len ids);
  sf_now := fun _ => py "2024-01-01 00:00:00";
  str_upper := upper_az
|}.

(** The same, where [write_pandas] raises. *)
Definition refusing_rows (A : Type) : connector A := {|
  sf_connect := None;
  sf_execute := fun _ _ => None;
  sf_write_pandas := fun _ _ _ => inl (LibraryError (py "refused"));
  sf_now := fun _ => py "2024-01-01 00:00:00";
  str_upper := upper_az
|}.

Definition empty_warehouse (A : Type) : warehouse A := Warehouse empty_world [] [] [] 0.

(** Structured-merge: Units has two pages of ids, Traits answers with an
    empty body. *)
Definition units_and_traits : server :=
  serve [(export_url (py "Units"),
          ok_text (py "units.id" ++ [NL] ++ py "1" ++ [NL] ++ py "2")
            (Some (next_header PAGE2)));
         (PAGE2, ok_text (py "units.id" ++ [NL] ++ py "3") None);
         (export_url (py "Traits"), ok_text [] None)].

(** Two states that differ at most in the records of [records]. *)
Definition same_effects (s t : system) : Prop :=
  host s = host t /\ blobs s = blobs t /\ executed s = executed t
  /\ connections s = connections t.

(** What [process_table] returns when the archived functions return [r]. *)
Definition as_result (r : exception + bool) : exception + option bool :=
  match r with
  | inl e => inl e
  | inr b => inr (Some b)
  end.

(** [lab] with a configuration file that has no [WelcomeHome] section. *)
Definition lab_no_section : platform := {|
  api := api lab;
  read_ini := fun _ => Sections (delete (py "WelcomeHome") lab_ini);
  environ := environ lab;
  config_path := config_path lab; sql_path := sql_path lab; mkdtemp := mkdtemp lab;
  rmtree := rmtree lab; from_connection_string := from_connection_string lab;
  upload_blob := upload_blob lab; connect := connect lab; execute := execute lab;
  format := format lab
|}.
(** * Properties *)

(** Both sides of an equation between concatenations, flattened to the
    right. *)
Ltac app_norm := repeat (rewrite <- app_assoc; cbn [app]).

(** ** The matcher *)

Lemma star_sound p k s w r :
  star p k s = Some (w, r) ->
  forallb p w = true /\ exists s', s = w ++ s' /\ k s' = Some r.
Proof.
  revert w r. induction s as [|c s IH]; intros w r H; simpl in H.
  - destruct (k []) eqn:E; inversion H; subst. split; [reflexivity|].
    exists []. split; [reflexivity|assumption].
  - destruct (p c) eqn:Pc.
    + destruct (star p k s) as [[w' r']|] eqn:E.
      * inversion H; subst. destruct (IH _ _ eq_refl) as [Hw [s' [-> Hk]]].
        split; [simpl; rewrite Pc; assumption|].
        exists s'. split; [reflexivity|assumption].
      * destruct (k (c :: s)) eqn:E'; inversion H; subst.
        split; [reflexivity|]. exists (c :: s). split; [reflexivity|assumption].
    + destruct (k (c :: s)) eqn:E'; inversion H; subst.
      split; [reflexivity|]. exists (c :: s). split; [reflexivity|assumption].
Qed.

(** A greedy repetition takes the whole run when the rest matches after it. *)
Lemma star_greedy p k w s r :
  forallb p w = true -> stops p s -> k s = Some r ->
  star p k (w ++ s) = Some (w, r).
Proof.
  intros Hw Hs Hk. induction w as [|c w IH]; simpl in *.
  - destruct s as [|c s]; simpl in *.
    + rewrite Hk. reflexivity.
    + rewrite Hs, Hk. reflexivity.
  - apply andb_true_iff in Hw as [Hc Hw]. rewrite Hc, (IH Hw). reflexivity.
Qed.

Lemma push_some w r ps rest :
  push w r = Some (ps, rest) ->
  exists ps', ps = w :: ps' /\ r = Some (ps', rest).
Proof.
  destruct r as [[ps' rest']|]; simpl; intros H; inversion H; subst.
  exists ps'. split; reflexivity.
Qed.

Lemma glue_some c r ps rest :
  glue c r = Some (ps, rest) ->
  exists w ps', ps = (match c with Some x => x :: w | None => w end) :: ps'
                /\ r = Some (w, (ps', rest)).
Proof.
  destruct r as [[w [ps' rest']]|]; simpl; intros H; inversion H; subst.
  exists w, ps'. split; reflexivity.
Qed.

(** A match consumes a prefix of the subject, piece by piece as the
    items of the pattern allow. *)
Lemma match_here_sound its :
  forall s ps rest,
    match_here its s = Some (ps, rest) ->
    Forall2 conforms its ps /\ s = concat ps ++ rest.
Proof.
  induction its as [|it its IH]; intros s ps rest H.
  - simpl in H. inversion H; subst. split; [constructor|reflexivity].
  - destruct it as [p|p|p|p| |]; simpl in H.
    + destruct s as [|c s]; [discriminate|].
      destruct (p c) eqn:Pc; [|discriminate].
      apply push_some in H as [ps' [-> H]]. apply IH in H as [HF ->].
      split; [constructor; [exists c; split; [reflexivity|assumption]|assumption]|reflexivity].
    + apply glue_some in H as [w [ps' [-> H]]].
      apply star_sound in H as [Hw [s' [-> H]]]. apply IH in H as [HF ->].
      split; [constructor; assumption|]. simpl. rewrite <- app_assoc. reflexivity.
    + destruct s as [|c s]; [discriminate|].
      destruct (p c) eqn:Pc; [|discriminate].
      apply glue_some in H as [w [ps' [-> H]]].
      apply star_sound in H as [Hw [s' [-> H]]]. apply IH in H as [HF ->].
      split.
      * constructor; [|assumption]. split; [discriminate|]. simpl. rewrite Pc. assumption.
      * simpl. rewrite <- app_assoc. reflexivity.
    + assert (Hskip : push [] (match_here its s) = Some (ps, rest) ->
                      Forall2 conforms (Opt p :: its) ps /\ s = concat ps ++ rest).
      { intros H'. apply push_some in H' as [ps' [-> H']]. apply IH in H' as [HF ->].
        split; [constructor; [left; reflexivity|assumption]|reflexivity]. }
      destruct s as [|c s]; [apply Hskip; assumption|].
      destruct (p c) eqn:Pc; [|apply Hskip; assumption].
      destruct (push [c] (match_here its s)) as [r|] eqn:E; [|apply Hskip; assumption].
      inversion H; subst. apply push_some in E as [ps' [-> E]]. apply IH in E as [HF ->].
      split; [constructor; [right; exists c; split; [reflexivity|assumption]|assumption]|reflexivity].
    + apply push_some in H as [ps' [-> H]]. apply IH in H as [HF ->].
      split; [constructor; [reflexivity|assumption]|reflexivity].
    + apply push_some in H as [ps' [-> H]]. apply IH in H as [HF ->].
      split; [constructor; [reflexivity|assumption]|reflexivity].
Qed.

Lemma search_from_sound its :
  forall s skipped pre ps rest,
    search_from its skipped s = Some (pre, ps, rest) ->
    exists mid, pre = rev skipped ++ mid /\ s = mid ++ concat ps ++ rest
                /\ match_here its (concat ps ++ rest) = Some (ps, rest).
Proof.
  induction s as [|c s IH]; intros skipped pre ps rest H; simpl in H.
  - destruct (match_here its []) as [[ps' rest']|] eqn:E; [|discriminate].
    inversion H; subst. exists []. rewrite app_nil_r.
    destruct (match_here_sound _ _ _ _ E) as [_ Hs].
    split; [reflexivity|]. split; [exact Hs|]. rewrite <- Hs. exact E.
  - destruct (match_here its (c :: s)) as [[ps' rest']|] eqn:E.
    + inversion H; subst. exists []. rewrite app_nil_r.
      destruct (match_here_sound _ _ _ _ E) as [_ Hs].
      split; [reflexivity|]. split; [exact Hs|]. rewrite <- Hs. exact E.
    + apply IH in H as [mid [-> [-> Hm]]]. exists (c :: mid).
      split; [simpl; rewrite <- app_assoc; reflexivity|]. split; [reflexivity|assumption].
Qed.

(** The search skips a prefix at none of whose positions the pattern matches. *)
Lemma search_from_skip its pre :
  forall s skipped,
    (forall a b, pre = a ++ b -> b <> [] -> match_here its (b ++ s) = None) ->
    search_from its skipped (pre ++ s) = search_from its (rev pre ++ skipped) s.
Proof.
  induction pre as [|c pre IH]; intros s skipped H; [reflexivity|].
  change ((c :: pre) ++ s) with (c :: (pre ++ s)). cbn [search_from].
  pose proof (H [] (c :: pre) eq_refl ltac:(discriminate)) as E.
  cbn [app] in E. rewrite E.
  rewrite IH; [cbn [rev]; rewrite <- app_assoc; reflexivity|].
  intros a b -> Hb. apply (H (c :: a) b eq_refl Hb).
Qed.

(** ** The pattern of [_get_next_page_url] *)

(** The end of the pattern, next and the optional quote, matches whatever follows. *)
Lemma match_next_tail rest :
  exists q' rest',
    match_here (lits "next" ++ [Opt quote]) (py "next" ++ rest)
    = Some ([["n"]; ["e"]; ["x"]; ["t"]; q'], rest')%char.
Proof.
  destruct rest as [|c r].
  - exists [], []. reflexivity.
  - destruct (quote c) eqn:Q.
    + exists [c], r. cbn. rewrite Q. reflexivity.
    + exists [], (c :: r). cbn. rewrite Q. reflexivity.
Qed.

Lemma match_quoted_next q rest :
  is_quote_text q ->
  exists q' rest',
    match_here ([Opt quote] ++ lits "next" ++ [Opt quote]) (q ++ py "next" ++ rest)
    = Some ([q; ["n"]; ["e"]; ["x"]; ["t"]; q'], rest')%char.
Proof.
  intros Hq. destruct (match_next_tail rest) as [q' [rest' E]].
  exists q', rest'.
  destruct Hq as [->|[->| ->]].
  - change ([] ++ py "next" ++ rest) with ("n"%char :: py "ext" ++ rest).
    change ([Opt quote] ++ lits "next" ++ [Opt quote])
      with (Opt quote :: (lits "next" ++ [Opt quote])).
    cbn [match_here]. change (quote "n") with false. cbv iota.
    change ("n"%char :: py "ext" ++ rest) with (py "next" ++ rest).
    rewrite E. reflexivity.
  - change ([DQUOTE] ++ py "next" ++ rest) with (DQUOTE :: (py "next" ++ rest)).
    change ([Opt quote] ++ lits "next" ++ [Opt quote])
      with (Opt quote :: (lits "next" ++ [Opt quote])).
    cbn [match_here]. change (quote DQUOTE) with true. cbv iota.
    rewrite E. reflexivity.
  - change ([SQUOTE] ++ py "next" ++ rest) with (SQUOTE :: (py "next" ++ rest)).
    change ([Opt quote] ++ lits "next" ++ [Opt quote])
      with (Opt quote :: (lits "next" ++ [Opt quote])).
    cbn [match_here]. change (quote SQUOTE) with true. cbv iota.
    rewrite E. reflexivity.
Qed.

(** From [rel=] on. *)
Lemma match_rel_next q rest :
  is_quote_text q ->
  exists q' rest',
    match_here (lits "rel=" ++ [Opt quote] ++ lits "next" ++ [Opt quote])
      (py "rel=" ++ q ++ py "next" ++ rest)
    = Some ([["r"]; ["e"]; ["l"]; ["="]; q; ["n"]; ["e"]; ["x"]; ["t"]; q'], rest')%char.
Proof.
  intros Hq. destruct (match_quoted_next q rest Hq) as [q' [rest' E]].
  exists q', rest'.
  change (lits "rel=" ++ [Opt quote] ++ lits "next" ++ [Opt quote])
    with (One (lit "r") :: One (lit "e") :: One (lit "l") :: One (lit "=")
          :: ([Opt quote] ++ lits "next" ++ [Opt quote])).
  change (py "rel=" ++ q ++ py "next" ++ rest)
    with ("r"%char :: "e"%char :: "l"%char :: "="%char :: (q ++ py "next" ++ rest)).
  cbn [match_here]. change (lit "r" "r") with true. change (lit "e" "e") with true.
  change (lit "l" "l") with true. change (lit "=" "=") with true. cbv iota.
  rewrite E. reflexivity.
Qed.

Lemma match_here_one p its c s :
  match_here (One p :: its) (c :: s)
  = if p c then push [c] (match_here its s) else None.
Proof. reflexivity. Qed.

Lemma match_here_star p its s :
  match_here (Star p :: its) s = glue None (star p (match_here its) s).
Proof. reflexivity. Qed.

Lemma match_here_plus p its c s :
  match_here (Plus p :: its) (c :: s)
  = if p c then glue (Some c) (star p (match_here its) s) else None.
Proof. reflexivity. Qed.

Lemma match_here_gopen its s :
  match_here (GOpen :: its) s = push [] (match_here its s).
Proof. reflexivity. Qed.

Lemma match_here_gclose its s :
  match_here (GClose :: its) s = push [] (match_here its s).
Proof. reflexivity. Qed.

(** A well-formed next link is matched where it starts, and the group
    is its URL. *)
Lemma match_next_link url ws1 ws2 q rest :
  url <> [] -> forallb (not_char ">") url = true ->
  forallb isspace ws1 = true -> forallb isspace ws2 = true ->
  is_quote_text q ->
  exists q' rest',
    match_here NEXT_LINK
      (py "<" ++ url ++ py ">" ++ ws1 ++ py ";" ++ ws2 ++ py "rel=" ++ q ++ py "next" ++ rest)
    = Some ([["<"]; []; url; []; [">"]; ws1; [";"]; ws2;
             ["r"]; ["e"]; ["l"]; ["="]; q; ["n"]; ["e"]; ["x"]; ["t"]; q'], rest')%char.
Proof.
  intros Hne Hurl Hw1 Hw2 Hq.
  destruct (match_rel_next q rest Hq) as [q' [rest' E]].
  exists q', rest'.
  destruct url as [|c url]; [congruence|].
  cbn [forallb] in Hurl. apply andb_true_iff in Hurl as [Hc Hurl].
  set (tail := lits "rel=" ++ [Opt quote] ++ lits "next" ++ [Opt quote]) in *.
  set (s3 := py "rel=" ++ q ++ py "next" ++ rest) in *.
  change NEXT_LINK with
    (One (lit "<") :: GOpen :: Plus (not_char ">") :: GClose :: One (lit ">")
     :: Star isspace :: One (lit ";") :: Star isspace :: tail).
  change (py "<" ++ (c :: url) ++ py ">" ++ ws1 ++ py ";" ++ ws2 ++ s3)
    with ("<"%char :: c :: (url ++ ">"%char :: (ws1 ++ ";"%char :: (ws2 ++ s3)))).
  assert (E2 : match_here (Star isspace :: tail) (ws2 ++ s3)
               = Some (ws2 :: [["r"]; ["e"]; ["l"]; ["="]; q; ["n"]; ["e"]; ["x"]; ["t"]; q'], rest')%char).
  { rewrite match_here_star.
    rewrite (star_greedy isspace (match_here tail) ws2 s3 _ Hw2 eq_refl E). reflexivity. }
  assert (E1 : match_here (Star isspace :: One (lit ";") :: Star isspace :: tail)
                 (ws1 ++ ";"%char :: (ws2 ++ s3))
               = Some (ws1 :: [";"] :: ws2 :: [["r"]; ["e"]; ["l"]; ["="]; q; ["n"]; ["e"]; ["x"]; ["t"]; q'], rest')%char).
  { rewrite match_here_star.
    rewrite (star_greedy isspace _ ws1 (";"%char :: (ws2 ++ s3))
               ([";"] :: ws2 :: [["r"]; ["e"]; ["l"]; ["="]; q; ["n"]; ["e"]; ["x"]; ["t"]; q'], rest')%char
               Hw1 eq_refl); [reflexivity|].
    rewrite match_here_one. change (lit ";" ";") with true. cbv iota.
    rewrite E2. reflexivity. }
  rewrite match_here_one. change (lit "<" "<") with true. cbv iota.
  rewrite match_here_gopen, match_here_plus, Hc.
  rewrite (star_greedy (not_char ">") _ url (">"%char :: (ws1 ++ ";"%char :: (ws2 ++ s3)))
             ([] :: [">"] :: ws1 :: [";"] :: ws2
              :: [["r"]; ["e"]; ["l"]; ["="]; q; ["n"]; ["e"]; ["x"]; ["t"]; q'], rest')%char
             Hurl eq_refl); [reflexivity|].
  rewrite match_here_gclose, match_here_one. change (lit ">" ">") with true. cbv iota.
  rewrite E1. reflexivity.
Qed.

(** ** Occurrences *)

Lemma starts_with_spec pre s :
  starts_with pre s = true <-> exists r, s = pre ++ r.
Proof.
  revert s. induction pre as [|x pre IH]; intros s; simpl.
  - split; [intros _; exists s; reflexivity|reflexivity].
  - destruct s as [|y s].
    + split; [discriminate|intros [r Hr]; discriminate].
    + rewrite andb_true_iff, Ascii.eqb_eq, IH. split.
      * intros [-> [r ->]]. exists r. reflexivity.
      * intros [r Hr]. inversion Hr; subst. split; [reflexivity|exists r; reflexivity].
Qed.

(** The operator [in] on strings decides [occurs]. *)
Lemma str_in_spec sub s : str_in sub s = true <-> occurs sub s.
Proof.
  induction s as [|c s IH]; simpl.
  - rewrite orb_false_r, starts_with_spec. split.
    + intros [r Hr]. exists [], r. exact Hr.
    + intros [a [b H]]. destruct a; [exists b; exact H|discriminate].
  - rewrite orb_true_iff, starts_with_spec, IH. split.
    + intros [[r Hr]|[a [b ->]]].
      * exists [], r. exact Hr.
      * exists (c :: a), b. reflexivity.
    + intros [a [b H]]. destruct a as [|x a].
      * left. exists b. exact H.
      * right. inversion H; subst. exists a, b. reflexivity.
Qed.

Lemma occurs_app_l sub a b : occurs sub a -> occurs sub (a ++ b).
Proof.
  intros [x [y ->]]. exists x, (y ++ b). rewrite <- !app_assoc. reflexivity.
Qed.

Lemma occurs_app_r sub a b : occurs sub b -> occurs sub (a ++ b).
Proof.
  intros [x [y ->]]. exists (a ++ x), y. rewrite <- !app_assoc. reflexivity.
Qed.

(** The first occurrence of a character. *)
Lemma first_occurrence (c : ascii) (l : pystr) :
  In c l -> exists u v, l = u ++ c :: v /\ ~ In c u.
Proof.
  induction l as [|x l IH]; [intros []|].
  intros H. destruct (ascii_dec x c) as [->|Hx].
  - exists [], l. split; [reflexivity|intros []].
  - destruct H as [H|H]; [congruence|].
    destruct (IH H) as [u [v [-> Hu]]]. exists (x :: u), v.
    split; [reflexivity|]. intros [E|E]; [congruence|exact (Hu E)].
Qed.

Lemma first_occurrence_unique (c : ascii) (u u' v v' : pystr) :
  ~ In c u -> ~ In c u' -> u ++ c :: v = u' ++ c :: v' -> u = u' /\ v = v'.
Proof.
  revert u'. induction u as [|x u IH]; intros u' Hu Hu' E.
  - destruct u' as [|y u']; simpl in E.
    + inversion E. split; reflexivity.
    + inversion E; subst. exfalso. apply Hu'. left. reflexivity.
  - destruct u' as [|y u']; simpl in E.
    + inversion E; subst. exfalso. apply Hu. left. reflexivity.
    + inversion E; subst. destruct (IH u') as [-> ->]; [| |assumption|split; reflexivity].
      * intros H. apply Hu. right. exact H.
      * intros H. apply Hu'. right. exact H.
Qed.

Lemma forallb_not_char c w : forallb (not_char c) w = true <-> ~ In c w.
Proof.
  induction w as [|x w IH]; simpl.
  - split; [intros _ []|reflexivity].
  - rewrite andb_true_iff, IH. unfold not_char. rewrite negb_true_iff.
    split.
    + intros [Hx Hw] [E|E]; [subst; rewrite Ascii.eqb_refl in Hx; discriminate|exact (Hw E)].
    + intros H. split.
      * destruct (Ascii.eqb c x) eqn:E; [|reflexivity].
        apply Ascii.eqb_eq in E. exfalso. apply H. left. symmetry. exact E.
      * intros E. apply H. right. exact E.
Qed.

Lemma forallb_isspace_no (c : ascii) w :
  isspace c = false -> forallb isspace w = true -> ~ In c w.
Proof.
  intros Hc Hw Hin. rewrite forallb_forall in Hw. rewrite (Hw c Hin) in Hc. discriminate.
Qed.
Lemma group_next_link g w1 w2 q0 q1 :
  group NEXT_LINK (next_link_pieces g w1 w2 q0 q1) 1 = g.
Proof. reflexivity. Qed.

Lemma conforms_lit c w : conforms (One (lit c)) w -> w = [c].
Proof.
  intros [x [-> H]]. unfold lit in H. apply Ascii.eqb_eq in H. subst. reflexivity.
Qed.

Lemma conforms_opt_quote w : conforms (Opt quote) w -> is_quote_text w.
Proof.
  intros [->|[x [-> H]]]; [left; reflexivity|].
  unfold quote, either, lit in H. apply orb_true_iff in H as [H|H];
    apply Ascii.eqb_eq in H; subst; [right; left|right; right]; reflexivity.
Qed.

Lemma conforms_plus_not_char c w :
  conforms (Plus (not_char c)) w -> w <> [] /\ ~ In c w.
Proof. intros [H1 H2]. split; [exact H1|]. apply forallb_not_char. exact H2. Qed.

(** Every match of [NEXT_LINK] reads a link: the URL between angle
    brackets, a semicolon, and [rel=] with [next], quoted or not. *)
Lemma match_next_link_inv s ps rest :
  match_here NEXT_LINK s = Some (ps, rest) ->
  exists g w1 w2 q0 q1,
    ps = next_link_pieces g w1 w2 q0 q1
    /\ g <> [] /\ ~ In ">"%char g
    /\ forallb isspace w1 = true /\ forallb isspace w2 = true
    /\ is_quote_text q0 /\ is_quote_text q1
    /\ s = py "<" ++ g ++ py ">" ++ w1 ++ py ";" ++ w2 ++ py "rel=" ++ q0
           ++ py "next" ++ q1 ++ rest.
Proof.
  intros H. apply match_here_sound in H as [HF ->].
  unfold NEXT_LINK, lits in HF. cbn [py list_ascii_of_string map app] in HF.
  repeat match goal with
         | H : Forall2 _ (_ :: _) _ |- _ => inversion H; subst; clear H
         | H : Forall2 _ [] _ |- _ => inversion H; subst; clear H
         end.
  repeat match goal with
         | H : conforms (One (lit _)) _ |- _ => apply conforms_lit in H; subst
         | H : conforms (Opt quote) _ |- _ => apply conforms_opt_quote in H
         | H : conforms (Plus (not_char _)) _ |- _ => apply conforms_plus_not_char in H as [? ?]
         | H : conforms GOpen _ |- _ => simpl in H; subst
         | H : conforms GClose _ |- _ => simpl in H; subst
         | H : conforms (Star _) _ |- _ => simpl in H
         end.
  match goal with
  | |- exists _ _ _ _ _, [_; _; ?a; _; _; ?b; _; ?c; _; _; _; _; ?d; _; _; _; _; ?e] = _ /\ _ =>
      exists a, b, c, d, e
  end.
  repeat (split; [first [reflexivity | assumption]|]).
  cbn [concat py list_ascii_of_string app].
  app_norm. reflexivity.
Qed.
Lemma brackets_closed_spec s :
  brackets_closed s = true ->
  forall a b, s = a ++ "<"%char :: b -> In ">"%char b.
Proof.
  induction s as [|c s IH]; intros H a b E.
  - destruct a; discriminate.
  - simpl in H. apply andb_true_iff in H as [Hc Hs].
    destruct a as [|x a]; simpl in E; inversion E; subst.
    + rewrite Ascii.eqb_refl in Hc. apply existsb_exists in Hc as [y [Hy Ey]].
      apply Ascii.eqb_eq in Ey. subst. exact Hy.
    + apply (IH Hs a b eq_refl).
Qed.

Lemma prefix_without (c : ascii) (n v l r : pystr) :
  ~ In c n -> v ++ c :: l = n ++ r -> exists t, v = n ++ t.
Proof.
  revert v. induction n as [|x n IH]; intros v Hn E.
  - exists v. reflexivity.
  - destruct v as [|y v]; simpl in E; inversion E; subst.
    + exfalso. apply Hn. left. reflexivity.
    + destruct (IH v) as [t ->]; [|assumption|exists t; reflexivity].
      intros H. apply Hn. right. exact H.
Qed.

Lemma quote_text_no_lt q : is_quote_text q -> ~ In "<"%char q.
Proof.
  intros [->|[->| ->]]; simpl; intros H;
    repeat match goal with H : _ \/ _ |- _ => destruct H as [H|H] end;
    try discriminate; try contradiction.
Qed.

(** Inside a text of complete links none of which says [next], the
    pattern matches at no position. *)
Lemma no_match_before_link pre l :
  str_in (py "next") pre = false -> brackets_closed pre = true ->
  forall a b, pre = a ++ b -> b <> [] ->
    match_here NEXT_LINK (b ++ "<"%char :: l) = None.
Proof.
  intros Hnext Hclosed a b -> Hb.
  destruct (match_here NEXT_LINK (b ++ "<"%char :: l)) as [[ps rest]|] eqn:E; [|reflexivity].
  exfalso.
  apply match_next_link_inv in E
    as (g & w1 & w2 & q0 & q1 & _ & Hg & Hgt & Hw1 & Hw2 & Hq0 & Hq1 & E).
  destruct b as [|c b]; [congruence|]. cbn [py list_ascii_of_string app] in E.
  inversion E as [[Hc E']]. subst c. clear E.
  pose proof (brackets_closed_spec _ Hclosed a b eq_refl) as Hin.
  destruct (first_occurrence _ _ Hin) as [u [v [-> Hu]]].
  rewrite <- app_assoc in E'. cbn [app] in E'.
  destruct (first_occurrence_unique _ _ _ _ _ Hu Hgt E') as [-> E''].
  assert (Hn : ~ In "<"%char (w1 ++ py ";" ++ w2 ++ py "rel=" ++ q0 ++ py "next")).
  { intros H.
    repeat (apply in_app_or in H as [H|H]).
    - exact (forallb_isspace_no "<"%char _ eq_refl Hw1 H).
    - simpl in H. destruct H as [H|[]]; discriminate.
    - exact (forallb_isspace_no "<"%char _ eq_refl Hw2 H).
    - simpl in H. repeat destruct H as [H|H]; try discriminate; contradiction.
    - exact (quote_text_no_lt _ Hq0 H).
    - simpl in H. repeat destruct H as [H|H]; try discriminate; contradiction. }
  destruct (prefix_without "<"%char (w1 ++ py ";" ++ w2 ++ py "rel=" ++ q0 ++ py "next")
              v l (q1 ++ rest) Hn) as [t ->].
  { rewrite E''. cbn [py list_ascii_of_string app].
    app_norm. reflexivity. }
  assert (Hocc : occurs (py "next") (a ++ "<"%char :: g ++ ">"%char :: (w1 ++ py ";" ++ w2 ++ py "rel=" ++ q0 ++ py "next") ++ t)).
  { exists (a ++ "<"%char :: g ++ ">"%char :: w1 ++ py ";" ++ w2 ++ py "rel=" ++ q0), t.
    cbn [py list_ascii_of_string app].
    app_norm. reflexivity. }
  apply str_in_spec in Hocc. congruence.
Qed.

(** Soundness of [_get_next_page_url]: a URL it returns stands in the
    header between angle brackets, followed by a semicolon and by [rel=]
    with [next], quoted or not. *)
Lemma next_page_url_sound h u :
  _get_next_page_url (Some h) = Some u ->
  exists pre w1 w2 q rest,
    h = pre ++ py "<" ++ u ++ py ">" ++ w1 ++ py ";" ++ w2 ++ py "rel=" ++ q
        ++ py "next" ++ rest
    /\ u <> [] /\ ~ In ">"%char u
    /\ forallb isspace w1 = true /\ forallb isspace w2 = true /\ is_quote_text q.
Proof.
  unfold _get_next_page_url. destruct h as [|c h]; [discriminate|].
  destruct (re_search NEXT_LINK (c :: h)) as [[[pre ps] rest]|] eqn:E; [|discriminate].
  intros H. inversion H; subst. clear H.
  apply search_from_sound in E as [mid [-> [Eh Em]]].
  apply match_next_link_inv in Em
    as (g & w1 & w2 & q0 & q1 & -> & Hg & Hgt & Hw1 & Hw2 & Hq0 & Hq1 & Em).
  rewrite group_next_link.
  exists mid, w1, w2, q0, (q1 ++ rest).
  split; [rewrite Eh, Em; reflexivity|].
  repeat split; assumption.
Qed.

(** Completeness of [_get_next_page_url]: after complete links that do
    not say [next], the URL of the first next link is returned. *)
Lemma next_page_url_complete pre url ws1 ws2 q rest :
  str_in (py "next") pre = false -> brackets_closed pre = true ->
  url <> [] -> ~ In ">"%char url ->
  forallb isspace ws1 = true -> forallb isspace ws2 = true ->
  is_quote_text q ->
  _get_next_page_url
    (Some (pre ++ py "<" ++ url ++ py ">" ++ ws1 ++ py ";" ++ ws2 ++ py "rel=" ++ q
           ++ py "next" ++ rest))
  = Some url.
Proof.
  intros Hnext Hclosed Hne Hgt Hw1 Hw2 Hq.
  apply forallb_not_char in Hgt.
  destruct (match_next_link url ws1 ws2 q rest Hne Hgt Hw1 Hw2 Hq) as [q' [rest' E]].
  set (l := py "<" ++ url ++ py ">" ++ ws1 ++ py ";" ++ ws2 ++ py "rel=" ++ q
            ++ py "next" ++ rest) in *.
  assert (S : re_search NEXT_LINK (pre ++ l)
              = Some (pre, next_link_pieces url ws1 ws2 q q', rest')).
  { unfold re_search. rewrite search_from_skip.
    - assert (El : exists l', l = "<"%char :: l') by (eexists; reflexivity).
      destruct El as [l' El]. rewrite El in *. cbn [search_from].
      rewrite E, app_nil_r, rev_involutive. reflexivity.
    - intros a b Hab Hb. unfold l. cbn [py list_ascii_of_string app].
      apply (no_match_before_link pre _ Hnext Hclosed a b Hab Hb). }
  unfold _get_next_page_url. rewrite S, group_next_link.
  destruct (pre ++ l) eqn:El; [|reflexivity].
  apply app_eq_nil in El as [_ El]. discriminate.
Qed.

(** ** Lines *)

Lemma split_nonempty c s : split c s <> [].
Proof.
  destruct s as [|x s]; simpl; [discriminate|].
  destruct (Ascii.eqb x c); [discriminate|].
  destruct (split c s); discriminate.
Qed.

Lemma split_cons_other c x s :
  Ascii.eqb x c = false ->
  split c (x :: s) = (x :: hd [] (split c s)) :: tl (split c s).
Proof.
  intros H. simpl. rewrite H.
  destruct (split c s) eqn:E; [|reflexivity].
  exfalso. exact (split_nonempty c s E).
Qed.

Lemma len_split_pos c s : 1 <= len (split c s).
Proof.
  unfold len. pose proof (split_nonempty c s) as H.
  destruct (split c s); [congruence|]. simpl length. lia.
Qed.

(** The number of pieces is one more than the number of separators. *)
Lemma len_split_count c s :
  len (split c s) = 1 + len (List.filter (Ascii.eqb c) s).
Proof.
  unfold len. induction s as [|x s IH]; [reflexivity|].
  simpl. rewrite (Ascii.eqb_sym c x). destruct (Ascii.eqb x c) eqn:E.
  - simpl length. lia.
  - destruct (split c s) eqn:Es; [exfalso; exact (split_nonempty c s Es)|].
    simpl length in *. lia.
Qed.


Lemma split_clean c w : ~ In c w -> split c w = [w].
Proof.
  induction w as [|x w IH]; intros H; [reflexivity|].
  simpl. destruct (Ascii.eqb x c) eqn:E.
  - apply Ascii.eqb_eq in E. subst. exfalso. apply H. left. reflexivity.
  - rewrite IH; [reflexivity|]. intros Hin. apply H. right. exact Hin.
Qed.

(** Splitting at a separator splits the list of pieces. *)
Lemma split_app c a b : split c (a ++ c :: b) = split c a ++ split c b.
Proof.
  induction a as [|x a IH]; simpl.
  - rewrite Ascii.eqb_refl. reflexivity.
  - destruct (Ascii.eqb x c); [rewrite IH; reflexivity|].
    rewrite IH. destruct (split c a) eqn:E; [exfalso; exact (split_nonempty c a E)|].
    reflexivity.
Qed.

Lemma split_first_line c h b :
  ~ In c h -> split c (h ++ c :: b) = h :: split c b.
Proof. intros H. rewrite split_app, (split_clean c h H). reflexivity. Qed.



(** ** Stripping *)

Lemma drop_while_all p x s :
  forallb p x = true -> drop_while p (x ++ s) = drop_while p s.
Proof.
  induction x as [|c x IH]; intros H; [reflexivity|].
  simpl in *. apply andb_true_iff in H as [Hc Hx]. rewrite Hc. apply IH. exact Hx.
Qed.

Lemma drop_while_stops p s : stops p s -> drop_while p s = s.
Proof. destruct s as [|c s]; simpl; [reflexivity|]. intros ->. reflexivity. Qed.

(** Stripping [x ++ m ++ y], where [x] and [y] are strippable and [m]
    neither starts nor ends with a strippable character, leaves [m]. *)
Lemma strip_with_core p x m y :
  forallb p x = true -> forallb p y = true ->
  stops p m -> stops p (rev m) ->
  strip_with p (x ++ m ++ y) = m.
Proof.
  intros Hx Hy Hm Hr. unfold strip_with, lstrip_with, rstrip_with.
  rewrite drop_while_all by assumption.
  destruct m as [|c m].
  - simpl. assert (E : drop_while p y = []).
    { rewrite <- (app_nil_r y). rewrite drop_while_all by assumption. reflexivity. }
    rewrite E. reflexivity.
  - assert (E : drop_while p ((c :: m) ++ y) = (c :: m) ++ y).
    { apply drop_while_stops. exact Hm. }
    rewrite E, rev_app_distr, drop_while_all.
    + rewrite drop_while_stops by exact Hr. apply rev_involutive.
    + rewrite forallb_forall in *. intros a Ha. apply Hy. apply in_rev. exact Ha.
Qed.

Lemma strip_blank s : forallb isspace s = true -> strip s = [].
Proof.
  intros H. rewrite <- (app_nil_r s). change [] with (@nil ascii ++ []) at 1.
  apply (strip_with_core isspace s [] []); [exact H|reflexivity|exact I|exact I].
Qed.

Lemma drop_while_nil_all p s : drop_while p s = [] -> forallb p s = true.
Proof.
  induction s as [|c s IH]; [reflexivity|]. simpl.
  destruct (p c); [exact IH|discriminate].
Qed.

(** A body strips to nothing exactly when it is blank. *)
Lemma strip_nil_iff s : strip s = [] <-> forallb isspace s = true.
Proof.
  split; [|apply strip_blank].
  unfold strip, strip_with, rstrip_with, lstrip_with. intros H.
  assert (H1 : drop_while isspace (rev (drop_while isspace s)) = []).
  { destruct (drop_while isspace (rev (drop_while isspace s))) eqn:E; [reflexivity|].
    simpl in H. destruct (rev l); discriminate. }
  apply drop_while_nil_all in H1.
  assert (H2 : forallb isspace (drop_while isspace s) = true).
  { rewrite forallb_forall in *. intros a Ha. apply H1. apply in_rev in Ha. exact Ha. }
  clear H H1. induction s as [|c s IH]; [reflexivity|].
  simpl in *. destruct (isspace c) eqn:Ec; [apply IH; exact H2|].
  simpl in H2. rewrite Ec in H2. discriminate.
Qed.

(** ** The world *)

Lemma http_get_ok srv rq w r :
  srv rq = Reply r -> is_error_status r = false ->
  http_get srv rq w = (inr r, World (files w) (log w) (sent w ++ [rq])).
Proof. intros H1 H2. unfold http_get. rewrite H1, H2. reflexivity. Qed.


Lemma http_get_sent srv rq w o w' :
  http_get srv rq w = (o, w') ->
  sent w' = sent w ++ [rq] /\ files w' = files w /\ log w' = log w.
Proof.
  unfold http_get. destruct (srv rq) as [|r]; [|destruct (is_error_status r)];
    intros H; inversion H; subst; repeat split.
Qed.

Lemma http_get_inr srv rq w r w' :
  http_get srv rq w = (inr r, w') -> srv rq = Reply r /\ is_error_status r = false.
Proof.
  unfold http_get. destruct (srv rq) as [|r0]; [discriminate|].
  destruct (is_error_status r0) eqn:E; intros H; inversion H; subst.
  split; [reflexivity|exact E].
Qed.

Lemma http_get_inl srv rq w e w' :
  http_get srv rq w = (inl e, w') -> transport_failed srv rq.
Proof.
  unfold http_get, transport_failed. destruct (srv rq) as [|r0]; [intros _; exact I|].
  destruct (is_error_status r0) eqn:E; intros H; inversion H; subst. reflexivity.
Qed.

Lemma next_page_debug_same l w :
  files (next_page_debug l w) = files w /\ sent (next_page_debug l w) = sent w.
Proof.
  unfold next_page_debug. destruct l as [[|c h]|]; try (split; reflexivity).
  destruct (_get_next_page_url (Some (c :: h))); split; reflexivity.
Qed.

Lemma content_write path data w :
  content path (write path data w) = content path w ++ data.
Proof. unfold content, write. simpl. rewrite lookup_insert_eq. reflexivity. Qed.


(** ** One page of the text-merge *)

(** The count of a page is [page_records] of its body, whatever its
    number: the lines of the stripped body, less one, and never negative. *)
Lemma merge_page_count path page_count content0 w :
  snd (merge_page path page_count content0 w) = page_records content0
  /\ 0 <= page_records content0.
Proof.
  unfold merge_page, page_records.
  pose proof (len_split_pos NL (strip content0)) as H.
  split; [|lia].
  destruct (page_count =? 1); [reflexivity|].
  destruct (1 <? len (split NL (strip content0))) eqn:E; [reflexivity|].
  apply Z.ltb_ge in E. simpl. lia.
Qed.



(** ** The text-merge loop on a chain *)



Lemma next_page_url_truthy l u :
  _get_next_page_url l = Some u -> truthy_str u = true.
Proof.
  destruct l as [h|]; [|discriminate]. intros H.
  apply next_page_url_sound in H as (_ & _ & _ & _ & _ & _ & Hu & _).
  destruct u; [congruence|reflexivity].
Qed.


(** ** Chains *)

Section Chains.
Variable srv : server.
Variable mk : pystr -> request.
Variable next : option pystr -> option pystr.





End Chains.

(** ** [download_table_csv] on a chain *)


(** ** The structured-merge loop *)

Section ExportFacts.
Variable cell : Type.
Variable read_csv : pystr -> option (list (pystr * list (option cell))).
Variable srv : server.
Variable api_token table_name : pystr.

Lemma page_ids_spec response_text w :
  fst (page_ids cell read_csv table_name response_text w)
  = ids_of_page read_csv table_name response_text
  /\ files (snd (page_ids cell read_csv table_name response_text w)) = files w
  /\ sent (snd (page_ids cell read_csv table_name response_text w)) = sent w.
Proof.
  unfold page_ids, ids_of_page. destruct (read_csv response_text) as [df|]; [|tauto].
  destruct (has_column cell _ df); [tauto|].
  destruct (columns cell df); tauto.
Qed.





Lemma http_get_fst rq w1 w2 : fst (http_get srv rq w1) = fst (http_get srv rq w2).
Proof.
  unfold http_get. destruct (srv rq) as [|r]; [reflexivity|].
  destruct (is_error_status r); reflexivity.
Qed.

(** The ids fetched do not depend on the world the run starts in. *)
Lemma fetch_ids_loop_world :
  forall fuel url all_ids page_number w1 w2,
    option_map fst
      (fetch_ids_loop cell read_csv fuel srv api_token table_name url all_ids page_number w1)
    = option_map fst
        (fetch_ids_loop cell read_csv fuel srv api_token table_name url all_ids page_number w2).
Proof.
  induction fuel as [|fuel IH]; intros url all_ids pn w1 w2; [reflexivity|].
  cbn [fetch_ids_loop]. destruct (truthy_url url); [|reflexivity].
  set (rq := json_request api_token (default [] url) None).
  pose proof (http_get_fst rq w1 w2) as HG.
  destruct (http_get srv rq w1) as [o1 v1], (http_get srv rq w2) as [o2 v2].
  cbn [fst] in HG. subst o2. destruct o1 as [e|r]; [reflexivity|].
  destruct (negb (truthy_str (strip (text r)))); [reflexivity|].
  destruct (page_ids_spec (text r) v1) as (H1 & _ & _).
  destruct (page_ids_spec (text r) v2) as (H2 & _ & _).
  destruct (page_ids cell read_csv table_name (text r) v1) as [o1 v1'],
           (page_ids cell read_csv table_name (text r) v2) as [o2 v2'].
  cbn [fst] in H1, H2. rewrite <- H2 in H1. subst o2.
  destruct o1 as [ids|]; [apply IH|reflexivity].
Qed.

End ExportFacts.

(** ** Prospects *)

Lemma is_prospect_spec a :
  is_prospect a = true
  <-> record_type a = Some (JStr (py "Prospect"))
      /\ exists v, record_id a = Some v /\ truthy v = true.
Proof.
  unfold is_prospect. rewrite andb_true_iff, bool_decide_eq_true.
  destruct a as [[t|] [i|]]; cbn [record_type record_id dict_get truthy]; split.
  - intros [-> H]. split; [reflexivity|]. exists i. split; [reflexivity|exact H].
  - intros [E [v [Ev H]]]. inversion E; inversion Ev; subst. split; [reflexivity|exact H].
  - intros [_ H]. discriminate.
  - intros [_ [v [Ev _]]]. discriminate.
  - intros [H _]. discriminate.
  - intros [E _]. discriminate.
  - intros [H _]. discriminate.
  - intros [E _]. discriminate.
Qed.

Lemma add_prospects_spec activities :
  forall (prospect_ids : gset jvalue) x,
    x ∈ add_prospects activities prospect_ids
    <-> x ∈ prospect_ids
        \/ exists a, In a activities /\ is_prospect a = true
                     /\ dict_get (record_id a) = x.
Proof.
  induction activities as [|a rest IH]; intros ids x; cbn [add_prospects].
  - split; [intros H; left; exact H|]. intros [H|[a [[] _]]]. exact H.
  - rewrite IH. destruct (is_prospect a) eqn:Ea.
    + rewrite elem_of_union, elem_of_singleton. split.
      * intros [[H|H]|[b [Hb H]]].
        -- left. exact H.
        -- right. exists a. split; [left; reflexivity|]. split; [exact Ea|symmetry; exact H].
        -- right. exists b. split; [right; exact Hb|exact H].
      * intros [H|[b [[Hb|Hb] [H1 H2]]]].
        -- left. left. exact H.
        -- subst b. left. right. symmetry. exact H2.
        -- right. exists b. split; [exact Hb|]. split; assumption.
    + split.
      * intros [H|[b [Hb H]]]; [left; exact H|].
        right. exists b. split; [right; exact Hb|exact H].
      * intros [H|[b [[Hb|Hb] [H1 H2]]]]; [left; exact H| |].
        -- subst b. congruence.
        -- right. exists b. split; [exact Hb|]. split; assumption.
Qed.

Lemma collected_more srv reqs new x :
  collected srv reqs x -> collected srv (reqs ++ new) x.
Proof.
  intros [Ht (rq & r & acts & a & Hin & H)]. split; [exact Ht|].
  exists rq, r, acts, a. split; [apply in_or_app; left; exact Hin|exact H].
Qed.

(** Whatever the run, an id of the set is truthy and was read from a
    prospect activity of a page fetched by the run. *)
Lemma prospects_loop_sound srv api_token :
  forall fuel url params page_number (prospect_ids : gset jvalue) w ids' w',
    prospects_loop fuel srv api_token url params page_number prospect_ids w
    = Some (ids', w') ->
    exists new,
      sent w' = sent w ++ new
      /\ forall base,
           (forall x, x ∈ prospect_ids -> collected srv base x) ->
           forall x, x ∈ ids' -> collected srv (base ++ new) x.
Proof.
  induction fuel as [|fuel IH]; intros url params pn ids w ids' w' H; [discriminate|].
  cbn [prospects_loop] in H. destruct (truthy_url url).
  - set (rq := json_request api_token (default [] url) params) in *.
    destruct (http_get srv rq w) as [[e|r] w0] eqn:EG.
    + inversion H; subst. apply http_get_sent in EG as (Hs & _ & _).
      exists [rq]. split; [exact Hs|].
      intros base Hinv x Hx. apply collected_more, Hinv, Hx.
    + pose proof (http_get_inr _ _ _ _ _ EG) as [Hr He].
      apply http_get_sent in EG as (Hs & _ & _).
      destruct (json r) as [[|a acts]|] eqn:EJ.
      * inversion H; subst. exists [rq]. split; [exact Hs|].
        intros base Hinv x Hx. apply collected_more, Hinv, Hx.
      * assert (Hinv' : forall base,
                   (forall x, x ∈ ids -> collected srv base x) ->
                   forall x, x ∈ add_prospects (a :: acts) ids ->
                             collected srv (base ++ [rq]) x).
        { intros base Hinv x Hx.
          apply add_prospects_spec in Hx as [Hx|[b [Hb [Hp Hid]]]].
          - apply collected_more, Hinv, Hx.
          - apply is_prospect_spec in Hp as [Ht [v [Ev Hv]]].
            rewrite Ev in Hid. cbn [dict_get] in Hid. subst v.
            split; [exact Hv|]. exists rq, r, (a :: acts), b.
            split; [apply in_or_app; right; left; reflexivity|].
            repeat split; assumption. }
        destruct (prospects_next_url (link r)) as [u|].
        -- apply IH in H as (new & Hnew & Hcol). cbn [sent logging] in Hnew.
           exists (rq :: new). split; [rewrite Hnew, Hs, <- app_assoc; reflexivity|].
           intros base Hinv x Hx.
           change (base ++ rq :: new) with (base ++ [rq] ++ new). rewrite app_assoc.
           apply (Hcol (base ++ [rq]) (Hinv' base Hinv) x Hx).
        -- inversion H; subst. exists [rq]. split; [exact Hs|]. exact Hinv'.
      * inversion H; subst. exists [rq]. split; [exact Hs|].
        intros base Hinv x Hx. apply collected_more, Hinv, Hx.
  - inversion H; subst. exists []. split; [rewrite app_nil_r; reflexivity|].
    intros base Hinv x Hx. rewrite app_nil_r. apply Hinv, Hx.
Qed.

(** The set of ids does not depend on the world the run starts in. *)
Lemma prospects_loop_world srv api_token :
  forall fuel url params page_number (prospect_ids : gset jvalue) w1 w2,
    option_map fst
      (prospects_loop fuel srv api_token url params page_number prospect_ids w1)
    = option_map fst
        (prospects_loop fuel srv api_token url params page_number prospect_ids w2).
Proof.
  induction fuel as [|fuel IH]; intros url params pn ids w1 w2; [reflexivity|].
  cbn [prospects_loop]. destruct (truthy_url url); [|reflexivity].
  set (rq := json_request api_token (default [] url) params).
  pose proof (http_get_fst srv rq w1 w2) as HG.
  destruct (http_get srv rq w1) as [o1 v1], (http_get srv rq w2) as [o2 v2].
  cbn [fst] in HG. subst o2. destruct o1 as [e|r]; [reflexivity|].
  destruct (json r) as [[|a acts]|]; try reflexivity.
  destruct (prospects_next_url (link r)); [apply IH|reflexivity].
Qed.

(** ** Runs and the world they start in *)

Lemma merge_page_content path page_count content0 w :
  content path (fst (merge_page path page_count content0 w))
  = content path w ++ chunk page_count content0.
Proof.
  unfold merge_page, chunk, later_page_text.
  destruct (page_count =? 1); [apply content_write|].
  destruct (1 <? len (split NL (strip content0))); cbn [fst].
  - apply content_write.
  - rewrite app_nil_r. reflexivity.
Qed.

Lemma content_files path w w' : files w' = files w -> content path w' = content path w.
Proof. unfold content. intros ->. reflexivity. Qed.

(** The outcome of the loop and the text it adds to the file depend on
    the server only. *)
Lemma download_pages_world srv key path :
  forall fuel url page_count total w1 w2 o w1',
    download_pages fuel srv key path url page_count total w1 = Some (o, w1') ->
    exists w2' data,
      download_pages fuel srv key path url page_count total w2 = Some (o, w2')
      /\ content path w1' = content path w1 ++ data
      /\ content path w2' = content path w2 ++ data.
Proof.
  induction fuel as [|fuel IH]; intros url pc total w1 w2 o w1' H; [discriminate|].
  cbn [download_pages] in *.
  destruct url as [u|];
    [|inversion H; subst; exists w2, []; rewrite !app_nil_r; repeat split].
  destruct (truthy_str u);
    [|inversion H; subst; exists w2, []; rewrite !app_nil_r; repeat split].
  set (rq := csv_request key u) in *.
  set (v1 := logging INFO (DownloadingPage (pc + 1) u) w1) in *.
  set (v2 := logging INFO (DownloadingPage (pc + 1) u) w2) in *.
  pose proof (http_get_fst srv rq v1 v2) as HG.
  destruct (http_get srv rq v1) as [o1 x1] eqn:E1, (http_get srv rq v2) as [o2 x2] eqn:E2.
  cbn [fst] in HG. subst o2.
  apply http_get_sent in E1 as (_ & F1 & _). apply http_get_sent in E2 as (_ & F2 & _).
  destruct o1 as [e|r].
  - inversion H; subst. exists x2, []. rewrite !app_nil_r.
    split; [reflexivity|]. split; apply content_files; assumption.
  - pose proof (merge_page_count path (pc + 1) (text r) x1) as [C1 _].
    pose proof (merge_page_count path (pc + 1) (text r) x2) as [C2 _].
    pose proof (merge_page_content path (pc + 1) (text r) x1) as M1.
    pose proof (merge_page_content path (pc + 1) (text r) x2) as M2.
    destruct (merge_page path (pc + 1) (text r) x1) as [y1 n1],
             (merge_page path (pc + 1) (text r) x2) as [y2 n2].
    cbn [fst snd] in *. subst n1 n2.
    set (z1 := next_page_debug (link r) (logging INFO (PageRecords (pc + 1) (page_records (text r))) y1)) in *.
    set (z2 := next_page_debug (link r) (logging INFO (PageRecords (pc + 1) (page_records (text r))) y2)) in *.
    assert (Z1 : content path z1 = content path w1 ++ chunk (pc + 1) (text r)).
    { unfold z1. rewrite (content_files path _ _ (proj1 (next_page_debug_same _ _))).
      change (content path y1 = content path w1 ++ chunk (pc + 1) (text r)).
      rewrite M1. f_equal. apply content_files. exact F1. }
    assert (Z2 : content path z2 = content path w2 ++ chunk (pc + 1) (text r)).
    { unfold z2. rewrite (content_files path _ _ (proj1 (next_page_debug_same _ _))).
      change (content path y2 = content path w2 ++ chunk (pc + 1) (text r)).
      rewrite M2. f_equal. apply content_files. exact F2. }
    destruct (truthy_url (_get_next_page_url (link r))).
    + destruct (IH _ _ _ z1 z2 _ _ H) as (w2' & data & Hrun & D1 & D2).
      exists w2', (chunk (pc + 1) (text r) ++ data).
      split; [exact Hrun|]. rewrite D1, D2, Z1, Z2, <- !app_assoc. split; reflexivity.
    + inversion H; subst. exists (logging INFO NoMorePages z2), (chunk (pc + 1) (text r)).
      split; [reflexivity|]. split; assumption.
Qed.

Lemma content_open_w path w : content path (open_w path w) = [].
Proof. unfold content, open_w. cbn [files]. rewrite lookup_insert_eq. reflexivity. Qed.

(** A run of [download_table_csv] returns the same value and leaves the
    same file from whatever world it starts. *)
Lemma download_table_csv_world fuel srv table_name key temp_dir w1 w2 res w1' :
  download_table_csv fuel srv table_name key temp_dir w1 = Some (res, w1') ->
  exists w2',
    download_table_csv fuel srv table_name key temp_dir w2 = Some (res, w2')
    /\ content (path_join temp_dir (table_name ++ py ".csv")) w2'
       = content (path_join temp_dir (table_name ++ py ".csv")) w1'.
Proof.
  unfold download_table_csv.
  set (path := path_join temp_dir (table_name ++ py ".csv")).
  set (v1 := open_w path (logging INFO (StartingDownload table_name) w1)).
  set (v2 := open_w path (logging INFO (StartingDownload table_name) w2)).
  destruct (download_pages fuel srv key path (Some (csv_base_url table_name)) 0 0 v1)
    as [[o x1]|] eqn:E; [|discriminate].
  destruct (download_pages_world srv key path _ _ _ _ v1 v2 _ _ E)
    as (x2 & data & Hrun & D1 & D2).
  rewrite Hrun. unfold v1 in D1. unfold v2 in D2. rewrite content_open_w in D1, D2.
  destruct o as [e|total].
  - destruct e as [|r]; intros H; inversion H; subst; eexists;
      (split; [reflexivity|]); unfold content in *; cbn [files logging] in *; congruence.
  - intros H; inversion H; subst. eexists. split; [reflexivity|].
    unfold content in *; cbn [files logging] in *; congruence.
Qed.

(** ** The lines of the assembled text *)




(** ** [fetch_all_ids_from_api] on a chain *)



Lemma str_eqb_spec a b : str_eqb a b = true <-> a = b.
Proof.
  revert b. induction a as [|x a IH]; intros [|y b]; simpl; split; try discriminate;
    try reflexivity.
  - rewrite andb_true_iff, Ascii.eqb_eq, IH. intros [-> ->]. reflexivity.
  - intros E. inversion E; subst. rewrite andb_true_iff, Ascii.eqb_eq, IH. split; reflexivity.
Qed.

Lemma has_column_spec (cell : Type) name (df : list (pystr * list (option cell))) :
  has_column cell name df = true <-> In name (columns cell df).
Proof.
  unfold has_column. rewrite existsb_exists. split.
  - intros [c [Hc E]]. apply str_eqb_spec in E. subst. exact Hc.
  - intros H. exists name. split; [exact H|]. apply str_eqb_spec. reflexivity.
Qed.

(** The values of a column keep the order of its cells. *)
Lemma column_values_first (cell : Type) name cells (rest : list (pystr * list (option cell))) :
  column_values cell name ((name, cells) :: rest) = omap id cells.
Proof.
  cbn [column_values]. replace (str_eqb name name) with true; [reflexivity|].
  symmetry. apply str_eqb_spec. reflexivity.
Qed.

(** ** Table names *)

Lemma lower_char_not_upper c : is_upper_az (lower_char c) = false.
Proof. destruct c as [[] [] [] [] [] [] [] []]; reflexivity. Qed.

(** No capital letter A-Z is left in a snake-case name. *)
Lemma to_snake_case_lowercase name :
  forallb (fun c => negb (is_upper_az c)) (to_snake_case name) = true.
Proof.
  unfold to_snake_case, lower. apply forallb_forall. intros c Hc.
  apply in_map_iff in Hc as [x [<- _]]. rewrite lower_char_not_upper. reflexivity.
Qed.


(** ** Single rounds of the loops *)


(** ** The inline extraction of [fetch_all_ids_from_api] *)

Lemma stops_not_in (chars : pystr) (s : pystr) :
  (forall c, In c chars -> ~ In c s) -> stops (char_in chars) s.
Proof.
  destruct s as [|x s]; [intros _; exact I|]. intros H. cbn [stops].
  unfold char_in. destruct (existsb (Ascii.eqb x) chars) eqn:E; [|reflexivity].
  apply existsb_exists in E as [y [Hy Exy]]. apply Ascii.eqb_eq in Exy. subst y.
  exfalso. apply (H x Hy). left. reflexivity.
Qed.

Lemma export_next_url_link url ws rest :
  ~ In "<"%char url -> ~ In ">"%char url -> ~ In ";"%char url ->
  export_next_url (Some (py "<" ++ url ++ py ">;" ++ ws ++ REL_NEXT ++ rest)) = Some url.
Proof.
  intros Hlt Hgt Hsc. unfold export_next_url.
  assert (Hin : str_in REL_NEXT (py "<" ++ url ++ py ">;" ++ ws ++ REL_NEXT ++ rest) = true).
  { apply str_in_spec. exists (py "<" ++ url ++ py ">;" ++ ws), rest.
    app_norm. reflexivity. }
  rewrite Hin. f_equal.
  assert (E : py "<" ++ url ++ py ">;" ++ ws ++ REL_NEXT ++ rest
              = ("<"%char :: url ++ [">"%char]) ++ ";"%char :: (ws ++ REL_NEXT ++ rest)).
  { cbn [py list_ascii_of_string app]. rewrite <- app_assoc. reflexivity. }
  rewrite E. clear E.
  rewrite split_first_line.
  - cbn [hd]. unfold strip_chars.
    apply (strip_with_core (char_in (py "<>")) (py "<") url (py ">")); try reflexivity.
    + apply stops_not_in. intros c [<-|[<-|[]]]; assumption.
    + apply stops_not_in. intros c Hc Hr. apply in_rev in Hr.
      destruct Hc as [<-|[<-|[]]]; auto.
  - intros [H|H]; [discriminate|]. apply in_app_or in H as [H|[H|[]]]; [auto|discriminate].
Qed.

Lemma export_next_url_none h :
  str_in REL_NEXT h = false -> export_next_url (Some h) = None.
Proof. intros H. unfold export_next_url. rewrite H. reflexivity. Qed.

Lemma next_page_url_needs_next h :
  str_in (py "next") h = false -> _get_next_page_url (Some h) = None.
Proof.
  intros H. destruct (_get_next_page_url (Some h)) as [u|] eqn:E; [|reflexivity].
  apply next_page_url_sound in E as (pre & w1 & w2 & q & rest & -> & _).
  assert (Ho : occurs (py "next")
                 (pre ++ py "<" ++ u ++ py ">" ++ w1 ++ py ";" ++ w2 ++ py "rel=" ++ q
                  ++ py "next" ++ rest)).
  { exists (pre ++ py "<" ++ u ++ py ">" ++ w1 ++ py ";" ++ w2 ++ py "rel=" ++ q), rest.
    app_norm. reflexivity. }
  apply str_in_spec in Ho. congruence.
Qed.

Lemma prospects_loop_empty_page fuel srv api_token u params page_number
  (prospect_ids : gset jvalue) w r :
  truthy_str u = true ->
  srv (json_request api_token u params) = Reply r ->
  is_error_status r = false ->
  json r = Some [] ->
  prospects_loop (S fuel) srv api_token (Some u) params page_number prospect_ids w
  = Some (prospect_ids,
          logging INFO (NoMoreActivities page_number)
            (World (files w) (log w) (sent w ++ [json_request api_token u params]))).
Proof.
  intros Hu Hs He Hj. cbn [prospects_loop truthy_url from_option id]. rewrite Hu.
  rewrite (http_get_ok _ _ _ _ Hs He), Hj. reflexivity.
Qed.

Lemma fetch_ids_loop_blank_page (cell : Type)
  (read_csv : pystr -> option (list (pystr * list (option cell))))
  fuel srv api_token table_name u all_ids page_number w r :
  truthy_str u = true ->
  srv (json_request api_token u None) = Reply r ->
  is_error_status r = false ->
  forallb isspace (text r) = true ->
  fetch_ids_loop cell read_csv (S fuel) srv api_token table_name (Some u) all_ids
    page_number w
  = Some ([],
          logging ERROR (EmptyResponse table_name)
            (World (files w) (log w) (sent w ++ [json_request api_token u None]))).
Proof.
  intros Hu Hs He Hb. cbn [fetch_ids_loop truthy_url from_option id]. rewrite Hu.
  rewrite (http_get_ok _ _ _ _ Hs He), (strip_blank _ Hb). reflexivity.
Qed.

Lemma merge_page_blank path page_count content0 w :
  forallb isspace content0 = true ->
  merge_page path page_count content0 w
  = if page_count =? 1 then (write path content0 w, 0) else (w, 0).
Proof.
  intros Hb. unfold merge_page. rewrite (strip_blank _ Hb).
  destruct (page_count =? 1); reflexivity.
Qed.

Lemma download_pages_blank_page fuel srv key path u page_count total w r u' :
  truthy_str u = true ->
  srv (csv_request key u) = Reply r ->
  is_error_status r = false ->
  forallb isspace (text r) = true ->
  _get_next_page_url (link r) = Some u' ->
  exists w1,
    download_pages (S fuel) srv key path (Some u) page_count total w
    = download_pages fuel srv key path (Some u') (page_count + 1) total w1
    /\ sent w1 = sent w ++ [csv_request key u].
Proof.
  intros Hu Hs He Hb Hn. cbn [download_pages]. rewrite Hu.
  rewrite (http_get_ok _ _ _ _ Hs He), (merge_page_blank _ _ _ _ Hb), Hn.
  cbn [truthy_url]. rewrite (next_page_url_truthy _ _ Hn).
  destruct (page_count + 1 =? 1); rewrite Z.add_0_r; eexists; (split; [reflexivity|]);
    rewrite (proj2 (next_page_debug_same _ _)); reflexivity.
Qed.



Lemma later_page_text_header_only content0 :
  ~ In NL (strip content0) -> later_page_text content0 = [].
Proof.
  intros H. unfold later_page_text. rewrite (split_clean NL _ H). reflexivity.
Qed.

Lemma merge_page_header_only path page_count content0 w :
  page_count <> 1 -> ~ In NL (strip content0) ->
  merge_page path page_count content0 w = (w, 0).
Proof.
  intros Hp Hn. unfold merge_page.
  destruct (page_count =? 1) eqn:E; [apply Z.eqb_eq in E; contradiction|].
  rewrite (split_clean NL _ Hn). reflexivity.
Qed.

Lemma option_map_fst_some {A B : Type} (o1 o2 : option (A * B)) a b :
  option_map fst o1 = option_map fst o2 -> o1 = Some (a, b) ->
  exists b', o2 = Some (a, b').
Proof.
  intros E ->. destruct o2 as [[a' b']|]; [|discriminate].
  cbn in E. inversion E; subst. exists b'. reflexivity.
Qed.

Lemma fetch_prospect_ids_sound fuel srv api_token records_per_page w ids w' :
  fetch_prospect_ids_from_activities fuel srv api_token records_per_page w
  = Some (ids, w') ->
  exists new,
    sent w' = sent w ++ new /\ forall x, In x ids -> collected srv new x.
Proof.
  unfold fetch_prospect_ids_from_activities.
  destruct (prospects_loop _ _ _ _ _ _ _ _) as [[s v]|] eqn:E; [|discriminate].
  intros H. inversion H; subst. clear H.
  apply prospects_loop_sound in E as (new & Hnew & Hcol).
  exists new. split; [exact Hnew|].
  intros x Hx. apply (Hcol [] ltac:(intros y Hy; apply not_elem_of_empty in Hy; contradiction)).
  apply elem_of_elements, list_elem_of_In. exact Hx.
Qed.

(** * The claims *)




(** C2, as stated, fails on the inline extraction of
    [fetch_all_ids_from_api]: with single quotes around next it finds no
    next URL, where [_get_next_page_url] returns it. *)
Lemma C2_single_quotes_counterexample :
  export_next_url (Some single_quoted_link) = None
  /\ _get_next_page_url (Some single_quoted_link) = Some (py "https://x/y?cursor=abc").
Proof. split; vm_compute; reflexivity. Qed.

(** C2 (amended). [_get_next_page_url] returns the URL of the first link
    of the header that reads [<URL>], optional whitespace, [;], optional
    whitespace, [rel=] and [next] in double quotes, single quotes or none,
    when the text before it is made of complete links without [next];
    every URL it returns stands in the header in that form; it returns
    [None] for an absent header, an empty header and a header without
    [next]. The inline extraction of [fetch_all_ids_from_api] follows a
    link only when the header holds the double-quoted token [rel=], quote,
    [next], quote; from a header that starts with [<URL>;] followed by
    that token it returns the URL. *)
Theorem C2_cursor_extractor :
  (forall pre url ws1 ws2 q rest,
      str_in (py "next") pre = false -> brackets_closed pre = true ->
      url <> [] -> ~ In ">"%char url ->
      forallb isspace ws1 = true -> forallb isspace ws2 = true ->
      is_quote_text q ->
      _get_next_page_url
        (Some (pre ++ py "<" ++ url ++ py ">" ++ ws1 ++ py ";" ++ ws2 ++ py "rel=" ++ q
               ++ py "next" ++ rest))
      = Some url)
  /\ (forall h u,
        _get_next_page_url (Some h) = Some u ->
        exists pre w1 w2 q rest,
          h = pre ++ py "<" ++ u ++ py ">" ++ w1 ++ py ";" ++ w2 ++ py "rel=" ++ q
              ++ py "next" ++ rest
          /\ u <> [] /\ ~ In ">"%char u
          /\ forallb isspace w1 = true /\ forallb isspace w2 = true
          /\ is_quote_text q)
  /\ _get_next_page_url None = None
  /\ _get_next_page_url (Some []) = None
  /\ (forall h, str_in (py "next") h = false -> _get_next_page_url (Some h) = None)
  /\ (forall url ws rest,
        ~ In "<"%char url -> ~ In ">"%char url -> ~ In ";"%char url ->
        export_next_url (Some (py "<" ++ url ++ py ">;" ++ ws ++ REL_NEXT ++ rest))
        = Some url)
  /\ (forall h, str_in REL_NEXT h = false -> export_next_url (Some h) = None)
  /\ export_next_url None = None.
Proof.
  split; [exact next_page_url_complete|].
  split; [exact next_page_url_sound|].
  split; [reflexivity|]. split; [reflexivity|].
  split; [exact next_page_url_needs_next|].
  split; [exact export_next_url_link|].
  split; [exact export_next_url_none|reflexivity].
Qed.

(** A header of two links, the second one next in single quotes with
    spaces around the semicolon. *)
Lemma C2_cursor_extractor_witness :
  _get_next_page_url
    (Some (py "<https://x/p>; rel=prev, <https://x/y?cursor=abc> ;  rel='next'"))
  = Some (py "https://x/y?cursor=abc").
Proof.
  apply (proj1 C2_cursor_extractor
           (py "<https://x/p>; rel=prev, ") (py "https://x/y?cursor=abc")
           (py " ") (py "  ") [SQUOTE] [SQUOTE]).
  - reflexivity.
  - reflexivity.
  - discriminate.
  - apply forallb_not_char. reflexivity.
  - reflexivity.
  - reflexivity.
  - right. right. reflexivity.
Defined.

(** C3, as stated, fails on [fetch_all_ids_from_api]: the first page
    yields the ids 1 and 2, the second page is empty, and the fetch logs an
    error and returns the empty list. *)
Lemma C3_empty_later_page_counterexample :
  option_map (fun res : list pystr * world => (fst res, last (log (snd res))))
    (fetch_all_ids_from_api pystr one_column_csv 10 empty_second_page (py "token")
       (py "Units") 10000 empty_world)
  = Some ([], Some (ERROR, EmptyResponse (py "Units")))
  /\ ids_of_page one_column_csv (py "Units") (py "units.id" ++ [NL] ++ py "1" ++ [NL] ++ py "2")
     = Some [py "1"; py "2"].
Proof. split; vm_compute; reflexivity. Qed.

(** C3 (amended). In [fetch_prospect_ids_from_activities] an empty page,
    the first or a later one, ends the loop without an error and the ids
    collected so far are kept. In [fetch_all_ids_from_api] a blank page
    body, at any position, is logged as an error and the fetch returns the
    empty list. In [download_table_csv] a blank body is no stop: it counts
    zero records, page 1 is written as it is, a later page adds nothing
    to the file, and the loop goes on to the URL of the Link header. *)
Theorem C3_empty_page_policy :
  (forall fuel srv api_token u params page_number (prospect_ids : gset jvalue) w r,
      truthy_str u = true ->
      srv (json_request api_token u params) = Reply r ->
      is_error_status r = false ->
      json r = Some [] ->
      exists w',
        prospects_loop (S fuel) srv api_token (Some u) params page_number
          prospect_ids w = Some (prospect_ids, w')
        /\ log w' = log w ++ [(INFO, NoMoreActivities page_number)])
  /\ (forall (cell : Type) (read_csv : pystr -> option (list (pystr * list (option cell))))
             fuel srv api_token table_name u all_ids page_number w r,
        truthy_str u = true ->
        srv (json_request api_token u None) = Reply r ->
        is_error_status r = false ->
        forallb isspace (text r) = true ->
        exists w',
          fetch_ids_loop cell read_csv (S fuel) srv api_token table_name (Some u)
            all_ids page_number w = Some ([], w')
          /\ log w' = log w ++ [(ERROR, EmptyResponse table_name)])
  /\ (forall path page_count content0 w,
        forallb isspace content0 = true ->
        merge_page path page_count content0 w
        = if page_count =? 1 then (write path content0 w, 0) else (w, 0))
  /\ (forall fuel srv key path u page_count total w r u',
        truthy_str u = true ->
        srv (csv_request key u) = Reply r ->
        is_error_status r = false ->
        forallb isspace (text r) = true ->
        _get_next_page_url (link r) = Some u' ->
        exists w1,
          download_pages (S fuel) srv key path (Some u) page_count total w
          = download_pages fuel srv key path (Some u') (page_count + 1) total w1
          /\ sent w1 = sent w ++ [csv_request key u]).
Proof.
  split; [|split; [|split]].
  - intros fuel srv tok u params pn ids w r Hu Hs He Hj.
    rewrite (prospects_loop_empty_page fuel srv tok u params pn ids w r Hu Hs He Hj).
    eexists. split; reflexivity.
  - intros cell read_csv fuel srv tok table u all pn w r Hu Hs He Hb.
    rewrite (fetch_ids_loop_blank_page cell read_csv fuel srv tok table u all pn w r
               Hu Hs He Hb).
    eexists. split; reflexivity.
  - exact merge_page_blank.
  - exact download_pages_blank_page.
Qed.

(** The empty second page of [empty_second_page], with two ids collected. *)
Lemma C3_empty_page_policy_witness :
  exists w',
    fetch_ids_loop pystr one_column_csv 1 empty_second_page (py "token") (py "Units")
      (Some PAGE2) [py "1"; py "2"] 2 empty_world = Some ([], w')
    /\ log w' = log empty_world ++ [(ERROR, EmptyResponse (py "Units"))].
Proof.
  apply (proj1 (proj2 C3_empty_page_policy) pystr one_column_csv O empty_second_page
           (py "token") (py "Units") PAGE2 [py "1"; py "2"] 2 empty_world
           (Response 200 [] None None)); reflexivity.
Defined.




(** C5. In structured-merge the target column of a page is
    [to_snake_case(table_name)], a name without capital letters A-Z,
    followed by [.id], which is
    [deposit_transactions.id] for [DepositTransactions] (the names of
    [TABLES_TO_PROCESS] become the twelve names listed). When the parsed
    page has that column, its non-null cells are the ids of the page. When
    it has not, the ids are the non-null cells of the first column and a
    warning naming both columns is logged; parsing does not raise. *)
Theorem C5_target_column (cell : Type)
  (read_csv : pystr -> option (list (pystr * list (option cell))))
  (table_name response_text first : pystr) (cells : list (option cell))
  (rest : list (pystr * list (option cell))) (w : world) :
  read_csv response_text = Some ((first, cells) :: rest) ->
  (In (to_snake_case table_name ++ py ".id") (first :: columns cell rest) ->
   page_ids cell read_csv table_name response_text w
   = (Some (column_values cell (to_snake_case table_name ++ py ".id")
              ((first, cells) :: rest)),
      logging INFO (FoundIdColumn (to_snake_case table_name ++ py ".id")) w))
  /\ (~ In (to_snake_case table_name ++ py ".id") (first :: columns cell rest) ->
      page_ids cell read_csv table_name response_text w
      = (Some (omap id cells),
         logging WARNING
           (FallbackIdColumn (to_snake_case table_name ++ py ".id") first) w))
  /\ forallb (fun c => negb (is_upper_az c)) (to_snake_case table_name) = true
  /\ to_snake_case (py "DepositTransactions") ++ py ".id" = py "deposit_transactions.id"
  /\ map to_snake_case TABLES_TO_PROCESS
     = map py ["organizations"; "referrers"; "influencers"; "units"; "housing_contracts";
               "deposit_transactions"; "marketing_touchpoints"; "service_agreements";
               "traits"; "prospects"; "residents"; "activities"]%string.
Proof.
  intros Hr. unfold page_ids. rewrite Hr.
  split; [|split; [|split; [|split]]].
  - intros Hin. apply (has_column_spec cell _ ((first, cells) :: rest)) in Hin.
    rewrite Hin. reflexivity.
  - intros Hnot.
    destruct (has_column cell (to_snake_case table_name ++ py ".id")
                ((first, cells) :: rest)) eqn:E.
    + apply has_column_spec in E. contradiction.
    + cbn [columns map fst]. rewrite column_values_first. reflexivity.
  - apply to_snake_case_lowercase.
  - vm_compute. reflexivity.
  - vm_compute. reflexivity.
Qed.

(** A page whose only column is [other_id], for [DepositTransactions]. *)
Lemma C5_target_column_witness :
  page_ids pystr one_column_csv (py "DepositTransactions")
    (py "other_id" ++ [NL] ++ py "5") empty_world
  = (Some [py "5"],
     logging WARNING (FallbackIdColumn (py "deposit_transactions.id") (py "other_id"))
       empty_world).
Proof.
  apply (proj1 (proj2 (C5_target_column pystr one_column_csv (py "DepositTransactions")
                         (py "other_id" ++ [NL] ++ py "5") (py "other_id")
                         [Some (py "5")] [] empty_world eq_refl))).
  vm_compute. intros [H|[]]. discriminate H.
Defined.



(** C7. The record count of a page, whatever its number, is the number
    of lines of its stripped body less one, never below zero, the lines
    being one more than the newlines. A page after the first whose stripped
    body has no newline counts zero records and leaves the world, hence the
    file, as it was; after [id,name / 1,a] a second page [id,name] leaves
    the file [id,name / 1,a] and the total 1. *)
Theorem C7_page_record_count :
  (forall path page_count content0 w,
      snd (merge_page path page_count content0 w)
      = Z.max 0 (len (split NL (strip content0)) - 1))
  /\ (forall content0,
        len (split NL (strip content0))
        = 1 + len (List.filter (Ascii.eqb NL) (strip content0)))
  /\ (forall path page_count content0 w,
        page_count <> 1 -> ~ In NL (strip content0) ->
        merge_page path page_count content0 w = (w, 0))
  /\ option_map
       (fun res : option pystr * world =>
          (read_file (py "/tmp/Units.csv") (snd res), last (log (snd res))))
       (download_table_csv 2 header_only_second_page (py "Units") (py "key") (py "/tmp")
          empty_world)
     = Some (Some (py "id,name" ++ [NL] ++ py "1,a"),
             Some (INFO, DownloadedRecords 1 (py "Units") (py "/tmp/Units.csv"))).
Proof.
  split; [|split; [|split]].
  - intros path pc content0 w.
    destruct (merge_page_count path pc content0 w) as [-> Hpos].
    unfold page_records in *. lia.
  - intros content0. apply len_split_count.
  - exact merge_page_header_only.
  - vm_compute. reflexivity.
Qed.

(** A second page that is the header line [id,name] alone. *)
Lemma C7_page_record_count_witness :
  merge_page (py "/tmp/Units.csv") 2 (py "id,name") empty_world = (empty_world, 0).
Proof.
  apply (proj1 (proj2 (proj2 C7_page_record_count))).
  - discriminate.
  - apply forallb_not_char. vm_compute. reflexivity.
Defined.



(** C9. A run, followed by a run against the same server from the world
    the first one left, returns the same value: [download_table_csv]
    returns the same path (or the same failure) and leaves the same text in
    the file, which the second run empties before writing;
    [fetch_all_ids_from_api] and [fetch_prospect_ids_from_activities]
    return the same list of ids. *)
Theorem C9_rerun_identical :
  (forall fuel srv table_name key temp_dir w res w1,
      download_table_csv fuel srv table_name key temp_dir w = Some (res, w1) ->
      exists w2,
        download_table_csv fuel srv table_name key temp_dir w1 = Some (res, w2)
        /\ content (path_join temp_dir (table_name ++ py ".csv")) w2
           = content (path_join temp_dir (table_name ++ py ".csv")) w1)
  /\ (forall (cell : Type) (read_csv : pystr -> option (list (pystr * list (option cell))))
             fuel srv api_token table_name records_per_page w ids w1,
        fetch_all_ids_from_api cell read_csv fuel srv api_token table_name
          records_per_page w = Some (ids, w1) ->
        exists w2,
          fetch_all_ids_from_api cell read_csv fuel srv api_token table_name
            records_per_page w1 = Some (ids, w2))
  /\ (forall fuel srv api_token records_per_page w ids w1,
        fetch_prospect_ids_from_activities fuel srv api_token records_per_page w
        = Some (ids, w1) ->
        exists w2,
          fetch_prospect_ids_from_activities fuel srv api_token records_per_page w1
          = Some (ids, w2)).
Proof.
  split; [|split].
  - intros fuel srv table key dir w res w1 H.
    exact (download_table_csv_world fuel srv table key dir w w1 res w1 H).
  - intros cell read_csv fuel srv tok table rpp w ids w1 H.
    unfold fetch_all_ids_from_api in *.
    eapply option_map_fst_some; [|exact H]. apply fetch_ids_loop_world.
  - intros fuel srv tok rpp w ids w1 H.
    unfold fetch_prospect_ids_from_activities in *.
    pose proof (prospects_loop_world srv tok fuel
                  (Some (PROSPECTS_API_BASE_URL ++ py "/activities")) (Some rpp) 1 ∅
                  (logging INFO StartingProspects w) (logging INFO StartingProspects w1))
      as HW.
    destruct (prospects_loop fuel srv tok _ _ 1 ∅ (logging INFO StartingProspects w))
      as [[s v]|]; [|discriminate].
    destruct (prospects_loop fuel srv tok _ _ 1 ∅ (logging INFO StartingProspects w1))
      as [[s' v']|]; [|discriminate].
    cbn in HW. inversion HW; subst s'. inversion H; subst.
    eexists. reflexivity.
Qed.

(** Two runs in a row against [two_csv_pages]. *)
Lemma C9_rerun_identical_witness :
  exists res w1 w2,
    download_table_csv 2 two_csv_pages (py "Units") (py "key") (py "/tmp") empty_world
    = Some (res, w1)
    /\ download_table_csv 2 two_csv_pages (py "Units") (py "key") (py "/tmp") w1
       = Some (res, w2)
    /\ content (path_join (py "/tmp") (py "Units" ++ py ".csv")) w2
       = content (path_join (py "/tmp") (py "Units" ++ py ".csv")) w1.
Proof.
  destruct (download_table_csv 2 two_csv_pages (py "Units") (py "key") (py "/tmp")
              empty_world) as [[res w1]|] eqn:E; [|vm_compute in E; discriminate E].
  destruct (proj1 C9_rerun_identical _ _ _ _ _ _ _ _ E) as [w2 [H1 H2]].
  exists res, w1, w2. split; [reflexivity|]. split; [exact H1|exact H2].
Defined.

(** C10. An activity passes the test of the loop exactly when its
    [record_type] is the string [Prospect] and it has a truthy [record_id];
    a page adds to the set exactly the [record_id]s of the activities that
    pass; no [record_id] that is missing, [None] or [0] passes, whatever
    the [record_type]; and every id a fetch returns is truthy and was read
    from a prospect activity of a page the fetch requested, so that
    neither [0] nor [None] is ever returned. *)
Theorem C10_prospect_filter :
  (forall a,
      is_prospect a = true
      <-> record_type a = Some (JStr (py "Prospect"))
          /\ exists v, record_id a = Some v /\ truthy v = true)
  /\ (forall activities (prospect_ids : gset jvalue) x,
        x ∈ add_prospects activities prospect_ids
        <-> x ∈ prospect_ids
            \/ exists a, In a activities /\ is_prospect a = true
                         /\ dict_get (record_id a) = x)
  /\ (forall t,
        is_prospect (Activity t None) = false
        /\ is_prospect (Activity t (Some JNull)) = false
        /\ is_prospect (Activity t (Some (JInt 0))) = false)
  /\ (forall fuel srv api_token records_per_page w ids w',
        fetch_prospect_ids_from_activities fuel srv api_token records_per_page w
        = Some (ids, w') ->
        (exists new,
            sent w' = sent w ++ new /\ forall x, In x ids -> collected srv new x)
        /\ ~ In (JInt 0) ids /\ ~ In JNull ids).
Proof.
  split; [exact is_prospect_spec|]. split; [intros; apply add_prospects_spec|].
  split.
  - intros t. unfold is_prospect. cbn [record_id dict_get truthy Z.eqb negb].
    rewrite !andb_false_r. repeat split.
  - intros fuel srv tok rpp w ids w' H.
    destruct (fetch_prospect_ids_sound _ _ _ _ _ _ _ H) as (new & Hnew & Hcol).
    split; [exists new; split; assumption|].
    split; intros Hin; apply Hcol in Hin as [Ht _]; discriminate Ht.
Qed.

(** The page of [failing_second_page]: its one activity is a prospect. *)
Lemma C10_prospect_filter_witness :
  record_type (prospect 7) = Some (JStr (py "Prospect"))
  /\ exists v, record_id (prospect 7) = Some v /\ truthy v = true.
Proof.
  apply (proj1 (proj1 C10_prospect_filter (prospect 7))). reflexivity.
Defined.


(** * Further properties *)

(** ** The pattern of [fetch_prospect_ids_from_activities] *)

Lemma group_strict_link g w : group NEXT_LINK_STRICT (strict_link_pieces g w) 1 = g.
Proof. reflexivity. Qed.

Lemma match_strict_tail rest :
  match_here (lits "rel=" ++ [One (lit DQUOTE)] ++ lits "next" ++ [One (lit DQUOTE)])
    (REL_NEXT ++ rest)
  = Some ([["r"]; ["e"]; ["l"]; ["="]; [DQUOTE]; ["n"]; ["e"]; ["x"]; ["t"]; [DQUOTE]],
          rest)%char.
Proof. reflexivity. Qed.

(** A link followed at once by a semicolon and by the double-quoted
    token is matched where it starts. *)
Lemma match_strict_link url ws rest :
  url <> [] -> forallb (not_char ">") url = true -> forallb isspace ws = true ->
  match_here NEXT_LINK_STRICT (py "<" ++ url ++ py ">;" ++ ws ++ REL_NEXT ++ rest)
  = Some (strict_link_pieces url ws, rest).
Proof.
  intros Hne Hurl Hws.
  destruct url as [|c url]; [congruence|].
  cbn [forallb] in Hurl. apply andb_true_iff in Hurl as [Hc Hurl].
  set (tail := lits "rel=" ++ [One (lit DQUOTE)] ++ lits "next" ++ [One (lit DQUOTE)]).
  change NEXT_LINK_STRICT with
    (One (lit "<") :: GOpen :: Plus (not_char ">") :: GClose :: One (lit ">")
     :: One (lit ";") :: Star isspace :: tail).
  change (py "<" ++ (c :: url) ++ py ">;" ++ ws ++ REL_NEXT ++ rest)
    with ("<"%char :: c :: (url ++ ">"%char :: ";"%char :: (ws ++ REL_NEXT ++ rest))).
  assert (E2 : match_here (Star isspace :: tail) (ws ++ REL_NEXT ++ rest)
               = Some (ws :: [["r"]; ["e"]; ["l"]; ["="]; [DQUOTE]; ["n"]; ["e"]; ["x"];
                              ["t"]; [DQUOTE]], rest)%char).
  { rewrite match_here_star.
    rewrite (star_greedy isspace (match_here tail) ws (REL_NEXT ++ rest) _ Hws eq_refl
               (match_strict_tail rest)).
    reflexivity. }
  rewrite match_here_one. change (lit "<" "<") with true. cbv iota.
  rewrite match_here_gopen, match_here_plus, Hc.
  rewrite (star_greedy (not_char ">") _ url
             (">"%char :: ";"%char :: (ws ++ REL_NEXT ++ rest))
             ([] :: [">"] :: [";"] :: ws
              :: [["r"]; ["e"]; ["l"]; ["="]; [DQUOTE]; ["n"]; ["e"]; ["x"]; ["t"];
                  [DQUOTE]], rest)%char
             Hurl eq_refl); [reflexivity|].
  rewrite match_here_gclose, match_here_one. change (lit ">" ">") with true. cbv iota.
  rewrite match_here_one. change (lit ";" ";") with true. cbv iota.
  rewrite E2. reflexivity.
Qed.

(** Every match of [NEXT_LINK_STRICT] reads [<URL>;], whitespace and
    the double-quoted token. *)
Lemma match_strict_link_inv s ps rest :
  match_here NEXT_LINK_STRICT s = Some (ps, rest) ->
  exists g w,
    ps = strict_link_pieces g w
    /\ g <> [] /\ ~ In ">"%char g /\ forallb isspace w = true
    /\ s = py "<" ++ g ++ py ">;" ++ w ++ REL_NEXT ++ rest.
Proof.
  intros H. apply match_here_sound in H as [HF ->].
  unfold NEXT_LINK_STRICT, lits in HF. cbn [py list_ascii_of_string map app] in HF.
  repeat match goal with
         | H : Forall2 _ (_ :: _) _ |- _ => inversion H; subst; clear H
         | H : Forall2 _ [] _ |- _ => inversion H; subst; clear H
         end.
  repeat match goal with
         | H : conforms (One (lit _)) _ |- _ => apply conforms_lit in H; subst
         | H : conforms (Plus (not_char _)) _ |- _ => apply conforms_plus_not_char in H as [? ?]
         | H : conforms GOpen _ |- _ => simpl in H; subst
         | H : conforms GClose _ |- _ => simpl in H; subst
         | H : conforms (Star _) _ |- _ => simpl in H
         end.
  match goal with
  | |- exists _ _, [_; _; ?a; _; _; _; ?b; _; _; _; _; _; _; _; _; _; _] = _ /\ _ =>
      exists a, b
  end.
  repeat (split; [first [reflexivity | assumption]|]).
  cbn [concat py list_ascii_of_string app REL_NEXT]. unfold REL_NEXT.
  cbn [py list_ascii_of_string app]. app_norm. reflexivity.
Qed.

Lemma no_strict_match_before_link pre l :
  str_in (py "next") pre = false -> brackets_closed pre = true ->
  forall a b, pre = a ++ b -> b <> [] ->
    match_here NEXT_LINK_STRICT (b ++ "<"%char :: l) = None.
Proof.
  intros Hnext Hclosed a b -> Hb.
  destruct (match_here NEXT_LINK_STRICT (b ++ "<"%char :: l)) as [[ps rest]|] eqn:E;
    [|reflexivity].
  exfalso.
  apply match_strict_link_inv in E as (g & w & _ & Hg & Hgt & Hw & E).
  destruct b as [|c b]; [congruence|]. cbn [py list_ascii_of_string app] in E.
  inversion E as [[Hc E']]. subst c. clear E.
  pose proof (brackets_closed_spec _ Hclosed a b eq_refl) as Hin.
  destruct (first_occurrence _ _ Hin) as [u [v [-> Hu]]].
  rewrite <- app_assoc in E'. cbn [app] in E'.
  destruct (first_occurrence_unique _ _ _ _ _ Hu Hgt E') as [-> E''].
  assert (Hn : ~ In "<"%char (py ";" ++ w ++ py "rel=" ++ [DQUOTE] ++ py "next")).
  { intros H. repeat (apply in_app_or in H as [H|H]).
    - simpl in H. destruct H as [H|[]]; discriminate.
    - exact (forallb_isspace_no "<"%char _ eq_refl Hw H).
    - simpl in H. repeat destruct H as [H|H]; try discriminate; contradiction.
    - simpl in H. repeat destruct H as [H|H]; try discriminate; contradiction.
    - simpl in H. repeat destruct H as [H|H]; try discriminate; contradiction. }
  destruct (prefix_without "<"%char (py ";" ++ w ++ py "rel=" ++ [DQUOTE] ++ py "next")
              v l ([DQUOTE] ++ rest) Hn) as [t ->].
  { rewrite E''. unfold REL_NEXT. cbn [py list_ascii_of_string app]. app_norm. reflexivity. }
  assert (Hocc : occurs (py "next")
                   (a ++ "<"%char :: g ++ ">"%char
                    :: (py ";" ++ w ++ py "rel=" ++ [DQUOTE] ++ py "next") ++ t)).
  { exists (a ++ "<"%char :: g ++ ">"%char :: py ";" ++ w ++ py "rel=" ++ [DQUOTE]), t.
    cbn [py list_ascii_of_string app]. app_norm. reflexivity. }
  apply str_in_spec in Hocc. congruence.
Qed.

Lemma prospects_next_url_sound h u :
  prospects_next_url (Some h) = Some u ->
  exists pre ws rest,
    h = pre ++ py "<" ++ u ++ py ">;" ++ ws ++ REL_NEXT ++ rest
    /\ u <> [] /\ ~ In ">"%char u /\ forallb isspace ws = true.
Proof.
  unfold prospects_next_url.
  destruct (truthy_str h && str_in REL_NEXT h); [|discriminate].
  destruct (re_search NEXT_LINK_STRICT h) as [[[pre ps] rest]|] eqn:E; [|discriminate].
  intros H. inversion H; subst. clear H.
  apply search_from_sound in E as [mid [-> [Eh Em]]].
  apply match_strict_link_inv in Em as (g & w & -> & Hg & Hgt & Hw & Em).
  rewrite group_strict_link.
  exists mid, w, rest. split; [rewrite Eh, Em; reflexivity|].
  repeat split; assumption.
Qed.

Lemma prospects_next_url_complete pre url ws rest :
  str_in (py "next") pre = false -> brackets_closed pre = true ->
  url <> [] -> ~ In ">"%char url -> forallb isspace ws = true ->
  prospects_next_url (Some (pre ++ py "<" ++ url ++ py ">;" ++ ws ++ REL_NEXT ++ rest))
  = Some url.
Proof.
  intros Hnext Hclosed Hne Hgt Hws.
  apply forallb_not_char in Hgt.
  pose proof (match_strict_link url ws rest Hne Hgt Hws) as E.
  set (l := py "<" ++ url ++ py ">;" ++ ws ++ REL_NEXT ++ rest) in *.
  assert (Hin : str_in REL_NEXT (pre ++ l) = true).
  { apply str_in_spec. exists (pre ++ py "<" ++ url ++ py ">;" ++ ws), rest.
    unfold l. app_norm. reflexivity. }
  assert (Ht : truthy_str (pre ++ l) = true).
  { destruct (pre ++ l) eqn:El; [|reflexivity].
    apply app_eq_nil in El as [_ El]. discriminate. }
  assert (S : re_search NEXT_LINK_STRICT (pre ++ l)
              = Some (pre, strict_link_pieces url ws, rest)).
  { unfold re_search. rewrite search_from_skip.
    - assert (El : exists l', l = "<"%char :: l') by (eexists; reflexivity).
      destruct El as [l' El]. rewrite El in *. cbn [search_from].
      rewrite E, app_nil_r, rev_involutive. reflexivity.
    - intros a b Hab Hb. unfold l. cbn [py list_ascii_of_string app].
      apply (no_strict_match_before_link pre _ Hnext Hclosed a b Hab Hb). }
  unfold prospects_next_url. rewrite Ht, Hin, S, group_strict_link. reflexivity.
Qed.

Lemma prospects_next_url_needs h :
  str_in REL_NEXT h = false \/ str_in (py ">;") h = false ->
  prospects_next_url (Some h) = None.
Proof.
  intros H. destruct (prospects_next_url (Some h)) as [u|] eqn:E; [|reflexivity].
  apply prospects_next_url_sound in E as (pre & ws & rest & -> & _).
  destruct H as [H|H]; [assert (Ho : occurs REL_NEXT
    (pre ++ py "<" ++ u ++ py ">;" ++ ws ++ REL_NEXT ++ rest))
   |assert (Ho : occurs (py ">;")
    (pre ++ py "<" ++ u ++ py ">;" ++ ws ++ REL_NEXT ++ rest))].
  - exists (pre ++ py "<" ++ u ++ py ">;" ++ ws), rest. app_norm. reflexivity.
  - apply str_in_spec in Ho. congruence.
  - exists (pre ++ py "<" ++ u), (ws ++ REL_NEXT ++ rest). app_norm. reflexivity.
  - apply str_in_spec in Ho. congruence.
Qed.

(** ** The prospects loop on a chain *)

Lemma prospects_next_url_truthy l u :
  prospects_next_url l = Some u -> truthy_str u = true.
Proof.
  destruct l as [h|]; [|discriminate]. intros H.
  apply prospects_next_url_sound in H as (_ & _ & _ & _ & Hu & _).
  destruct u; [congruence|reflexivity].
Qed.

Lemma prospects_loop_chain srv api_token :
  forall pages u r rest params fuel page_number (prospect_ids : gset jvalue) w,
    pages = (u, r) :: rest ->
    prospects_chain srv api_token params pages ->
    (length pages <= fuel)%nat ->
    exists w',
      prospects_loop fuel srv api_token (Some u) params page_number prospect_ids w
      = Some (collect_pages pages prospect_ids, w')
      /\ sent w' = sent w ++ prospects_requests api_token params pages.
Proof.
  induction pages as [|[u0 r0] pages IH];
    intros u r rest params fuel pn ids w E HC HF; [discriminate|].
  inversion E; subst u0 r0 pages. clear E.
  destruct fuel as [|fuel]; [simpl in HF; lia|].
  cbn [prospects_chain] in HC. destruct HC as (Hu & Hs & He & Hne & Hn & HC).
  cbn [prospects_loop truthy_url from_option id]. rewrite Hu.
  rewrite (http_get_ok _ _ _ _ Hs He).
  unfold page_activities in *. cbn [collect_pages]. unfold page_activities.
  destruct (json r) as [[|a acts]|]; [cbn in Hne; congruence| |cbn in Hne; congruence].
  cbn [from_option id].
  destruct rest as [|[u' r'] rest].
  - rewrite Hn. eexists. split; [reflexivity|]. reflexivity.
  - rewrite Hn.
    destruct (IH u' r' rest None fuel (pn + 1) (add_prospects (a :: acts) ids)
                (logging INFO (UniqueSoFar (Z.of_nat (size (add_prospects (a :: acts) ids))))
                   (logging INFO (ProcessingActivities (len (a :: acts)) pn)
                      (World (files w) (log w) (sent w ++ [json_request api_token u params]))))
                eq_refl HC ltac:(simpl in *; lia))
      as (w' & Hrun & Hsent).
    exists w'. split; [exact Hrun|].
    rewrite Hsent. cbn [sent logging prospects_requests]. rewrite <- app_assoc. reflexivity.
Qed.

Lemma collect_pages_spec pages :
  forall (prospect_ids : gset jvalue) x,
    x ∈ collect_pages pages prospect_ids
    <-> x ∈ prospect_ids
        \/ exists p a, In p pages /\ In a (page_activities (snd p))
                       /\ is_prospect a = true /\ dict_get (record_id a) = x.
Proof.
  induction pages as [|[u r] rest IH]; intros ids x; cbn [collect_pages].
  - split; [intros H; left; exact H|]. intros [H|(p & a & [] & _)]. exact H.
  - rewrite IH, add_prospects_spec. split.
    + intros [[H|(a & Ha & Hp & Hx)]|(p & a & Hp & H)].
      * left. exact H.
      * right. exists (u, r), a. split; [left; reflexivity|]. repeat split; assumption.
      * right. exists p, a. split; [right; exact Hp|exact H].
    + intros [H|(p & a & [Hp|Hp] & Ha & H)].
      * left. left. exact H.
      * subst p. left. right. exists a. split; [exact Ha|exact H].
      * right. exists p, a. split; [exact Hp|]. split; [exact Ha|exact H].
Qed.

(** ** The text-merge loop on a chain that breaks *)


(** ** What a run leaves untouched *)

Lemma write_other path data w p :
  p <> path -> files (write path data w) !! p = files w !! p.
Proof. intros H. unfold write. cbn [files]. apply lookup_insert_ne. congruence. Qed.

Lemma merge_page_other path page_count content0 w p :
  p <> path ->
  files (fst (merge_page path page_count content0 w)) !! p = files w !! p.
Proof.
  intros H. unfold merge_page. destruct (page_count =? 1); [apply write_other; exact H|].
  destruct (1 <? len (split NL (strip content0))); cbn [fst];
    [apply write_other; exact H|reflexivity].
Qed.

Lemma download_pages_other srv key path p :
  p <> path ->
  forall fuel url page_count total w o w',
    download_pages fuel srv key path url page_count total w = Some (o, w') ->
    files w' !! p = files w !! p.
Proof.
  intros Hp. induction fuel as [|fuel IH]; intros url pc total w o w' H; [discriminate|].
  cbn [download_pages] in H.
  destruct url as [u|]; [|inversion H; reflexivity].
  destruct (truthy_str u); [|inversion H; reflexivity].
  destruct (http_get srv (csv_request key u) (logging INFO (DownloadingPage (pc + 1) u) w))
    as [[e|r] w0] eqn:EG; apply http_get_sent in EG as (_ & Hf & _); cbn [files logging] in Hf.
  - inversion H; subst. rewrite Hf. reflexivity.
  - pose proof (merge_page_other path (pc + 1) (text r) w0 p Hp) as HM.
    destruct (merge_page path (pc + 1) (text r) w0) as [w1 n]. cbn [fst] in HM.
    destruct (truthy_url (_get_next_page_url (link r))).
    + apply IH in H. rewrite H, (proj1 (next_page_debug_same _ _)). cbn [files logging].
      rewrite HM, Hf. reflexivity.
    + inversion H; subst. cbn [files logging].
      rewrite (proj1 (next_page_debug_same _ _)). cbn [files logging].
      rewrite HM, Hf. reflexivity.
Qed.

Lemma fetch_ids_loop_files (cell : Type)
  (read_csv : pystr -> option (list (pystr * list (option cell)))) srv api_token table_name :
  forall fuel url all_ids page_number w ids w',
    fetch_ids_loop cell read_csv fuel srv api_token table_name url all_ids page_number w
    = Some (ids, w') ->
    files w' = files w.
Proof.
  induction fuel as [|fuel IH]; intros url all_ids pn w ids w' H; [discriminate|].
  cbn [fetch_ids_loop] in H. destruct (truthy_url url); [|inversion H; reflexivity].
  destruct (http_get srv (json_request api_token (default [] url) None) w)
    as [[e|r] w0] eqn:EG; apply http_get_sent in EG as (_ & Hf & _).
  - inversion H; subst. exact Hf.
  - destruct (negb (truthy_str (strip (text r)))); [inversion H; subst; exact Hf|].
    destruct (page_ids_spec cell read_csv api_token table_name (text r) w0) as (_ & H2 & _).
    destruct (page_ids cell read_csv table_name (text r) w0) as [[ids0|] w1];
      cbn [snd] in H2.
    + apply IH in H. rewrite H. cbn [files logging]. rewrite H2. exact Hf.
    + inversion H; subst. cbn [files logging]. rewrite H2. exact Hf.
Qed.

Lemma prospects_loop_files srv api_token :
  forall fuel url params page_number (prospect_ids : gset jvalue) w ids' w',
    prospects_loop fuel srv api_token url params page_number prospect_ids w
    = Some (ids', w') ->
    files w' = files w.
Proof.
  induction fuel as [|fuel IH]; intros url params pn ids w ids' w' H; [discriminate|].
  cbn [prospects_loop] in H. destruct (truthy_url url); [|inversion H; reflexivity].
  destruct (http_get srv (json_request api_token (default [] url) params) w)
    as [[e|r] w0] eqn:EG; apply http_get_sent in EG as (_ & Hf & _).
  - inversion H; subst. exact Hf.
  - destruct (json r) as [[|a acts]|].
    + inversion H; subst. exact Hf.
    + destruct (prospects_next_url (link r)).
      * apply IH in H. rewrite H. exact Hf.
      * inversion H; subst. exact Hf.
    + inversion H; subst. exact Hf.
Qed.

Lemma download_table_csv_other fuel srv table_name key temp_dir w res w' p :
  download_table_csv fuel srv table_name key temp_dir w = Some (res, w') ->
  p <> path_join temp_dir (table_name ++ py ".csv") ->
  files w' !! p = files w !! p.
Proof.
  intros H Hp. unfold download_table_csv in H.
  set (path := path_join temp_dir (table_name ++ py ".csv")) in *.
  destruct (download_pages fuel srv key path (Some (csv_base_url table_name)) 0 0
              (open_w path (logging INFO (StartingDownload table_name) w)))
    as [[o w1]|] eqn:E; [|discriminate].
  apply (download_pages_other srv key path p Hp) in E.
  assert (E0 : files w1 !! p = files w !! p).
  { rewrite E. unfold open_w. cbn [files logging]. apply lookup_insert_ne. congruence. }
  destruct o as [e|total]; [destruct e|]; inversion H; subst; exact E0.
Qed.

(** ** Non-empty results of the structured-merge *)

Lemma fetch_ids_loop_complete (cell : Type)
  (read_csv : pystr -> option (list (pystr * list (option cell)))) srv api_token table_name :
  forall fuel url all_ids page_number w ids w',
    fetch_ids_loop cell read_csv fuel srv api_token table_name url all_ids page_number w
    = Some (ids, w') ->
    ids <> [] ->
    exists pages idss,
      match pages with
      | [] => truthy_url url = false
      | (u, _) :: _ => url = Some u
      end
      /\ link_chain srv (fun u => json_request api_token u None) export_next_url pages
      /\ Forall2 (fun p ids0 => truthy_str (strip (text (snd p))) = true
                                /\ ids_of_page read_csv table_name (text (snd p)) = Some ids0)
           pages idss
      /\ ids = all_ids ++ concat idss
      /\ sent w' = sent w ++ map (fun p => json_request api_token (fst p) None) pages.
Proof.
  induction fuel as [|fuel IH]; intros url all_ids pn w ids w' H Hne; [discriminate|].
  cbn [fetch_ids_loop] in H. destruct (truthy_url url) eqn:Hu.
  - destruct url as [u|]; [|discriminate]. cbn [truthy_url from_option id] in *.
    destruct (http_get srv (json_request api_token u None) w) as [[e|r] w0] eqn:EG.
    { inversion H; subst. congruence. }
    pose proof (http_get_inr _ _ _ _ _ EG) as [Hr He].
    apply http_get_sent in EG as (Hs & _ & _).
    destruct (truthy_str (strip (text r))) eqn:Hb; cbn [negb] in H;
      [|inversion H; subst; congruence].
    destruct (page_ids_spec cell read_csv api_token table_name (text r) w0) as (H1 & _ & H3).
    destruct (page_ids cell read_csv table_name (text r) w0) as [[ids0|] w1];
      cbn [fst snd] in H1, H3; [|inversion H; subst; congruence].
    apply IH in H as (pages & idss & Hstart & HC & HP & Hids & Hsent); [|exact Hne].
    exists ((u, r) :: pages), (ids0 :: idss).
    split; [reflexivity|]. split; [|split; [|split]].
    + cbn [link_chain]. split; [exact Hu|]. split; [exact Hr|]. split; [exact He|].
      split; [|exact HC]. destruct pages as [|[u' r'] pages]; exact Hstart.
    + constructor; [split; [exact Hb|symmetry; exact H1]|exact HP].
    + rewrite Hids. cbn [concat]. rewrite app_assoc. reflexivity.
    + rewrite Hsent. cbn [sent logging map fst]. rewrite H3, Hs, <- app_assoc. reflexivity.
  - inversion H; subst. exists [], []. split; [reflexivity|]. split; [exact I|].
    split; [constructor|]. split; [rewrite app_nil_r; reflexivity|].
    cbn [sent logging map]. rewrite app_nil_r. reflexivity.
Qed.

(** ** Substitutions that insert an underscore *)

Lemma underscored_refl s : underscored s s.
Proof. induction s; constructor; assumption. Qed.

Lemma underscored_app_keep p s t : underscored s t -> underscored (p ++ s) (p ++ t).
Proof. intros H. induction p; cbn [app]; [exact H|constructor; assumption]. Qed.

Lemma underscored_nil_inv a : underscored a [] -> a = [].
Proof. intros H. inversion H. reflexivity. Qed.

Lemma underscored_trans b c :
  underscored b c -> forall a, underscored a b -> underscored a c.
Proof.
  induction 1 as [|x b c H IH|b c H IH]; intros a Ha.
  - exact Ha.
  - inversion Ha; subst.
    + constructor. apply IH. assumption.
    + apply underscored_insert. apply IH. assumption.
  - apply underscored_insert. apply IH. exact Ha.
Qed.

Lemma lower_char_underscore : lower_char "_" = "_"%char.
Proof. reflexivity. Qed.

Lemma underscored_lower s t : underscored s t -> underscored (lower s) (lower t).
Proof.
  induction 1; cbn [lower map]; [constructor|constructor; assumption|].
  rewrite lower_char_underscore. apply underscored_insert. assumption.
Qed.

Lemma underscored_length s t : underscored s t -> (length s <= length t)%nat.
Proof. induction 1; cbn [length]; lia. Qed.

(** Underscores apart, the two texts are the same. *)
Lemma underscored_filter s t :
  underscored s t ->
  List.filter (not_char "_") t = List.filter (not_char "_") s.
Proof.
  induction 1 as [|c s t H IH|s t H IH]; [reflexivity| |].
  - cbn [List.filter]. rewrite IH. reflexivity.
  - cbn [List.filter]. change (not_char "_" "_") with false. exact IH.
Qed.

Lemma sub_go_skip its repl :
  forall s k, (k <= length s)%nat ->
    sub_go its repl k s = sub_go its repl 0 (skipn k s).
Proof.
  induction s as [|c s IH]; intros k Hk.
  - destruct k; [reflexivity|simpl in Hk; lia].
  - destruct k as [|k]; [reflexivity|].
    cbn [sub_go skipn]. apply IH. simpl in Hk. lia.
Qed.

Lemma skipn_app_length {A : Type} (a b : list A) n :
  length a = n -> skipn n (a ++ b) = b.
Proof. intros <-. rewrite skipn_app, skipn_all, Nat.sub_diag. reflexivity. Qed.

(** [re.sub] with the template of the source only inserts underscores. *)
Lemma re_sub_underscored its :
  two_groups its ->
  forall s, underscored s (re_sub its repl_1_underscore_2 s).
Proof.
  intros HP s. unfold re_sub.
  induction s as [s IH] using (induction_ltof1 _ (@length ascii)). unfold ltof in IH.
  destruct s as [|c s].
  - cbn [sub_go]. destruct (match_here its []) as [[ps rest]|] eqn:E; [|constructor].
    exfalso. destruct (HP _ _ _ E) as (g1 & g2 & _ & Hc & Hne & _).
    apply match_here_sound in E as [_ E]. rewrite Hc in E.
    destruct (g1 ++ g2); [congruence|discriminate].
  - cbn [sub_go]. destruct (match_here its (c :: s)) as [[ps rest]|] eqn:E.
    + destruct (HP _ _ _ E) as (g1 & g2 & Hg & Hc & Hne & _).
      apply match_here_sound in E as [_ E]. rewrite Hc in E.
      rewrite Hc, Hg. unfold repl_1_underscore_2. cbn [nth].
      destruct (length (g1 ++ g2)) as [|k] eqn:El.
      { destruct (g1 ++ g2); [congruence|discriminate]. }
      assert (Es : s = skipn 1 ((g1 ++ g2) ++ rest)) by (rewrite <- E; reflexivity).
      rewrite sub_go_skip.
      * assert (Er : skipn k s = rest).
        { rewrite Es, skipn_skipn. rewrite Nat.add_comm.
          apply skipn_app_length. exact El. }
        rewrite Er, E, <- !app_assoc.
        apply underscored_app_keep. cbn [py list_ascii_of_string app].
        apply underscored_insert. apply underscored_app_keep.
        apply IH. rewrite E, !length_app. cbn [length].
        assert (length (g1 ++ g2) = (length g1 + length g2)%nat) by apply length_app.
        lia.
      * apply (f_equal (@length _)) in E. rewrite !length_app in E. cbn [length] in E.
        rewrite length_app in El. lia.
    + constructor. apply IH. cbn [length]. lia.
Qed.

(** Without an upper-case letter there is nothing to replace. *)
Lemma re_sub_no_capital its repl :
  two_groups its ->
  forall s, no_capital s -> re_sub its repl s = s.
Proof.
  intros HP. unfold re_sub, no_capital.
  assert (Hno : forall s, forallb (fun c => negb (is_upper_az c)) s = true ->
                          match_here its s = None).
  { intros s Hs. destruct (match_here its s) as [[ps rest]|] eqn:E; [|reflexivity].
    exfalso. destruct (HP _ _ _ E) as (g1 & g2 & _ & Hc & _ & c & Hin & Hup).
    apply match_here_sound in E as [_ E]. rewrite Hc in E.
    rewrite forallb_forall in Hs. specialize (Hs c). rewrite Hup in Hs.
    assert (Hf : negb true = true); [|discriminate Hf].
    apply Hs. rewrite E. apply in_or_app. left. exact Hin. }
  induction s as [|c s IH]; intros Hs.
  - cbn [sub_go]. rewrite (Hno [] Hs). reflexivity.
  - cbn [sub_go]. rewrite (Hno _ Hs). f_equal. apply IH.
    cbn [forallb] in Hs. apply andb_true_iff in Hs as [_ Hs]. exact Hs.
Qed.

Lemma two_groups_first :
  two_groups [GOpen; One dot; GClose; GOpen; One is_upper_az; Plus is_lower_az; GClose].
Proof.
  intros s ps rest H. apply match_here_sound in H as [HF _].
  repeat match goal with
         | H : Forall2 _ (_ :: _) _ |- _ => inversion H; subst; clear H
         | H : Forall2 _ [] _ |- _ => inversion H; subst; clear H
         end.
  repeat match goal with
         | H : conforms GOpen _ |- _ => simpl in H; subst
         | H : conforms GClose _ |- _ => simpl in H; subst
         | H : conforms (One _) _ |- _ => destruct H as (? & -> & ?)
         | H : conforms (Plus _) _ |- _ => destruct H as [? ?]
         end.
  match goal with
  | |- exists _ _, groups _ [_; [?a]; _; _; [?b]; ?w; _] = _ /\ _ =>
      exists [a], (b :: w); split; [reflexivity|];
      split; [cbn [concat app]; rewrite ?app_nil_r; reflexivity|];
      split; [discriminate|]; exists b; split; [right; left; reflexivity|assumption]
  end.
Qed.

Lemma two_groups_second :
  two_groups [GOpen; One (either is_lower_az is_digit); GClose; GOpen; One is_upper_az;
              GClose].
Proof.
  intros s ps rest H. apply match_here_sound in H as [HF _].
  repeat match goal with
         | H : Forall2 _ (_ :: _) _ |- _ => inversion H; subst; clear H
         | H : Forall2 _ [] _ |- _ => inversion H; subst; clear H
         end.
  repeat match goal with
         | H : conforms GOpen _ |- _ => simpl in H; subst
         | H : conforms GClose _ |- _ => simpl in H; subst
         | H : conforms (One _) _ |- _ => destruct H as (? & -> & ?)
         end.
  match goal with
  | |- exists _ _, groups _ [_; [?a]; _; _; [?b]; _] = _ /\ _ =>
      exists [a], [b]; split; [reflexivity|];
      split; [cbn [concat app]; rewrite ?app_nil_r; reflexivity|];
      split; [discriminate|]; exists b; split; [right; left; reflexivity|assumption]
  end.
Qed.

Lemma lower_char_idem c : lower_char (lower_char c) = lower_char c.
Proof. destruct c as [[] [] [] [] [] [] [] []]; reflexivity. Qed.

Lemma lower_idem s : lower (lower s) = lower s.
Proof. unfold lower. rewrite map_map. apply map_ext. intros c. apply lower_char_idem. Qed.

Lemma to_snake_case_underscored name : underscored (lower name) (to_snake_case name).
Proof.
  unfold to_snake_case. apply underscored_lower.
  eapply underscored_trans; [apply (re_sub_underscored _ two_groups_second)|].
  apply (re_sub_underscored _ two_groups_first).
Qed.

Lemma to_snake_case_no_capital name : no_capital name -> to_snake_case name = lower name.
Proof.
  intros H. unfold to_snake_case.
  rewrite (re_sub_no_capital _ _ two_groups_first name H).
  rewrite (re_sub_no_capital _ _ two_groups_second name H). reflexivity.
Qed.

Lemma to_snake_case_idem name : to_snake_case (to_snake_case name) = to_snake_case name.
Proof.
  rewrite to_snake_case_no_capital by apply to_snake_case_lowercase.
  unfold to_snake_case. apply lower_idem.
Qed.

(** ** The configuration *)

Ltac str_neq := let E := fresh in intro E; vm_compute in E; congruence.

Lemma setitem2_same (section key v : pystr) (c : config_dict) (d : options) :
  c !! section = Some d ->
  setitem2 section key v c !! section = Some (<[key := v]> d).
Proof. intros H. unfold setitem2. rewrite H. apply lookup_insert_eq. Qed.

Lemma setitem2_other (section section' key v : pystr) (c : config_dict) :
  section <> section' ->
  setitem2 section key v c !! section' = c !! section'.
Proof.
  intros H. unfold setitem2. destruct (c !! section); [|reflexivity].
  apply lookup_insert_ne. exact H.
Qed.

Lemma setitem2_has_key (section section' key v : pystr) (c : config_dict) :
  has_key section' (setitem2 section key v c) = has_key section' c.
Proof.
  unfold has_key. destruct (decide (section = section')) as [->|Hne].
  - destruct (c !! section') eqn:E.
    + rewrite (setitem2_same _ _ _ _ _ E). reflexivity.
    + unfold setitem2. rewrite E. rewrite E. reflexivity.
  - rewrite setitem2_other by exact Hne. reflexivity.
Qed.

Lemma has_key_true {V : Type} (key : pystr) (d : gmap pystr V) :
  has_key key d = true -> exists v, d !! key = Some v.
Proof. unfold has_key. destruct (d !! key); [eauto|discriminate]. Qed.

Lemma truthy_get_value (d : options) (key : pystr) :
  truthy_get d key = true -> exists v, d !! key = Some v /\ truthy_str v = true.
Proof.
  unfold truthy_get. destruct (d !! key) as [v|]; cbn; [eauto|discriminate].
Qed.

Lemma getitem2_setitem2_same (section key v : pystr) (c : config_dict) :
  has_key section c = true ->
  getitem2 (setitem2 section key v c) section key = inr v.
Proof.
  intros H. apply has_key_true in H as [d Hd]. unfold getitem2.
  rewrite (setitem2_same _ _ _ _ _ Hd). unfold getitem. rewrite lookup_insert_eq.
  reflexivity.
Qed.

Lemma getitem2_setitem2_other (section key v section' key' : pystr) (c : config_dict) :
  (section, key) <> (section', key') ->
  getitem2 (setitem2 section key v c) section' key' = getitem2 c section' key'.
Proof.
  intros H. unfold getitem2. destruct (decide (section = section')) as [->|Hne].
  - destruct (c !! section') as [d|] eqn:Hd.
    + rewrite (setitem2_same _ _ _ _ _ Hd). unfold getitem.
      rewrite lookup_insert_ne; [reflexivity|]. intros ->. apply H. reflexivity.
    + unfold setitem2. rewrite Hd, Hd. reflexivity.
  - rewrite setitem2_other by exact Hne. reflexivity.
Qed.

Lemma truthy_get2_getitem2 (c : config_dict) (section key : pystr) :
  truthy_get2 c section key = true ->
  exists v, getitem2 c section key = inr v /\ truthy_str v = true.
Proof.
  unfold truthy_get2, getitem2, getitem. destruct (c !! section) as [d|]; cbn.
  - intros H. apply truthy_get_value in H as (v & Hv & Ht). rewrite Hv. eauto.
  - unfold truthy_get. rewrite lookup_empty. cbn. discriminate.
Qed.

Lemma getitem2_truthy_get2 (c : config_dict) (section key v : pystr) :
  getitem2 c section key = inr v -> truthy_get2 c section key = truthy_str v.
Proof.
  unfold truthy_get2, getitem2, getitem, truthy_get.
  destruct (c !! section) as [d|]; cbn; [|discriminate].
  destruct (d !! key); cbn; congruence.
Qed.

Lemma overridden_has_key (P : platform) (file : config_dict) (section : pystr) :
  has_key section (overridden P file) = has_key section file.
Proof.
  unfold overridden. rewrite !setitem2_has_key.
  destruct (environ P !! py "AZURE_CONNECTION_STRING"); [apply setitem2_has_key|reflexivity].
Qed.

Lemma load_config_ok (P : platform) (path : pystr) (s s' : system) (c : config_dict) :
  load_config P path s = (inr c, s') ->
  exists file,
    read_ini P path = Sections file
    /\ has_key (py "Azure") file = true
    /\ has_key (py "Snowflake") file = true
    /\ has_key (py "WelcomeHome") file = true
    /\ c = overridden P file
    /\ truthy_get2 c (py "WelcomeHome") (py "api_key") = true
    /\ List.filter (fun field => negb (truthy_get (default ∅ (c !! py "Snowflake")) field))
         REQUIRED_SNOWFLAKE_FIELDS = []
    /\ s' = info (py "Configuration loaded successfully") s.
Proof.
  unfold load_config. intros H.
  destruct (negb (truthy_str path)); [discriminate|].
  destruct (read_ini P path) as [| |file]; try discriminate.
  exists file. split; [reflexivity|].
  cbn [List.find] in H.
  destruct (has_key (py "Azure") file) eqn:HA; cbn [negb] in H; [|discriminate].
  destruct (has_key (py "Snowflake") file) eqn:HS; cbn [negb] in H; [|discriminate].
  fold (overridden P file) in H.
  match type of H with
  | (if negb (has_key ?k ?m) then _ else _) = _ =>
      assert (HW : has_key k m = has_key k file)
        by (destruct (environ P !! py "AZURE_CONNECTION_STRING");
            [apply setitem2_has_key|reflexivity]);
      destruct (has_key k m) eqn:HW'; cbn [negb] in H; [|discriminate]
  end.
  fold (overridden P file) in H.
  destruct (truthy_get2 (overridden P file) (py "WelcomeHome") (py "api_key")) eqn:HK;
    cbn [negb] in H; [|discriminate].
  destruct (List.filter _ REQUIRED_SNOWFLAKE_FIELDS) eqn:HF; [|discriminate].
  injection H as <- <-. repeat split; try reflexivity; try assumption; congruence.
Qed.

(** ** The load into Snowflake *)

Lemma filter_runs_cons (stmt : pystr) (l : list pystr) :
  List.filter runs (stmt :: l)
  = if truthy_str (strip stmt) then stmt :: List.filter runs l else List.filter runs l.
Proof. reflexivity. Qed.

Lemma execute_statements_spec (P : platform) (sql_statements : list pystr) :
  forall (s s' : system) (r : option exception),
  execute_statements P sql_statements s = (r, s') ->
  host s' = host s /\ blobs s' = blobs s /\ connections s' = connections s
  /\ (exists more, records s' = records s ++ more)
  /\ match r with
     | None => executed s' = executed s ++ List.filter runs sql_statements
     | Some e =>
         exists before stmt after msg,
           sql_statements = before ++ stmt :: after
           /\ runs stmt = true
           /\ executed s' = executed s ++ List.filter runs before
           /\ execute P (executed s') stmt = Some msg
           /\ e = LibraryError msg
     end.
Proof.
  induction sql_statements as [|stmt rest IH]; intros s s' r H; cbn [execute_statements] in H.
  - injection H as <- <-. repeat split; try reflexivity.
    + exists []. symmetry. apply app_nil_r.
    + cbn. symmetry. apply app_nil_r.
  - destruct (truthy_str (strip stmt)) eqn:Hrun.
    + destruct (execute P _ stmt) as [msg|] eqn:Hex.
      * injection H as <- <-. cbn. repeat split; try reflexivity.
        -- eexists. reflexivity.
        -- exists [], stmt, rest, msg. cbn. rewrite app_nil_r.
           repeat split; try reflexivity; assumption.
      * apply IH in H as (Hh & Hb & Hc & [more Hm] & Hr). cbn in Hh, Hb, Hc, Hm, Hr.
        repeat split; try assumption.
        -- eexists. rewrite Hm, <- app_assoc. reflexivity.
        -- destruct r as [e|].
           ++ destruct Hr as (before & st & after & msg & -> & Hst & He & Hx & ->).
              exists (stmt :: before), st, after, msg. rewrite filter_runs_cons, Hrun.
              repeat split; try assumption; try reflexivity.
              rewrite He, <- app_assoc. reflexivity.
           ++ rewrite filter_runs_cons, Hrun.
              rewrite Hr, <- app_assoc. reflexivity.
    + apply IH in H as (Hh & Hb & Hc & Hm & Hr). repeat split; try assumption.
      destruct r as [e|].
      * destruct Hr as (before & st & after & msg & -> & Hst & He & Hx & ->).
        exists (stmt :: before), st, after, msg. rewrite filter_runs_cons, Hrun.
        repeat split; try assumption; reflexivity.
      * rewrite filter_runs_cons, Hrun. exact Hr.
Qed.

Lemma snowflake_connect_spec (P : platform) (snowflake_config : options) (s s1 : system) :
  snowflake_connect P snowflake_config s = inr s1 ->
  s1 = System (host s) (records s) (blobs s) (executed s) (S (connections s)).
Proof.
  unfold snowflake_connect, and_then. intros H.
  repeat match type of H with
         | match ?x with _ => _ end = _ => destruct x; try discriminate
         end.
  congruence.
Qed.

Lemma snowflake_connect_any (P : platform) (snowflake_config : options) (s t : system) :
  connects P snowflake_config s = connects P snowflake_config t.
Proof.
  unfold connects, snowflake_connect, and_then.
  repeat match goal with
         | |- context [match getitem ?d ?k with inl _ => _ | inr _ => _ end] =>
             destruct (getitem d k); cbn; try reflexivity
         | |- context [match raised ?x with inl _ => _ | inr _ => _ end] =>
             destruct (raised x); cbn; try reflexivity
         end.
Qed.

(** What [load_data_to_snowflake] leaves, by its result. *)
Lemma load_data_to_snowflake_spec (P : platform) (snowflake_config azure_config : options)
  (file_path : pystr) (s s' : system) (ok : bool) :
  load_data_to_snowflake P snowflake_config azure_config file_path s = (ok, s') ->
  host s' = host s /\ blobs s' = blobs s
  /\ (exists more, records s' = records s ++ more
                   /\ (ok = false -> exists e,
                         last more = Some (ERROR, TextExc (py "Error loading data into Snowflake: ") e)))
  /\ (exists ran, executed s' = executed s ++ ran)
  /\ if ok then
       connections s' = connections s
       /\ exists sql,
            formatted_sql P snowflake_config azure_config file_path (host s) = inr sql
            /\ executed s' = executed s ++ List.filter runs (split ";" sql)
     else
       connections s'
       = (if connects P snowflake_config s then S (connections s) else connections s)
       /\ forall sql,
            formatted_sql P snowflake_config azure_config file_path (host s) = inr sql ->
            connects P snowflake_config s = true ->
            exists before stmt after,
              split ";" sql = before ++ stmt :: after
              /\ runs stmt = true
              /\ executed s' = executed s ++ List.filter runs before
              /\ execute P (executed s') stmt <> None.
Proof.
  unfold load_data_to_snowflake, load_failed. intros H.
  rewrite (snowflake_connect_any P snowflake_config s
             (info (py "Connecting to Snowflake") s)).
  unfold connects.
  destruct (snowflake_connect P snowflake_config _) as [e|s1] eqn:Hc.
  - injection H as <- <-. cbn. repeat split; try reflexivity.
    + eexists. split; [rewrite <- app_assoc; reflexivity|]. intros _. eexists. reflexivity.
    + exists []. symmetry. apply app_nil_r.
    + intros sql _ Hd. discriminate Hd.
  - apply snowflake_connect_spec in Hc. subst s1. cbn [host info emit] in H.
    destruct (formatted_sql P snowflake_config azure_config file_path (host s))
      as [e|sql] eqn:Hf.
    + injection H as <- <-. cbn. repeat split; try reflexivity.
      * eexists. split; [rewrite <- app_assoc; reflexivity|]. intros _. eexists. reflexivity.
      * exists []. symmetry. apply app_nil_r.
      * intros sql Hd. discriminate Hd.
    + destruct (execute_statements P (split ";" sql) _) as [[e|] s2] eqn:He;
        apply execute_statements_spec in He as (Hh & Hb & Hcn & [more Hm] & Hr);
        cbn in Hh, Hb, Hcn, Hm, Hr; injection H as <- <-; cbn.
      * destruct Hr as (before & stmt & after & msg & Hs & Hrun & Hx & Hex & ->).
        repeat split; try assumption.
        -- eexists. split; [rewrite Hm, <- !app_assoc; reflexivity|].
           intros _. eexists. rewrite !last_app. reflexivity.
        -- eexists. exact Hx.
        -- intros sql' Hd _. injection Hd as <-.
           exists before, stmt, after. repeat split; try assumption.
           rewrite Hex. discriminate.
      * repeat split; try assumption.
        -- eexists. split; [rewrite Hm, <- !app_assoc; reflexivity|]. discriminate.
        -- eexists. exact Hr.
        -- rewrite Hcn. reflexivity.
        -- exists sql. split; [reflexivity|exact Hr].
Qed.

(** ** The records of a run *)

Lemma grows_refl (s : system) : grows s s.
Proof. exists []. symmetry. apply app_nil_r. Qed.

Lemma grows_trans (s s1 s2 : system) : grows s s1 -> grows s1 s2 -> grows s s2.
Proof.
  intros [m1 H1] [m2 H2]. exists (m1 ++ m2). rewrite H2, H1, app_assoc. reflexivity.
Qed.

Lemma grows_same (s s1 s2 : system) :
  records s2 = records s1 -> grows s s1 -> grows s s2.
Proof. intros E [m H]. exists m. rewrite E. exact H. Qed.

Lemma grows_emit (s s1 : system) (l : level) (n : note) :
  grows s s1 -> grows s (emit l n s1).
Proof. intros [m H]. exists (m ++ [(l, n)]). cbn. rewrite H, app_assoc. reflexivity. Qed.

Lemma grows_info (s s1 : system) (t : pystr) : grows s s1 -> grows s (info t s1).
Proof. apply grows_emit. Qed.

Lemma grows_warning (s s1 : system) (t : pystr) : grows s s1 -> grows s (warning t s1).
Proof. apply grows_emit. Qed.

Lemma grows_error (s s1 : system) (t : pystr) : grows s s1 -> grows s (error t s1).
Proof. apply grows_emit. Qed.

Lemma grows_on_host (s s1 : system) (w : world) : grows s s1 -> grows s (on_host w s1).
Proof. intros H. exact H. Qed.

Lemma reports_problem_now (s s1 : system) (l : level) (n : note) :
  is_problem (l, n) = true -> grows s s1 -> reports_problem s (emit l n s1).
Proof.
  intros Hp [m H]. exists m, (l, n), []. split; [|exact Hp].
  cbn. rewrite H, app_assoc. reflexivity.
Qed.

Lemma reports_problem_warning (s s1 : system) (t : pystr) :
  grows s s1 -> reports_problem s (warning t s1).
Proof. apply reports_problem_now. reflexivity. Qed.

Lemma reports_problem_error (s s1 : system) (t : pystr) :
  grows s s1 -> reports_problem s (error t s1).
Proof. apply reports_problem_now. reflexivity. Qed.

Lemma reports_problem_exc (s s1 : system) (t : pystr) (e : exception) :
  grows s s1 -> reports_problem s (emit ERROR (TextExc t e) s1).
Proof. apply reports_problem_now. reflexivity. Qed.

Lemma reports_problem_then (s s1 s2 : system) :
  reports_problem s s1 -> grows s1 s2 -> reports_problem s s2.
Proof.
  intros (b & r & a & H & Hp) [m Hm]. exists b, r, (a ++ m). split; [|exact Hp].
  rewrite Hm, H, <- !app_assoc. reflexivity.
Qed.

Lemma reports_problem_after (s s1 s2 : system) :
  grows s s1 -> reports_problem s1 s2 -> reports_problem s s2.
Proof.
  intros [m Hm] (b & r & a & H & Hp). exists (m ++ b), r, a. split; [|exact Hp].
  rewrite H, Hm, <- !app_assoc. reflexivity.
Qed.

Lemma reports_problem_info (s s1 : system) (t : pystr) :
  reports_problem s s1 -> reports_problem s (info t s1).
Proof. intros H. apply (reports_problem_then s s1); [exact H|]. apply grows_info, grows_refl. Qed.

Lemma reports_problem_on_host (s s1 : system) (w : world) :
  reports_problem s s1 -> reports_problem s (on_host w s1).
Proof. intros H. exact H. Qed.

Lemma reports_problem_grows (s s1 : system) : reports_problem s s1 -> grows s s1.
Proof. intros (b & r & a & H & _). eexists. exact H. Qed.

Create HintDb records discriminated.
#[export] Hint Resolve grows_refl grows_info grows_warning grows_error grows_emit
  grows_on_host reports_problem_warning reports_problem_error reports_problem_exc
  reports_problem_info reports_problem_on_host : records.

(** ** The steps of [process_table] *)

Lemma make_azure_config_spec (table_name : pystr) (config : config_dict) (a : options) :
  make_azure_config table_name config = inr a ->
  exists connection_string container_name,
    getitem2 config (py "Azure") (py "connection_string") = inr connection_string
    /\ getitem2 config (py "Azure") (py "container_name") = inr container_name
    /\ getitem a (py "connection_string") = inr connection_string
    /\ getitem a (py "container_name") = inr container_name
    /\ getitem a (py "blob_name") = inr (lower table_name ++ py ".csv")
    /\ table_blob config table_name
       = Some (connection_string, container_name, lower table_name ++ py ".csv").
Proof.
  unfold make_azure_config, table_blob, and_then. intros H.
  destruct (getitem2 config (py "Azure") (py "connection_string")) as [|cs]; [discriminate|].
  destruct (getitem2 config (py "Azure") (py "container_name")) as [|cn]; [discriminate|].
  injection H as <-. exists cs, cn. unfold getitem.
  repeat split; reflexivity.
Qed.

(** What [upload_to_azure_blob] leaves, by its result. *)
Lemma upload_to_azure_blob_spec (P : platform) (azure_config : options)
  (local_file : pystr) (s s' : system) (r : exception + bool) :
  upload_to_azure_blob P azure_config local_file s = (r, s') ->
  host s' = host s /\ executed s' = executed s /\ connections s' = connections s
  /\ match r with
     | inl _ => s' = s
     | inr true =>
         exists connection_string container_name blob_name data,
           getitem azure_config (py "connection_string") = inr connection_string
           /\ getitem azure_config (py "container_name") = inr container_name
           /\ getitem azure_config (py "blob_name") = inr blob_name
           /\ files (host s) !! local_file = Some data
           /\ blobs s' = <[(connection_string, container_name, blob_name) := data]> (blobs s)
           /\ grows s s'
     | inr false => blobs s' = blobs s /\ reports_problem s s'
     end.
Proof.
  unfold upload_to_azure_blob. intros H.
  destruct (getitem azure_config (py "blob_name")) as [e|name] eqn:Hn.
  - injection H as <- <-. repeat split; reflexivity.
  - match type of H with
    | match ?a with inl _ => _ | inr _ => _ end = _ => destruct a as [e|s1] eqn:Ha
    end.
    + injection H as <- <-. cbn. repeat split; try reflexivity.
      auto with records.
    + injection H as <- <-. unfold and_then in Ha.
      destruct (getitem azure_config (py "connection_string")) as [|cs]; [discriminate|].
      destruct (raised (from_connection_string P cs)); [discriminate|].
      destruct (getitem azure_config (py "container_name")) as [|cn]; [discriminate|].
      destruct (open_rb local_file _) as [|data] eqn:Ho; [discriminate|].
      destruct (raised (upload_blob P cs cn name data)); [discriminate|].
      injection Ha as <-. cbn. repeat split; try reflexivity.
      exists cs, cn, name, data. repeat split; try reflexivity.
      * unfold open_rb in Ho. cbn in Ho. destruct (files (host s) !! local_file);
          [congruence|discriminate].
      * apply grows_info. eexists. cbn. reflexivity.
Qed.

Lemma load_data_to_snowflake_records (P : platform) (snowflake_config azure_config : options)
  (file_path : pystr) (s s' : system) (ok : bool) :
  load_data_to_snowflake P snowflake_config azure_config file_path s = (ok, s') ->
  grows s s' /\ (ok = false -> reports_problem s s').
Proof.
  intros H. apply load_data_to_snowflake_spec in H as (_ & _ & (more & Hm & He) & _).
  split; [exists more; exact Hm|].
  intros Hf. destruct (He Hf) as [e Hl].
  apply last_Some in Hl as [l' ->].
  exists l', (ERROR, TextExc (py "Error loading data into Snowflake: ") e), [].
  split; [exact Hm|reflexivity].
Qed.

Lemma download_step_spec (fuel : nat) (P : platform) (table_name : pystr)
  (config : config_dict) (temp_dir : pystr) (s s' : system)
  (r : flow (option pystr) (option bool)) :
  download_step fuel P table_name config temp_dir s = Some (r, s') ->
  blobs s' = blobs s /\ executed s' = executed s /\ connections s' = connections s
  /\ grows s s'
  /\ match r with
     | Raise e => getitem2 config (py "WelcomeHome") (py "api_key") = inl e
     | Return v =>
         v = Some false /\ reports_problem s s'
         /\ exists api_key res,
              getitem2 config (py "WelcomeHome") (py "api_key") = inr api_key
              /\ download_table_csv fuel (api P) table_name api_key temp_dir (host s)
                 = Some (res, host s')
     | Next csv_file_path =>
         exists api_key path data,
           csv_file_path = Some path
           /\ getitem2 config (py "WelcomeHome") (py "api_key") = inr api_key
           /\ download_table_csv fuel (api P) table_name api_key temp_dir (host s)
              = Some (Some path, host s')
           /\ files (host s') !! path = Some data
           /\ data <> []
     end.
Proof.
  unfold download_step. intros H.
  destruct (getitem2 config (py "WelcomeHome") (py "api_key")) as [e|api_key].
  { injection H as <- <-. cbn. repeat split; auto 10 with records. }
  cbn [host info emit] in H.
  destruct (download_table_csv fuel (api P) table_name api_key temp_dir (host s))
    as [[csv_file_path w]|] eqn:Hd; [|discriminate].
  destruct (truthy_path csv_file_path) eqn:Hp; cbn [negb] in H.
  2:{ injection H as <- <-. cbn. repeat split; auto 10 with records.
      exists api_key, csv_file_path. split; [reflexivity|exact Hd]. }
  destruct csv_file_path as [path|]; [|discriminate]. cbn [default from_option id] in H.
  cbn [host on_host] in H.
  destruct (files w !! path) as [data|] eqn:Hf.
  2:{ injection H as <- <-. cbn. repeat split; auto 10 with records.
      exists api_key, (Some path). split; [reflexivity|exact Hd]. }
  destruct (getsize data =? 0) eqn:Hz.
  { injection H as <- <-. cbn. repeat split; auto 10 with records.
    exists api_key, (Some path). split; [reflexivity|exact Hd]. }
  injection H as <- <-. cbn. repeat split; auto 10 with records.
  exists api_key, path, data. repeat split; try reflexivity; try assumption.
  intros ->. cbn in Hz. discriminate.
Qed.

Lemma upload_step_spec (P : platform) (table_name : pystr) (config : config_dict)
  (api_download : bool) (csv_file_path : option pystr) (s s' : system)
  (r : flow (option options) (option bool)) :
  upload_step P table_name config api_download csv_file_path s = (r, s') ->
  host s' = host s /\ executed s' = executed s /\ connections s' = connections s
  /\ grows s s'
  /\ match r with
     | Raise e => blobs s' = blobs s
     | Return v => v = Some false /\ blobs s' = blobs s /\ reports_problem s s'
     | Next azure_config =>
         exists path a blob data,
           csv_file_path = Some path
           /\ make_azure_config table_name config = inr a
           /\ azure_config = Some a
           /\ table_blob config table_name = Some blob
           /\ files (host s) !! path = Some data
           /\ blobs s' = <[blob := data]> (blobs s)
     end.
Proof.
  unfold upload_step. intros H.
  destruct (truthy_path csv_file_path) eqn:Hp; cbn [negb andb] in H.
  2:{ destruct api_download; injection H as <- <-; cbn; repeat split; auto 10 with records. }
  destruct csv_file_path as [path|]; [|discriminate]. cbn [default from_option id] in H.
  destruct (make_azure_config table_name config) as [e|a] eqn:Ha.
  { injection H as <- <-. cbn. repeat split; auto 10 with records. }
  destruct (upload_to_azure_blob P a path _) as [[e|success] s1] eqn:Hu;
    apply upload_to_azure_blob_spec in Hu as (Hh & Hx & Hc & Hr).
  - subst s1. injection H as <- <-. cbn. repeat split; auto 10 with records.
  - destruct success; cbn [negb] in H; injection H as <- <-.
    + destruct Hr as (cs & cn & bn & data & Hcs & Hcn & Hbn & Hf & Hb & Hg).
      apply make_azure_config_spec in Ha as Ha'.
      destruct Ha' as (cs' & cn' & _ & _ & Hcs' & Hcn' & Hbn' & Ht).
      rewrite Hcs in Hcs'. rewrite Hcn in Hcn'. rewrite Hbn in Hbn'.
      injection Hcs' as <-. injection Hcn' as <-. injection Hbn' as ->.
      repeat split; try assumption.
      * eapply grows_trans; [|exact Hg]. auto 10 with records.
      * exists path, a, (cs, cn, lower table_name ++ py ".csv"), data.
        repeat split; try reflexivity; assumption.
    + destruct Hr as [Hb Hp']. cbn. repeat split; try assumption.
      * apply grows_error. eapply grows_trans; [|apply reports_problem_grows; exact Hp'].
        auto 10 with records.
      * apply reports_problem_error.
        eapply grows_trans; [|apply reports_problem_grows; exact Hp'].
        auto 10 with records.
Qed.

(** The block of steps 1 and 2. *)
Lemma in_temporary_directory_spec (fuel : nat) (P : platform) (table_name : pystr)
  (config : config_dict) (api_download blob_upload : bool) (s s' : system)
  (r : flow (option options) (option bool)) :
  in_temporary_directory fuel P table_name config api_download blob_upload s = Some (r, s') ->
  executed s' = executed s /\ connections s' = connections s /\ grows s s'
  /\ match r with
     | Raise e => blobs s' = blobs s
     | Return v => v = Some false /\ blobs s' = blobs s /\ reports_problem s s'
     | Next azure_config =>
         if blob_upload then
           exists api_key path w data a blob,
             api_download = true
             /\ getitem2 config (py "WelcomeHome") (py "api_key") = inr api_key
             /\ download_table_csv fuel (api P) table_name api_key (mkdtemp P (host s)) (host s)
                = Some (Some path, w)
             /\ files w !! path = Some data
             /\ data <> []
             /\ make_azure_config table_name config = inr a
             /\ azure_config = Some a
             /\ table_blob config table_name = Some blob
             /\ blobs s' = <[blob := data]> (blobs s)
             /\ host s' = World (rmtree P (mkdtemp P (host s)) (files w)) (log w) (sent w)
         else azure_config = None /\ blobs s' = blobs s
     end.
Proof.
  unfold in_temporary_directory. intros H.
  destruct api_download.
  - destruct (download_step fuel P table_name config _ _) as [[r1 s1]|] eqn:Hd;
      [|discriminate].
    apply download_step_spec in Hd as (Hb & Hx & Hc & Hg & Hr).
    cbn [host info emit blobs executed connections] in Hb, Hx, Hc, Hr.
    assert (Hg' : grows s s1).
    { eapply grows_trans; [|exact Hg]. auto with records. }
    destruct r1 as [csv_file_path|v|e].
    + destruct Hr as (api_key & path & data & -> & Hk & Hdl & Hf & Hne).
      destruct blob_upload.
      * destruct (upload_step P table_name config true (Some path) s1) as [r2 s2] eqn:Hu.
        apply upload_step_spec in Hu as (Hh2 & Hx2 & Hc2 & Hg2 & Hr2).
        injection H as <- <-. cbn [executed connections records blobs on_host host].
        repeat split; try congruence.
        { apply grows_on_host. eapply grows_trans; eassumption. }
        destruct r2 as [azure_config|v|e].
        -- destruct Hr2 as (path' & a & blob & data' & Hp & Ha & -> & Ht & Hf' & Hb').
           injection Hp as <-. rewrite Hf in Hf'. injection Hf' as <-.
           exists api_key, path, (host s1), data, a, blob.
           repeat split; try assumption; try reflexivity.
           ++ rewrite Hb', Hb. reflexivity.
           ++ rewrite Hh2. reflexivity.
        -- destruct Hr2 as (-> & Hb' & Hp). repeat split; [congruence|].
           apply reports_problem_on_host. eapply reports_problem_after; eassumption.
        -- congruence.
      * injection H as <- <-. cbn. repeat split; try assumption.
    + destruct Hr as (-> & Hp & _). injection H as <- <-. cbn.
      repeat split; try assumption.
      apply (reports_problem_after s (info (py "Using temporary directory: "
                                            ++ mkdtemp P (host s)) s));
        [auto with records|exact Hp].
    + injection H as <- <-. cbn. repeat split; assumption.
  - destruct blob_upload.
    + destruct (upload_step P table_name config false None _) as [r2 s2] eqn:Hu.
      pose proof Hu as Hu'.
      apply upload_step_spec in Hu as (Hh2 & Hx2 & Hc2 & Hg2 & Hr2).
      injection H as <- <-. cbn [executed connections records blobs on_host host].
      cbn [host info emit blobs executed connections] in Hh2, Hx2, Hc2, Hr2.
      assert (Hg' : grows s s2).
      { eapply grows_trans; [|exact Hg2]. auto with records. }
      repeat split; try assumption.
      destruct r2 as [azure_config|v|e].
      * destruct Hr2 as (path' & a & blob & data' & Hp & _). discriminate Hp.
      * destruct Hr2 as (-> & Hb' & Hp). repeat split; [exact Hb'|].
        apply reports_problem_on_host.
        eapply reports_problem_after; [|exact Hp]. auto with records.
      * exact Hr2.
    + injection H as <- <-. cbn. repeat split; auto with records.
Qed.

(** Step 3. *)
Lemma load_step_spec (P : platform) (table_name : pystr) (config : config_dict)
  (azure_config : option options) (s s' : system) (ok : bool) :
  load_step P table_name config azure_config s = (ok, s') ->
  host s' = host s /\ blobs s' = blobs s /\ grows s s'
  /\ (exists ran, executed s' = executed s ++ ran)
  /\ if ok then
       connections s' = connections s
       /\ has_key (sql_path P (camel_to_snake_case table_name ++ py ".sql")) (files (host s))
          = true
       /\ exists snowflake_config a sql,
            make_snowflake_config table_name config = inr snowflake_config
            /\ match azure_config with
               | Some a' => a = a'
               | None => make_azure_config table_name config = inr a
               end
            /\ formatted_sql P snowflake_config a
                 (sql_path P (camel_to_snake_case table_name ++ py ".sql")) (host s) = inr sql
            /\ executed s' = executed s ++ List.filter runs (split ";" sql)
     else reports_problem s s'.
Proof.
  unfold load_step. intros H.
  destruct (has_key _ (files _)) eqn:Hk; cbn [negb] in H.
  2:{ injection H as <- <-. cbn. repeat split; auto 10 with records.
      exists []. symmetry. apply app_nil_r. }
  destruct (truthy_section config (py "Snowflake")).
  2:{ injection H as <- <-. cbn. repeat split; auto 10 with records.
      exists []. symmetry. apply app_nil_r. }
  match type of H with
  | match ?c with inl _ => _ | inr _ => _ end = _ => destruct c as [e|[sc a]] eqn:Hc
  end.
  { injection H as <- <-. cbn. repeat split; auto 10 with records.
    exists []. symmetry. apply app_nil_r. }
  destruct (load_data_to_snowflake P sc a _ _) as [load_success s1] eqn:Hl.
  pose proof (load_data_to_snowflake_records _ _ _ _ _ _ _ Hl) as [Hg Hp].
  apply load_data_to_snowflake_spec in Hl as (Hh & Hb & _ & Hran & Hr).
  cbn [host info emit blobs executed connections] in Hh, Hb, Hran, Hr, Hk.
  assert (Hg' : grows s s1).
  { eapply grows_trans; [|exact Hg]. auto 10 with records. }
  destruct load_success; injection H as <- <-; cbn.
  - destruct Hr as (Hn & sql & Hf & Hx). repeat split; try assumption.
    + auto with records.
    + exists sc, a, sql. unfold and_then in Hc.
      destruct (make_snowflake_config table_name config) as [|sc'] eqn:Hsc.
      { destruct azure_config; [discriminate|].
        destruct (make_azure_config table_name config); discriminate. }
      destruct azure_config as [a'|].
      * injection Hc as <- <-. repeat split; assumption.
      * destruct (make_azure_config table_name config) as [|a'']; [discriminate|].
        injection Hc as <- <-. repeat split; assumption.
  - repeat split; try assumption.
    + auto with records.
    + apply reports_problem_error. exact Hg'.
Qed.

(** What [process_table] returns and leaves. *)
Lemma process_table_spec (fuel : nat) (P : platform) (table_name : pystr)
  (config : config_dict) (api_download blob_upload snowflake_load : bool) (s s' : system)
  (r : exception + option bool) :
  process_table fuel P table_name config api_download blob_upload snowflake_load s
  = Some (r, s') ->
  grows s s'
  /\ (exists ran, executed s' = executed s ++ ran)
  /\ (blobs s' = blobs s
      \/ exists blob data, table_blob config table_name = Some blob
                           /\ blobs s' = <[blob := data]> (blobs s))
  /\ (snowflake_load = false ->
      executed s' = executed s /\ connections s' = connections s)
  /\ match r with
     | inl e => blobs s' = blobs s /\ executed s' = executed s
     | inr None => snowflake_load = false /\ executed s' = executed s
     | inr (Some false) => reports_problem s s'
     | inr (Some true) => snowflake_load = true /\ connections s' = connections s
     end.
Proof.
  unfold process_table. intros H.
  set (s0 := info _ s) in H.
  assert (H0 : grows s s0) by (unfold s0; auto with records).
  destruct (api_download || blob_upload) eqn:Hab.
  - destruct (in_temporary_directory fuel P table_name config api_download blob_upload s0)
      as [[r1 s1]|] eqn:Ht; [|discriminate].
    apply in_temporary_directory_spec in Ht as (Hx & Hc & Hg & Hr).
    unfold s0 in Hx, Hc, Hr. cbn [host info emit blobs executed connections] in Hx, Hc, Hr.
    fold s0 in Hr.
    assert (Hg1 : grows s s1) by (apply (grows_trans s s0); assumption).
    destruct r1 as [azure_config|v|e].
    + assert (Hb : blobs s1 = blobs s
                   \/ exists blob data, table_blob config table_name = Some blob
                                        /\ blobs s1 = <[blob := data]> (blobs s)).
      { destruct blob_upload.
        - destruct Hr as (api_key & path & w & data & a & blob & _ & _ & _ & _ & _ & _ & _
                          & Hb & Hbl & _).
          right. exists blob, data. split; assumption.
        - left. apply Hr. }
      destruct snowflake_load.
      * destruct (load_step P table_name config azure_config s1) as [success s2] eqn:Hl.
        apply load_step_spec in Hl as (Hh2 & Hb2 & Hg2 & [ran Hran] & Hr2).
        injection H as <- <-. split; [apply (grows_trans s s1); assumption|].
        split; [exists ran; congruence|]. split; [rewrite Hb2; exact Hb|].
        split; [discriminate|].
        destruct success.
        -- split; [reflexivity|]. destruct Hr2 as [Hn _]. congruence.
        -- apply (reports_problem_after s s1); assumption.
      * injection H as <- <-. split; [exact Hg1|].
        split; [exists []; rewrite app_nil_r; exact Hx|]. split; [exact Hb|].
        split; [intros _; split; assumption|].
        split; [reflexivity|exact Hx].
    + destruct Hr as (-> & Hb & Hp). injection H as <- <-.
      split; [exact Hg1|]. split; [exists []; rewrite app_nil_r; exact Hx|].
      split; [left; exact Hb|]. split; [intros _; split; assumption|].
      apply (reports_problem_after s s0); assumption.
    + injection H as <- <-. split; [exact Hg1|].
      split; [exists []; rewrite app_nil_r; exact Hx|]. split; [left; exact Hr|].
      split; [intros _; split; assumption|].
      split; [exact Hr|exact Hx].
  - destruct snowflake_load.
    + destruct (load_step P table_name config None s0) as [success s2] eqn:Hl.
      apply load_step_spec in Hl as (Hh2 & Hb2 & Hg2 & [ran Hran] & Hr2).
      injection H as <- <-. split; [apply (grows_trans s s0); assumption|].
      split; [exists ran; exact Hran|]. split; [left; exact Hb2|].
      split; [discriminate|].
      destruct success.
      * split; [reflexivity|]. apply Hr2.
      * apply (reports_problem_after s s0); assumption.
    + injection H as <- <-. split; [exact H0|].
      split; [exists []; symmetry; apply app_nil_r|]. split; [left; reflexivity|].
      split; [intros _; split; reflexivity|].
      split; reflexivity.
Qed.

(** A run of the three steps that returns [True]. *)
Lemma process_table_true (fuel : nat) (P : platform) (table_name : pystr)
  (config : config_dict) (s s' : system) :
  process_table fuel P table_name config true true true s = Some (inr (Some true), s') ->
  exists api_key path w data blob snowflake_config a sql,
    getitem2 config (py "WelcomeHome") (py "api_key") = inr api_key
    /\ download_table_csv fuel (api P) table_name api_key (mkdtemp P (host s)) (host s)
       = Some (Some path, w)
    /\ files w !! path = Some data
    /\ data <> []
    /\ table_blob config table_name = Some blob
    /\ blobs s' = <[blob := data]> (blobs s)
    /\ make_snowflake_config table_name config = inr snowflake_config
    /\ make_azure_config table_name config = inr a
    /\ formatted_sql P snowflake_config a
         (sql_path P (camel_to_snake_case table_name ++ py ".sql"))
         (World (rmtree P (mkdtemp P (host s)) (files w)) (log w) (sent w)) = inr sql
    /\ executed s' = executed s ++ List.filter runs (split ";" sql)
    /\ connections s' = connections s
    /\ host s' = World (rmtree P (mkdtemp P (host s)) (files w)) (log w) (sent w).
Proof.
  unfold process_table. cbn [orb app]. intros H.
  set (s0 := info _ s) in H.
  destruct (in_temporary_directory fuel P table_name config true true s0)
    as [[r1 s1]|] eqn:Ht; [|discriminate].
  apply in_temporary_directory_spec in Ht as (Hx & Hc & Hg & Hr).
  destruct r1 as [azure_config|v|e].
  2:{ destruct Hr as (-> & _). discriminate H. }
  2:{ discriminate H. }
  destruct Hr as (api_key & path & w & data & a & blob & _ & Hk & Hd & Hf & Hne & Ha & ->
                  & Ht & Hb & Hh).
  destruct (load_step P table_name config (Some a) s1) as [success s2] eqn:Hl.
  apply load_step_spec in Hl as (Hh2 & Hb2 & Hg2 & _ & Hr2).
  injection H as -> <-.
  destruct Hr2 as (Hn & _ & sc & a' & sql & Hsc & -> & Hfmt & Hex).
  exists api_key, path, w, data, blob, sc, a, sql.
  unfold s0 in *. cbn [host info emit blobs executed connections] in *.
  rewrite Hh in Hfmt.
  repeat split; try assumption; congruence.
Qed.

(** ** A run in which every service answers *)














(** ** The loop over the tables and [main] *)

Lemma load_config_any (P : platform) (path : pystr) (s t : system) :
  fst (load_config P path s) = fst (load_config P path t).
Proof.
  unfold load_config.
  repeat match goal with
         | |- context [if ?b then _ else _] => destruct b; try reflexivity
         | |- context [match ?x with _ => _ end] => destruct x; try reflexivity
         end.
Qed.

Lemma process_table_blobs (fuel : nat) (P : platform) (table_name : pystr)
  (config : config_dict) (a b l : bool) (s s' : system) (r : exception + option bool)
  (k : pystr * pystr * pystr) :
  process_table fuel P table_name config a b l s = Some (r, s') ->
  is_Some (blobs s !! k) -> is_Some (blobs s' !! k).
Proof.
  intros H Hk. apply process_table_spec in H as (_ & _ & [->| (blob & data & _ & ->)] & _);
    [exact Hk|].
  destruct (decide (blob = k)) as [->|Hne].
  - rewrite lookup_insert_eq. eauto.
  - rewrite lookup_insert_ne by exact Hne. exact Hk.
Qed.

Lemma in_records_grows (s s' : system) (r : level * note) :
  grows s s' -> In r (records s) -> In r (records s').
Proof. intros [m ->] H. apply in_or_app. left. exact H. Qed.

Lemma process_tables_spec (fuel : nat) (P : platform) (config : config_dict)
  (tables : list pystr) :
  forall (successful_tables failed_tables : list pystr) (s : system)
         (successful_tables' failed_tables' : list pystr) (s' : system),
  process_tables fuel P config tables successful_tables failed_tables s
  = Some (successful_tables', failed_tables', s') ->
  grows s s'
  /\ (forall k, is_Some (blobs s !! k) -> is_Some (blobs s' !! k))
  /\ exists ok bad,
       successful_tables' = successful_tables ++ ok
       /\ failed_tables' = failed_tables ++ bad
       /\ Permutation (ok ++ bad) tables
       /\ (forall t, In t ok ->
             exists blob, table_blob config t = Some blob /\ is_Some (blobs s' !! blob))
       /\ (forall t, In t tables ->
             In (INFO, Text (py "PROCESSING TABLE: " ++ colorize_table_name t)) (records s')).
Proof.
  induction tables as [|table_name rest IH]; intros succ fail s succ' fail' s' H;
    cbn [process_tables] in H.
  - injection H as <- <- <-. split; [apply grows_refl|]. split; [auto|].
    exists [], []. rewrite !app_nil_r. repeat split; try reflexivity.
    + intros t [].
    + intros t [].
  - set (s0 := info (rule 120) (info (py "PROCESSING TABLE: "
                 ++ colorize_table_name table_name) (info ([NL] ++ rule 120) s))) in H.
    assert (H0 : grows s s0) by (unfold s0; auto with records).
    assert (Hrec : In (INFO, Text (py "PROCESSING TABLE: " ++ colorize_table_name table_name))
                     (records s0)).
    { unfold s0. cbn. rewrite !in_app_iff. cbn. tauto. }
    destruct (process_table fuel P table_name config true true true s0)
      as [[r s1]|] eqn:Hp; [|discriminate].
    pose proof (process_table_spec _ _ _ _ _ _ _ _ _ _ Hp) as (Hg1 & _).
    assert (Hmono : forall k, is_Some (blobs s !! k) -> is_Some (blobs s1 !! k)).
    { intros k Hk. apply (process_table_blobs _ _ _ _ _ _ _ _ _ _ k Hp). exact Hk. }
    assert (Hfail : forall s2 : system,
               grows s1 s2 -> blobs s2 = blobs s1 ->
               process_tables fuel P config rest succ (fail ++ [table_name]) s2
               = Some (succ', fail', s') ->
               grows s s'
               /\ (forall k, is_Some (blobs s !! k) -> is_Some (blobs s' !! k))
               /\ exists ok bad,
                    succ' = succ ++ ok /\ fail' = fail ++ bad
                    /\ Permutation (ok ++ bad) (table_name :: rest)
                    /\ (forall t, In t ok ->
                          exists blob, table_blob config t = Some blob
                                       /\ is_Some (blobs s' !! blob))
                    /\ (forall t, In t (table_name :: rest) ->
                          In (INFO, Text (py "PROCESSING TABLE: " ++ colorize_table_name t))
                            (records s'))).
    { intros s2 Hg2 Hb2 Hrun.
      apply IH in Hrun as (Hg & Hm & ok & bad & -> & -> & Hperm & Hok & Hall).
      assert (Hgs : grows s s').
      { apply (grows_trans s s0); [exact H0|]. apply (grows_trans s0 s1); [exact Hg1|].
        apply (grows_trans s1 s2); assumption. }
      split; [exact Hgs|].
      split; [intros k Hk; apply Hm; rewrite Hb2; apply Hmono; exact Hk|].
      exists ok, (table_name :: bad). rewrite <- app_assoc. cbn [app].
      repeat split; try reflexivity.
      - rewrite <- Permutation_middle. constructor. exact Hperm.
      - exact Hok.
      - intros t [<-|Ht]; [|apply Hall; exact Ht].
        apply (in_records_grows s0 s'); [|exact Hrec].
        apply (grows_trans s0 s1); [exact Hg1|]. apply (grows_trans s1 s2); assumption. }
    destruct r as [e|[[|]|]].
    + apply (Hfail _ (grows_emit s1 s1 _ _ (grows_refl s1)) eq_refl H).
    + apply process_table_true in Hp as Hp'.
      destruct Hp' as (_ & _ & _ & data & blob & _ & _ & _ & _ & _ & _ & _ & Hblob & Hb & _).
      apply IH in H as (Hg & Hm & ok & bad & -> & -> & Hperm & Hok & Hall).
      assert (Hgs : grows s s').
      { apply (grows_trans s s0); [exact H0|]. apply (grows_trans s0 s1); assumption. }
      split; [exact Hgs|].
      split; [intros k Hk; apply Hm, Hmono; exact Hk|].
      exists (table_name :: ok), bad. rewrite <- app_assoc. cbn [app].
      repeat split; try reflexivity.
      * constructor. exact Hperm.
      * intros t [<-|Ht]; [|apply Hok; exact Ht].
        exists blob. split; [exact Hblob|]. apply Hm. rewrite Hb.
        rewrite lookup_insert_eq. eauto.
      * intros t [<-|Ht]; [|apply Hall; exact Ht].
        apply (in_records_grows s0 s'); [|exact Hrec].
        apply (grows_trans s0 s1); assumption.
    + apply (Hfail _ (grows_refl s1) eq_refl H).
    + apply (Hfail _ (grows_refl s1) eq_refl H).
Qed.

(** ** The ID pipelines *)

Lemma wh_execute_spec {A : Type} (C : connector A) (stmt : pystr) (s s' : warehouse A) :
  wh_execute C stmt s = inr s' ->
  s' = Warehouse (wh_world s) (wh_records s) (wh_executed s ++ [stmt]) (wh_written s)
         (wh_connections s).
Proof.
  unfold wh_execute. destruct (sf_execute C (wh_executed s) stmt); [discriminate|].
  congruence.
Qed.

(** What the export's [create_table_and_load_data] leaves. *)
Lemma export_create_spec {A : Type} (C : connector A) (table_name : pystr) (ids : list A)
  (s s' : warehouse A) (r : option exception) :
  WelcomeHomeExport.create_table_and_load_data C table_name ids s = (r, s') ->
  wh_world s' = wh_world s
  /\ wh_connections s' = wh_connections s
  /\ match r with
     | None =>
         wh_executed s'
         = wh_executed s ++ [WelcomeHomeExport.create_table_query (to_snake_case table_name)]
         /\ wh_written s'
            = wh_written s
              ++ match ids with
                 | [] => []
                 | _ :: _ => [replacement C (table_name, ids) (sf_now C (wh_world s))]
                 end
     | Some e => wh_written s' = wh_written s
     end.
Proof.
  unfold WelcomeHomeExport.create_table_and_load_data. intros H.
  destruct (wh_execute C _ s) as [e|s1] eqn:He.
  { injection H as <- <-. cbn. repeat split; reflexivity. }
  apply wh_execute_spec in He. subst s1.
  destruct ids as [|i ids].
  { injection H as <- <-. cbn. rewrite app_nil_r. repeat split; reflexivity. }
  cbn [wh_info wh_emit wh_world wh_records wh_executed wh_written wh_connections] in H.
  destruct (sf_write_pandas C _ _ _) as [e|[[success nchunks] nrows]].
  { injection H as <- <-. cbn. repeat split; reflexivity. }
  destruct success; injection H as <- <-; cbn; repeat split; reflexivity.
Qed.

(** The loop of the export over its tables. *)
Lemma load_tables_spec {A : Type} (fuel : nat) (C : connector A) (srv : server)
  (read_csv : pystr -> option (list (pystr * list (option A)))) (api_token : pystr)
  (tables : list pystr) :
  forall (s s' : warehouse A) (r : option exception),
  WelcomeHomeExport.load_tables fuel C srv read_csv api_token tables s = Some (r, s') ->
  wh_connections s' = wh_connections s
  /\ (r = None ->
      exists done entries,
        map fst done = tables
        /\ Forall (fetched read_csv fuel srv api_token) done
        /\ wh_executed s'
           = wh_executed s
             ++ map (fun p => WelcomeHomeExport.create_table_query (to_snake_case (fst p)))
                  (List.filter with_ids done)
        /\ wh_written s' = wh_written s ++ entries
        /\ Forall2 (fun entry p => exists ts, entry = replacement C p ts)
             entries (List.filter with_ids done)).
Proof.
  induction tables as [|table rest IH]; intros s s' r H;
    cbn [WelcomeHomeExport.load_tables] in H.
  - injection H as <- <-. split; [reflexivity|]. intros _.
    exists [], []. cbn. rewrite !app_nil_r. repeat split; constructor.
  - cbn [wh_info wh_emit wh_world] in H.
    destruct (fetch_all_ids_from_api A read_csv fuel srv api_token table 10000 (wh_world s))
      as [[ids w]|] eqn:Hf; [|discriminate].
    assert (Hfetched : fetched read_csv fuel srv api_token (table, ids)).
    { exists (wh_world s), w. exact Hf. }
    destruct ids as [|i ids].
    + apply IH in H as (Hc & Hr). split; [exact Hc|].
      intros ->. destruct (Hr eq_refl) as (done & entries & Hd & Hfs & Hx & Hw & Hen).
      exists ((table, []) :: done), entries. cbn [map fst List.filter with_ids snd].
      cbn in Hx, Hw. repeat split; try assumption.
      * rewrite Hd. reflexivity.
      * constructor; assumption.
    + destruct (WelcomeHomeExport.create_table_and_load_data C table (i :: ids) _)
        as [[e|] s1] eqn:Hcr;
        apply export_create_spec in Hcr as (Hw1 & Hc1 & Hr1).
      * injection H as <- <-. split; [exact Hc1|]. discriminate.
      * destruct Hr1 as [Hx1 Hwr1].
        apply IH in H as (Hc & Hr). cbn in Hc, Hc1, Hx1, Hwr1, Hw1.
        split; [congruence|].
        intros ->. destruct (Hr eq_refl) as (done & entries & Hd & Hfs & Hx & Hw & Hen).
        cbn in Hx, Hw.
        exists ((table, i :: ids) :: done),
               (replacement C (table, i :: ids) (sf_now C w) :: entries).
        cbn [map fst List.filter with_ids snd].
        repeat split.
        -- rewrite Hd. reflexivity.
        -- constructor; assumption.
        -- rewrite Hx, Hx1, <- app_assoc. reflexivity.
        -- rewrite Hw, Hwr1, <- app_assoc. reflexivity.
        -- constructor; [eexists; reflexivity|exact Hen].
Qed.

(** What the prospects' [create_table_and_load_data] leaves. *)
Lemma prospects_create_spec {A : Type} (C : connector A) (prospect_ids : list A)
  (s s' : warehouse A) (r : option exception) :
  WelcomeHome.create_table_and_load_data C prospect_ids s = (r, s') ->
  wh_world s' = wh_world s
  /\ wh_connections s' = wh_connections s
  /\ (exists ran, wh_executed s' = wh_executed s ++ ran
                  /\ (ran = [] \/ ran = [WelcomeHome.drop_sql]
                      \/ ran = [WelcomeHome.drop_sql; WelcomeHome.create_sql]))
  /\ match r with
     | None =>
         wh_executed s' = wh_executed s ++ [WelcomeHome.drop_sql; WelcomeHome.create_sql]
         /\ wh_written s'
            = wh_written s
              ++ match prospect_ids with
                 | [] => []
                 | _ :: _ =>
                     [(str_upper C WelcomeHome.table_name, false, prospect_ids,
                       repeat (sf_now C (wh_world s)) (length prospect_ids))]
                 end
     | Some e => wh_written s' = wh_written s
     end.
Proof.
  unfold WelcomeHome.create_table_and_load_data. intros H.
  destruct (wh_execute C WelcomeHome.drop_sql s) as [e|s1] eqn:He.
  { injection H as <- <-. cbn. repeat split; try reflexivity.
    exists []. rewrite app_nil_r. auto. }
  apply wh_execute_spec in He. subst s1.
  destruct (wh_execute C WelcomeHome.create_sql _) as [e|s2] eqn:He2.
  { injection H as <- <-. cbn. repeat split; try reflexivity.
    exists [WelcomeHome.drop_sql]. auto. }
  apply wh_execute_spec in He2. subst s2.
  cbn [wh_info wh_emit wh_world wh_records wh_executed wh_written wh_connections] in H.
  assert (Hran : exists ran,
             (wh_executed s ++ [WelcomeHome.drop_sql]) ++ [WelcomeHome.create_sql]
             = wh_executed s ++ ran
             /\ (ran = [] \/ ran = [WelcomeHome.drop_sql]
                 \/ ran = [WelcomeHome.drop_sql; WelcomeHome.create_sql])).
  { exists [WelcomeHome.drop_sql; WelcomeHome.create_sql].
    rewrite <- app_assoc. auto. }
  destruct prospect_ids as [|i ids].
  { injection H as <- <-. cbn. rewrite app_nil_r, <- app_assoc.
    repeat split; try reflexivity. rewrite app_assoc. exact Hran. }
  destruct (sf_write_pandas C _ _ _) as [e|[[success nchunks] nrows]].
  { injection H as <- <-. cbn. repeat split; try reflexivity. exact Hran. }
  destruct success; injection H as <- <-; cbn; rewrite <- app_assoc;
    repeat split; try reflexivity; rewrite app_assoc; exact Hran.
Qed.

(** ** The archived pipeline and [process_table] *)

Lemma same_effects_refl (s : system) : same_effects s s.
Proof. repeat split. Qed.

Lemma same_effects_emit_l (s t : system) (l : level) (n : note) :
  same_effects s t -> same_effects (emit l n s) t.
Proof. intros H. exact H. Qed.

Lemma same_effects_emit_r (s t : system) (l : level) (n : note) :
  same_effects s t -> same_effects s (emit l n t).
Proof. intros H. exact H. Qed.

Lemma same_effects_on_host (s t : system) (w : world) :
  same_effects s t -> same_effects (on_host w s) (on_host w t).
Proof. intros (_ & Hb & Hx & Hc). repeat split; assumption. Qed.

Lemma upload_to_azure_blob_same (P : platform) (a : options) (path : pystr) (s t : system) :
  same_effects s t ->
  fst (upload_to_azure_blob P a path s) = fst (upload_to_azure_blob P a path t)
  /\ same_effects (snd (upload_to_azure_blob P a path s)) (snd (upload_to_azure_blob P a path t)).
Proof.
  intros (Hh & Hb & Hx & Hc). unfold upload_to_azure_blob.
  destruct (getitem a (py "blob_name")) as [e|name]; cbn [fst snd].
  { split; [reflexivity|]. repeat split; assumption. }
  unfold and_then. cbn [host info emit].
  destruct (getitem a (py "connection_string")) as [e|cs]; cbn [fst snd];
    [split; [reflexivity|]; repeat split; assumption|].
  destruct (raised (from_connection_string P cs)) as [e|?]; cbn [fst snd];
    [split; [reflexivity|]; repeat split; assumption|].
  destruct (getitem a (py "container_name")) as [e|cn]; cbn [fst snd];
    [split; [reflexivity|]; repeat split; assumption|].
  rewrite Hh.
  destruct (open_rb path (host t)) as [e|data]; cbn [fst snd];
    [split; [reflexivity|]; repeat split; assumption|].
  destruct (raised (upload_blob P cs cn name data)) as [e|?]; cbn [fst snd];
    [split; [reflexivity|]; repeat split; cbn; assumption|].
  split; [reflexivity|]. repeat split; cbn; congruence.
Qed.

Lemma execute_statements_same (P : platform) (sql_statements : list pystr) :
  forall s t : system,
  same_effects s t ->
  fst (execute_statements P sql_statements s) = fst (execute_statements P sql_statements t)
  /\ same_effects (snd (execute_statements P sql_statements s))
       (snd (execute_statements P sql_statements t)).
Proof.
  induction sql_statements as [|stmt rest IH]; intros s t H; cbn [execute_statements].
  - split; [reflexivity|exact H].
  - destruct (truthy_str (strip stmt)); [|apply IH; exact H].
    cbn [executed info emit]. destruct H as (Hh & Hb & Hx & Hc). rewrite Hx.
    destruct (execute P (executed t) stmt).
    + split; [reflexivity|]. repeat split; cbn; assumption.
    + apply IH. repeat split; cbn; congruence.
Qed.

Lemma load_data_to_snowflake_same (P : platform) (sc a : options) (path : pystr)
  (s t : system) :
  same_effects s t ->
  fst (load_data_to_snowflake P sc a path s) = fst (load_data_to_snowflake P sc a path t)
  /\ same_effects (snd (load_data_to_snowflake P sc a path s))
       (snd (load_data_to_snowflake P sc a path t)).
Proof.
  intros (Hh & Hb & Hx & Hc). unfold load_data_to_snowflake, load_failed.
  pose proof (snowflake_connect_any P sc (info (py "Connecting to Snowflake") s)
                (info (py "Connecting to Snowflake") t)) as Hany.
  unfold connects in Hany.
  destruct (snowflake_connect P sc (info (py "Connecting to Snowflake") s)) as [e|s1] eqn:E1;
    destruct (snowflake_connect P sc (info (py "Connecting to Snowflake") t)) as [e'|t1] eqn:E2;
    try discriminate.
  - cbn [fst snd]. split; [reflexivity|]. repeat split; assumption.
  - apply snowflake_connect_spec in E1, E2. subst s1 t1. cbn [host info emit]. rewrite Hh.
    destruct (formatted_sql P sc a path (host t)) as [e|sql]; cbn [fst snd].
    { split; [reflexivity|]. repeat split; cbn; congruence. }
    match goal with
    | |- context [execute_statements P ?l ?x] =>
        match goal with
        | |- context [execute_statements P l ?y] =>
            lazymatch x with
            | y => fail
            | _ => pose proof (execute_statements_same P l x y) as Hs
            end
        end
    end.
    destruct Hs as [Hf Hs]; [repeat split; cbn; congruence|].
    destruct (execute_statements P _ _) as [[e|] s2];
      destruct (execute_statements P _ _) as [[e'|] t2]; cbn [fst snd] in *;
      try discriminate.
    + split; [reflexivity|]. exact Hs.
    + split; [reflexivity|]. destruct Hs as (H1 & H2 & H3 & H4).
      repeat split; cbn; congruence.
Qed.

Lemma archive_block_agrees (fuel : nat) (P : platform) (table_name : pystr)
  (config : config_dict) (s s' : system) :
  same_effects s s' ->
  match Archive.api_download_and_upload fuel P table_name config s,
        in_temporary_directory fuel P table_name config true true s' with
  | None, None => True
  | Some (inl e, s1), Some (Raise e', s2) => e = e' /\ same_effects s1 s2
  | Some (inr false, s1), Some (Return v, s2) => v = Some false /\ same_effects s1 s2
  | Some (inr true, s1), Some (Next azure_config, s2) =>
      (exists a, azure_config = Some a /\ make_azure_config table_name config = inr a)
      /\ same_effects s1 s2
  | _, _ => False
  end.
Proof.
  intros (Hh & Hb & Hx & Hc).
  unfold Archive.api_download_and_upload, in_temporary_directory, download_step.
  cbn [host info emit]. rewrite Hh.
  destruct (getitem2 config (py "WelcomeHome") (py "api_key")) as [e|api_key].
  { split; [reflexivity|]. repeat split; cbn; assumption. }
  destruct (download_table_csv fuel (api P) table_name api_key (mkdtemp P (host s'))
              (host s')) as [[csv_file_path w]|]; [|exact I].
  destruct (truthy_path csv_file_path) eqn:Hp; cbn [negb].
  2:{ split; [reflexivity|]. repeat split; cbn; assumption. }
  cbn [host on_host].
  destruct (files w !! default [] csv_file_path) as [data|].
  2:{ split; [reflexivity|]. repeat split; cbn; assumption. }
  destruct (getsize data =? 0).
  { split; [reflexivity|]. repeat split; cbn; assumption. }
  unfold upload_step. rewrite Hp. cbn [negb andb].
  destruct (make_azure_config table_name config) as [e|a].
  { split; [reflexivity|]. repeat split; cbn; assumption. }
  match goal with
  | |- context [upload_to_azure_blob P a ?p ?x] =>
      match goal with
      | |- context [upload_to_azure_blob P a p ?y] =>
          lazymatch x with
          | y => fail
          | _ => pose proof (upload_to_azure_blob_same P a p x y) as Hs;
                 destruct (upload_to_azure_blob P a p x) as [r1 s1];
                 destruct (upload_to_azure_blob P a p y) as [r2 s2]
          end
      end
  end.
  cbn [fst snd] in Hs. destruct Hs as [<- (H1 & H2 & H3 & H4)];
    [repeat split; cbn; assumption|].
  destruct r1 as [e|[|]]; cbn [negb].
  - split; [reflexivity|]. repeat split; cbn; congruence.
  - split; [exists a; split; reflexivity|]. repeat split; cbn; congruence.
  - split; [reflexivity|]. repeat split; cbn; congruence.
Qed.

Lemma archive_load_agrees (P : platform) (table_name : pystr) (config : config_dict)
  (a : options) (s s' : system) :
  same_effects s s' ->
  make_azure_config table_name config = inr a ->
  fst (Archive.snowflake_load P table_name config s)
  = fst (load_step P table_name config (Some a) s')
  /\ same_effects (snd (Archive.snowflake_load P table_name config s))
       (snd (load_step P table_name config (Some a) s')).
Proof.
  intros (Hh & Hb & Hx & Hc) Ha. unfold Archive.snowflake_load, load_step.
  cbn [host info emit]. rewrite Hh, Ha.
  destruct (has_key _ (files (host s'))); cbn [negb fst snd].
  2:{ split; [reflexivity|]. repeat split; cbn; assumption. }
  destruct (truthy_section config (py "Snowflake")); cbn [negb fst snd].
  2:{ split; [reflexivity|]. repeat split; cbn; assumption. }
  cbn [and_then].
  destruct (make_snowflake_config table_name config) as [e|sc]; cbn [and_then fst snd].
  { split; [reflexivity|]. repeat split; cbn; assumption. }
  match goal with
  | |- context [load_data_to_snowflake P sc a ?p ?x] =>
      match goal with
      | |- context [load_data_to_snowflake P sc a p ?y] =>
          lazymatch x with
          | y => fail
          | _ => pose proof (load_data_to_snowflake_same P sc a p x y) as Hs;
                 destruct (load_data_to_snowflake P sc a p x) as [r1 s1];
                 destruct (load_data_to_snowflake P sc a p y) as [r2 s2]
          end
      end
  end.
  cbn [fst snd] in Hs. destruct Hs as [<- (H1 & H2 & H3 & H4)];
    [repeat split; cbn; assumption|].
  destruct r1; cbn [fst snd]; (split; [reflexivity|]); repeat split; cbn; congruence.
Qed.

(** * Properties of the code beyond the specification *)

(** X1. The pagination step of [fetch_prospect_ids_from_activities]
    returns the URL of the first link written [<URL>;], optional
    whitespace, [rel=] and [next] in double quotes, when the text before
    it is made of complete links without [next]; every URL it returns
    stands in the header in that form; it finds no next URL when the header
    is absent, lacks the double-quoted token, or has no [>] directly
    followed by [;] (whitespace before the semicolon is not accepted). *)
Theorem X1_prospects_cursor :
  (forall pre url ws rest,
      str_in (py "next") pre = false -> brackets_closed pre = true ->
      url <> [] -> ~ In ">"%char url -> forallb isspace ws = true ->
      prospects_next_url (Some (pre ++ py "<" ++ url ++ py ">;" ++ ws ++ REL_NEXT ++ rest))
      = Some url)
  /\ (forall h u,
        prospects_next_url (Some h) = Some u ->
        exists pre ws rest,
          h = pre ++ py "<" ++ u ++ py ">;" ++ ws ++ REL_NEXT ++ rest
          /\ u <> [] /\ ~ In ">"%char u /\ forallb isspace ws = true)
  /\ (forall h,
        str_in REL_NEXT h = false \/ str_in (py ">;") h = false ->
        prospects_next_url (Some h) = None)
  /\ prospects_next_url None = None.
Proof.
  split; [exact prospects_next_url_complete|].
  split; [exact prospects_next_url_sound|].
  split; [exact prospects_next_url_needs|reflexivity].
Qed.

(** A space before the semicolon: the token is there, the link is not
    followed. *)
Lemma X1_prospects_cursor_witness :
  prospects_next_url (Some (py "<https://x/y?cursor=abc> ; " ++ REL_NEXT)) = None.
Proof.
  apply (proj1 (proj2 (proj2 X1_prospects_cursor))). right. reflexivity.
Defined.

Lemma next_header_shape url ws rest :
  py "<" ++ url ++ py ">;" ++ ws ++ REL_NEXT ++ rest
  = [] ++ py "<" ++ url ++ py ">" ++ [] ++ py ";" ++ ws ++ py "rel=" ++ [DQUOTE]
    ++ py "next" ++ [DQUOTE] ++ rest.
Proof. unfold REL_NEXT. cbn [py list_ascii_of_string app]. app_norm. reflexivity. Qed.

(** X2. On a header that starts with [<URL>;], optional whitespace and
    the double-quoted token [rel=], quote, [next], quote — the form the
    server sends — the three extractions of the repository agree: each
    returns the URL, for every non-empty URL free of angle brackets and
    semicolons. *)
Theorem X2_cursor_variants_agree url ws rest :
  url <> [] ->
  ~ In "<"%char url -> ~ In ">"%char url -> ~ In ";"%char url ->
  forallb isspace ws = true ->
  _get_next_page_url (Some (py "<" ++ url ++ py ">;" ++ ws ++ REL_NEXT ++ rest)) = Some url
  /\ export_next_url (Some (py "<" ++ url ++ py ">;" ++ ws ++ REL_NEXT ++ rest)) = Some url
  /\ prospects_next_url (Some (py "<" ++ url ++ py ">;" ++ ws ++ REL_NEXT ++ rest))
     = Some url.
Proof.
  intros Hne Hlt Hgt Hsc Hws. split; [|split].
  - rewrite next_header_shape.
    apply (next_page_url_complete [] url [] ws [DQUOTE] ([DQUOTE] ++ rest));
      try reflexivity; try assumption.
    right. left. reflexivity.
  - apply export_next_url_link; assumption.
  - apply (prospects_next_url_complete [] url ws rest); try reflexivity; assumption.
Qed.

(** The header of the source's comment. *)
Lemma X2_cursor_variants_agree_witness :
  _get_next_page_url
    (Some (py "<" ++ PAGE2 ++ py ">;" ++ py " " ++ REL_NEXT ++ [])) = Some PAGE2
  /\ export_next_url
       (Some (py "<" ++ PAGE2 ++ py ">;" ++ py " " ++ REL_NEXT ++ [])) = Some PAGE2
  /\ prospects_next_url
       (Some (py "<" ++ PAGE2 ++ py ">;" ++ py " " ++ REL_NEXT ++ [])) = Some PAGE2.
Proof.
  apply (X2_cursor_variants_agree PAGE2 (py " ") []).
  - discriminate.
  - apply forallb_not_char. reflexivity.
  - apply forallb_not_char. reflexivity.
  - apply forallb_not_char. reflexivity.
  - reflexivity.
Defined.

(** X3. On a well-formed chain of activity pages,
    [fetch_prospect_ids_from_activities] completes; its first request
    carries the limit and the later ones follow the Link headers without
    parameters, in order; the list it returns has no duplicate and holds
    exactly the [record_id]s of the activities, on any page of the chain,
    whose [record_type] is [Prospect] and whose [record_id] is truthy. *)
Theorem X3_prospects_on_chain srv api_token records_per_page pages r rest fuel w :
  pages = (PROSPECTS_API_BASE_URL ++ py "/activities", r) :: rest ->
  prospects_chain srv api_token (Some records_per_page) pages ->
  (length pages <= fuel)%nat ->
  exists ids w',
    fetch_prospect_ids_from_activities fuel srv api_token records_per_page w
    = Some (ids, w')
    /\ sent w' = sent w ++ prospects_requests api_token (Some records_per_page) pages
    /\ List.NoDup ids
    /\ forall x,
         In x ids
         <-> exists p a, In p pages /\ In a (page_activities (snd p))
                         /\ is_prospect a = true /\ dict_get (record_id a) = x.
Proof.
  intros E HC HF. unfold fetch_prospect_ids_from_activities.
  destruct (prospects_loop_chain srv api_token pages _ r rest (Some records_per_page) fuel 1
              ∅ (logging INFO StartingProspects w) E HC HF) as (w' & Hrun & Hsent).
  rewrite Hrun. eexists. eexists. split; [reflexivity|].
  split; [exact Hsent|]. split; [apply NoDup_ListNoDup, NoDup_elements|].
  intros x. rewrite <- list_elem_of_In, elem_of_elements, collect_pages_spec.
  split; [intros [H|H]; [apply not_elem_of_empty in H; contradiction|exact H]|].
  intros H. right. exact H.
Qed.

(** The two pages of [prospects_two_pages]: 7 comes twice, 8 belongs to a
    resident and 0 is falsy. *)
Lemma X3_prospects_on_chain_witness :
  exists ids w',
    fetch_prospect_ids_from_activities 2 prospects_two_pages (py "token") 10000 empty_world
    = Some (ids, w')
    /\ sent w'
       = sent empty_world
         ++ [json_request (py "token") prospects_url (Some 10000);
             json_request (py "token") PAGE2 None]
    /\ List.NoDup ids
    /\ forall x,
         In x ids
         <-> exists p a,
               In p [(prospects_url,
                      Response 200 []
                        (Some (next_header PAGE2))
                        (Some [prospect 7;
                               Activity (Some (JStr (py "Resident"))) (Some (JInt 8));
                               prospect 0]));
                     (PAGE2, Response 200 [] None (Some [prospect 7; prospect 9]))]
               /\ In a (page_activities (snd p))
               /\ is_prospect a = true /\ dict_get (record_id a) = x.
Proof.
  apply (X3_prospects_on_chain prospects_two_pages (py "token") 10000
           [(prospects_url,
             Response 200 [] (Some (next_header PAGE2))
               (Some [prospect 7;
                      Activity (Some (JStr (py "Resident"))) (Some (JInt 8));
                      prospect 0]));
            (PAGE2, Response 200 [] None (Some [prospect 7; prospect 9]))]
           _ _ 2%nat empty_world eq_refl).
  - cbn [prospects_chain]. repeat split; try (vm_compute; reflexivity); discriminate.
  - cbn [length]. lia.
Defined.



(** X5. Whatever the server answers and however the run ends,
    [download_table_csv] changes no file but the one it opens,
    [temp_dir/table_name.csv], and the two ID fetches change no file at
    all. *)
Theorem X5_files_untouched :
  (forall fuel srv table_name key temp_dir w res w' p,
      download_table_csv fuel srv table_name key temp_dir w = Some (res, w') ->
      p <> path_join temp_dir (table_name ++ py ".csv") ->
      files w' !! p = files w !! p)
  /\ (forall (cell : Type) (read_csv : pystr -> option (list (pystr * list (option cell))))
             fuel srv api_token table_name records_per_page w ids w',
        fetch_all_ids_from_api cell read_csv fuel srv api_token table_name
          records_per_page w = Some (ids, w') ->
        files w' = files w)
  /\ (forall fuel srv api_token records_per_page w ids w',
        fetch_prospect_ids_from_activities fuel srv api_token records_per_page w
        = Some (ids, w') ->
        files w' = files w).
Proof.
  split; [|split].
  - intros fuel srv table key dir w res w' p H Hp.
    exact (download_table_csv_other _ _ _ _ _ _ _ _ _ H Hp).
  - intros cell read_csv fuel srv tok table rpp w ids w' H.
    unfold fetch_all_ids_from_api in H. apply fetch_ids_loop_files in H. exact H.
  - intros fuel srv tok rpp w ids w' H. unfold fetch_prospect_ids_from_activities in H.
    destruct (prospects_loop _ _ _ _ _ _ _ _) as [[s v]|] eqn:E; [|discriminate].
    apply prospects_loop_files in E. inversion H; subst. exact E.
Qed.

(** A download into [/tmp] leaves [/etc/hosts] as it was. *)
Lemma X5_files_untouched_witness :
  exists res w',
    download_table_csv 2 two_csv_pages (py "Units") (py "key") (py "/tmp")
      (World {[ py "/etc/hosts" := py "localhost" ]} [] [])
    = Some (res, w')
    /\ files w' !! py "/etc/hosts" = Some (py "localhost").
Proof.
  destruct (download_table_csv 2 two_csv_pages (py "Units") (py "key") (py "/tmp")
              (World {[ py "/etc/hosts" := py "localhost" ]} [] []))
    as [[res w']|] eqn:E; [|vm_compute in E; discriminate E].
  exists res, w'. split; [reflexivity|].
  rewrite (proj1 X5_files_untouched _ _ _ _ _ _ _ _ (py "/etc/hosts") E).
  - reflexivity.
  - discriminate.
Defined.

(** X6. A non-empty list returned by [fetch_all_ids_from_api] is always
    the whole dataset of a well-formed chain that starts at the table's
    URL: every request was answered without a transport error, no body was
    blank, every body parsed, the last page gave no next URL, and the list
    is the ids of the pages in order. A run cut short by an error never
    returns ids. *)
Theorem X6_nonempty_result_is_complete (cell : Type)
  (read_csv : pystr -> option (list (pystr * list (option cell))))
  fuel srv api_token table_name records_per_page w ids w' :
  fetch_all_ids_from_api cell read_csv fuel srv api_token table_name records_per_page w
  = Some (ids, w') ->
  ids <> [] ->
  exists r rest idss,
    link_chain srv (fun u => json_request api_token u None) export_next_url
      ((EXPORT_API_BASE_URL ++ py "/" ++ table_name ++ py "?limit="
        ++ str_of_Z records_per_page, r) :: rest)
    /\ Forall2 (fun p ids0 => truthy_str (strip (text (snd p))) = true
                              /\ ids_of_page read_csv table_name (text (snd p)) = Some ids0)
         ((EXPORT_API_BASE_URL ++ py "/" ++ table_name ++ py "?limit="
           ++ str_of_Z records_per_page, r) :: rest) idss
    /\ ids = concat idss
    /\ sent w'
       = sent w
         ++ map (fun p => json_request api_token (fst p) None)
              ((EXPORT_API_BASE_URL ++ py "/" ++ table_name ++ py "?limit="
                ++ str_of_Z records_per_page, r) :: rest).
Proof.
  intros H Hne. unfold fetch_all_ids_from_api in H.
  apply fetch_ids_loop_complete in H as (pages & idss & Hstart & HC & HP & Hids & Hsent);
    [|exact Hne].
  destruct pages as [|[u r] rest].
  - inversion HP; subst. cbn in Hne. congruence.
  - inversion Hstart; subst u. exists r, rest, idss.
    split; [exact HC|]. split; [exact HP|]. split; [exact Hids|exact Hsent].
Qed.

(** The run against [two_id_pages] returns three ids. *)
Lemma X6_nonempty_result_is_complete_witness :
  exists ids w' r rest idss,
    fetch_all_ids_from_api pystr one_column_csv 3 two_id_pages (py "token") (py "Units")
      10000 empty_world = Some (ids, w')
    /\ link_chain two_id_pages (fun u => json_request (py "token") u None) export_next_url
         ((export_url (py "Units"), r) :: rest)
    /\ ids = concat idss
    /\ length idss = 2%nat.
Proof.
  destruct (fetch_all_ids_from_api pystr one_column_csv 3 two_id_pages (py "token")
              (py "Units") 10000 empty_world) as [[ids w']|] eqn:E;
    [|vm_compute in E; discriminate E].
  assert (Hne : ids <> []).
  { intros ->. vm_compute in E. discriminate E. }
  destruct (X6_nonempty_result_is_complete _ _ _ _ _ _ _ _ _ _ E Hne)
    as (r & rest & idss & HC & HP & Hids & Hsent).
  exists ids, w', r, rest, idss. split; [reflexivity|]. split; [exact HC|].
  split; [exact Hids|].
  apply Forall2_length in HP. rewrite <- HP.
  apply (f_equal (@length _)) in Hsent. rewrite length_app, length_map in Hsent.
  assert (Hl : length (sent w') = 2%nat).
  { vm_compute in E. inversion E. reflexivity. }
  rewrite Hl in Hsent. cbn [sent empty_world length] in Hsent. cbn [length]. lia.
Defined.

(** X7. [to_snake_case] and [camel_to_snake_case] return the name in
    lower case with underscores inserted and nothing else changed: no
    character is dropped or moved, so that, underscores apart, the result
    is [name.lower()], and it is never shorter than the name. *)
Theorem X7_snake_case_inserts_underscores name :
  underscored (lower name) (to_snake_case name)
  /\ List.filter (not_char "_") (to_snake_case name)
     = List.filter (not_char "_") (lower name)
  /\ (length name <= length (to_snake_case name))%nat
  /\ camel_to_snake_case name = to_snake_case name.
Proof.
  pose proof (to_snake_case_underscored name) as H.
  split; [exact H|]. split; [exact (underscored_filter _ _ H)|].
  split; [|reflexivity].
  apply underscored_length in H. unfold lower in H. rewrite length_map in H. exact H.
Qed.

(** X8. A name without a capital letter A-Z is only put in lower case
    by [to_snake_case], no underscore is added; hence converting a
    converted name changes nothing. *)
Theorem X8_snake_case_idempotent name :
  no_capital name ->
  to_snake_case name = lower name
  /\ to_snake_case (to_snake_case name) = to_snake_case name
  /\ camel_to_snake_case (camel_to_snake_case name) = camel_to_snake_case name.
Proof.
  intros H. split; [exact (to_snake_case_no_capital name H)|].
  split; apply to_snake_case_idem.
Qed.

(** The name of a table once converted. *)
Lemma X8_snake_case_idempotent_witness :
  to_snake_case (py "deposit_transactions") = lower (py "deposit_transactions")
  /\ to_snake_case (to_snake_case (py "deposit_transactions"))
     = to_snake_case (py "deposit_transactions")
  /\ camel_to_snake_case (camel_to_snake_case (py "deposit_transactions"))
     = camel_to_snake_case (py "deposit_transactions").
Proof. apply X8_snake_case_idempotent. reflexivity. Defined.

(** X9. A configuration that [load_config] returns has the API key of
    the environment variable WELCOME_HOME_API_KEY, which is not empty,
    whatever the file says; each of the seven Snowflake fields is present
    and not empty; SNOWFLAKE_PASSWORD and AZURE_CONNECTION_STRING, when
    set, replace the file's password and connection string; and every
    other entry is the file's. *)
Theorem X9_loaded_config (P : platform) (path : pystr) (s s' : system) (c : config_dict) :
  load_config P path s = (inr c, s') ->
  exists file,
    read_ini P path = Sections file
    /\ (exists key, environ P !! py "WELCOME_HOME_API_KEY" = Some key /\ key <> []
                    /\ getitem2 c (py "WelcomeHome") (py "api_key") = inr key)
    /\ Forall (fun field => exists v, getitem2 c (py "Snowflake") field = inr v /\ v <> [])
         REQUIRED_SNOWFLAKE_FIELDS
    /\ (forall v, environ P !! py "SNOWFLAKE_PASSWORD" = Some v ->
                  getitem2 c (py "Snowflake") (py "password") = inr v)
    /\ (forall v, environ P !! py "AZURE_CONNECTION_STRING" = Some v ->
                  getitem2 c (py "Azure") (py "connection_string") = inr v)
    /\ (forall section key,
          (section, key) <> (py "Azure", py "connection_string") ->
          (section, key) <> (py "WelcomeHome", py "api_key") ->
          (section, key) <> (py "Snowflake", py "password") ->
          getitem2 c section key = getitem2 file section key).
Proof.
  intros H. apply load_config_ok in H
    as (file & Hread & HA & HS & HW & -> & HK & HF & _).
  exists file. split; [exact Hread|].
  assert (HA1 : has_key (py "Azure")
                  match environ P !! py "AZURE_CONNECTION_STRING" with
                  | Some v => setitem2 (py "Azure") (py "connection_string") v file
                  | None => file
                  end = true).
  { destruct (environ P !! py "AZURE_CONNECTION_STRING");
      [rewrite setitem2_has_key|]; exact HA. }
  assert (HW1 : has_key (py "WelcomeHome")
                  match environ P !! py "AZURE_CONNECTION_STRING" with
                  | Some v => setitem2 (py "Azure") (py "connection_string") v file
                  | None => file
                  end = true).
  { destruct (environ P !! py "AZURE_CONNECTION_STRING");
      [rewrite setitem2_has_key|]; exact HW. }
  assert (HS1 : has_key (py "Snowflake")
                  match environ P !! py "AZURE_CONNECTION_STRING" with
                  | Some v => setitem2 (py "Azure") (py "connection_string") v file
                  | None => file
                  end = true).
  { destruct (environ P !! py "AZURE_CONNECTION_STRING");
      [rewrite setitem2_has_key|]; exact HS. }
  split; [|split; [|split; [|split]]].
  - assert (E : getitem2 (overridden P file) (py "WelcomeHome") (py "api_key")
                = inr (default [] (environ P !! py "WELCOME_HOME_API_KEY"))).
    { unfold overridden. rewrite getitem2_setitem2_other by str_neq.
      apply getitem2_setitem2_same. exact HW1. }
    rewrite (getitem2_truthy_get2 _ _ _ _ E) in HK.
    destruct (environ P !! py "WELCOME_HOME_API_KEY") as [key|]; cbn in HK; [|discriminate].
    exists key. split; [reflexivity|]. split; [|exact E].
    intros ->. discriminate.
  - apply Forall_forall. intros field Hin. apply list_elem_of_In in Hin.
    assert (Ht : truthy_get (default ∅ (overridden P file !! py "Snowflake")) field = true).
    { destruct (truthy_get _ field) eqn:Ht; [reflexivity|].
      assert (Hin' : In field
                (List.filter (fun field => negb (truthy_get
                     (default ∅ (overridden P file !! py "Snowflake")) field))
                   REQUIRED_SNOWFLAKE_FIELDS)).
      { apply filter_In. split; [exact Hin|]. rewrite Ht. reflexivity. }
      rewrite HF in Hin'. destruct Hin'. }
    apply truthy_get2_getitem2 in Ht as (v & Hv & Hne).
    exists v. split; [exact Hv|]. intros ->. discriminate.
  - intros v Hv. unfold overridden. rewrite Hv. cbn [default from_option id].
    apply getitem2_setitem2_same. rewrite setitem2_has_key. exact HS1.
  - intros v Hv. unfold overridden. rewrite Hv.
    rewrite !getitem2_setitem2_other by str_neq.
    apply getitem2_setitem2_same. exact HA.
  - intros section key H1 H2 H3. unfold overridden.
    rewrite !getitem2_setitem2_other by congruence.
    destruct (environ P !! py "AZURE_CONNECTION_STRING"); [|reflexivity].
    apply getitem2_setitem2_other. congruence.
Qed.

(** The file gives a key, a password and a connection string of its own,
    and the environment others. *)
Lemma X9_loaded_config_witness :
  exists file,
    read_ini lab (config_path lab) = Sections file
    /\ (exists key, environ lab !! py "WELCOME_HOME_API_KEY" = Some key /\ key <> []
                    /\ getitem2 lab_config (py "WelcomeHome") (py "api_key") = inr key)
    /\ Forall (fun field => exists v, getitem2 lab_config (py "Snowflake") field = inr v
                                      /\ v <> [])
         REQUIRED_SNOWFLAKE_FIELDS
    /\ (forall v, environ lab !! py "SNOWFLAKE_PASSWORD" = Some v ->
                  getitem2 lab_config (py "Snowflake") (py "password") = inr v)
    /\ (forall v, environ lab !! py "AZURE_CONNECTION_STRING" = Some v ->
                  getitem2 lab_config (py "Azure") (py "connection_string") = inr v)
    /\ (forall section key,
          (section, key) <> (py "Azure", py "connection_string") ->
          (section, key) <> (py "WelcomeHome", py "api_key") ->
          (section, key) <> (py "Snowflake", py "password") ->
          getitem2 lab_config section key = getitem2 file section key).
Proof.
  apply (X9_loaded_config lab (config_path lab) lab_system
           (info (py "Configuration loaded successfully") lab_system)).
  vm_compute. reflexivity.
Defined.

(** X10. The API key comes from the environment only: when
    WELCOME_HOME_API_KEY is not set, or is empty, [load_config] raises
    and returns no configuration, also when the file has an [api_key]. *)
Theorem X10_api_key_only_from_environment (P : platform) (path : pystr) (s : system) :
  truthy_str (default [] (environ P !! py "WELCOME_HOME_API_KEY")) = false ->
  exists e, load_config P path s = (inl e, s).
Proof.
  intros H. unfold load_config.
  destruct (negb (truthy_str path)); [eauto|].
  destruct (read_ini P path) as [| |file]; [eauto|eauto|].
  cbn [List.find].
  destruct (has_key (py "Azure") file) eqn:HA; cbn [negb]; [|eauto].
  destruct (has_key (py "Snowflake") file) eqn:HS; cbn [negb]; [|eauto].
  match goal with
  | |- exists e, (if negb (has_key ?k ?m) then _ else _) = _ =>
      destruct (has_key k m) eqn:HW; cbn [negb]; [|eauto]
  end.
  match goal with
  | |- exists e, (if negb (truthy_get2 ?c ?a ?b) then _ else _) = _ =>
      assert (E : truthy_get2 c a b = false)
  end.
  { erewrite getitem2_truthy_get2; [exact H|].
    rewrite getitem2_setitem2_other by str_neq.
    apply getitem2_setitem2_same. exact HW. }
  rewrite E. cbn [negb]. eauto.
Qed.

(** The file has an [api_key] and the environment is empty. *)
Lemma X10_api_key_only_from_environment_witness :
  getitem2 lab_ini (py "WelcomeHome") (py "api_key") = inr (py "in-file")
  /\ exists e, load_config lab_no_env (config_path lab_no_env) lab_system = (inl e, lab_system).
Proof.
  split; [vm_compute; reflexivity|].
  apply X10_api_key_only_from_environment. vm_compute. reflexivity.
Defined.

(** X11. When [load_data_to_snowflake] returns [True], it has run, in
    the order of the file, exactly the pieces of the formatted SQL text
    between semicolons that are not blank, each as it stands in the text,
    and it has closed the connection it opened; the files and the blobs
    are as before. *)
Theorem X11_load_runs_every_statement (P : platform) (snowflake_config azure_config : options)
  (file_path : pystr) (s s' : system) :
  load_data_to_snowflake P snowflake_config azure_config file_path s = (true, s') ->
  exists sql,
    formatted_sql P snowflake_config azure_config file_path (host s) = inr sql
    /\ executed s' = executed s ++ List.filter runs (split ";" sql)
    /\ connections s' = connections s
    /\ blobs s' = blobs s
    /\ host s' = host s.
Proof.
  intros H. apply load_data_to_snowflake_spec in H
    as (Hh & Hb & _ & _ & Hc & sql & Hf & Hx).
  exists sql. repeat split; assumption.
Qed.

(** The file [a; b;] and a newline: two statements, the second with its
    leading space. *)
Lemma X11_load_runs_every_statement_witness :
  exists sql,
    formatted_sql lab lab_snowflake lab_azure (py "sql/units.sql") (host lab_system) = inr sql
    /\ executed (snd (load_data_to_snowflake lab lab_snowflake lab_azure
                        (py "sql/units.sql") lab_system))
       = executed lab_system ++ List.filter runs (split ";" sql)
    /\ connections (snd (load_data_to_snowflake lab lab_snowflake lab_azure
                           (py "sql/units.sql") lab_system))
       = connections lab_system
    /\ blobs (snd (load_data_to_snowflake lab lab_snowflake lab_azure
                     (py "sql/units.sql") lab_system))
       = blobs lab_system
    /\ host (snd (load_data_to_snowflake lab lab_snowflake lab_azure
                    (py "sql/units.sql") lab_system))
       = host lab_system.
Proof.
  apply (X11_load_runs_every_statement lab lab_snowflake lab_azure (py "sql/units.sql")
           lab_system).
  destruct (load_data_to_snowflake lab lab_snowflake lab_azure (py "sql/units.sql")
              lab_system) as [ok s'] eqn:E.
  cbn [snd]. replace ok with true; [reflexivity|].
  apply (f_equal fst) in E. vm_compute in E. exact E.
Defined.

(** X12. When [load_data_to_snowflake] returns [False] after the
    connection was made, the connection is left open; the last record is
    the error; and if the SQL text could be read and formatted, a statement
    was refused: the statements before it were run, it and the statements
    after it were not. *)
Theorem X12_failed_load (P : platform) (snowflake_config azure_config : options)
  (file_path : pystr) (s s' : system) :
  load_data_to_snowflake P snowflake_config azure_config file_path s = (false, s') ->
  connects P snowflake_config s = true ->
  connections s' = S (connections s)
  /\ (exists e, last (records s')
                = Some (ERROR, TextExc (py "Error loading data into Snowflake: ") e))
  /\ (forall sql,
        formatted_sql P snowflake_config azure_config file_path (host s) = inr sql ->
        exists before stmt after,
          split ";" sql = before ++ stmt :: after
          /\ runs stmt = true
          /\ executed s' = executed s ++ List.filter runs before
          /\ execute P (executed s') stmt <> None).
Proof.
  intros H Hc. apply load_data_to_snowflake_spec in H
    as (_ & _ & (more & Hm & He) & _ & Hn & Hx).
  rewrite Hc in Hn. split; [exact Hn|]. split.
  - destruct (He eq_refl) as [e Hl]. exists e. rewrite Hm.
    destruct more as [|r more]; [discriminate Hl|].
    rewrite last_app. rewrite Hl. reflexivity.
  - intros sql Hf. apply (Hx sql Hf Hc).
Qed.

(** The database refuses the second statement of the file. *)
Lemma X12_failed_load_witness :
  exists s',
    load_data_to_snowflake lab_refusing lab_snowflake lab_azure (py "sql/units.sql")
      lab_system = (false, s')
    /\ executed s' = [py "a"]
    /\ connections s' = S (connections lab_system)
    /\ (exists e, last (records s')
                  = Some (ERROR, TextExc (py "Error loading data into Snowflake: ") e))
    /\ (forall sql,
          formatted_sql lab_refusing lab_snowflake lab_azure (py "sql/units.sql")
            (host lab_system) = inr sql ->
          exists before stmt after,
            split ";" sql = before ++ stmt :: after
            /\ runs stmt = true
            /\ executed s' = executed lab_system ++ List.filter runs before
            /\ execute lab_refusing (executed s') stmt <> None).
Proof.
  destruct (load_data_to_snowflake lab_refusing lab_snowflake lab_azure
              (py "sql/units.sql") lab_system) as [ok s'] eqn:E.
  assert (Hok : ok = false) by (apply (f_equal fst) in E; vm_compute in E; congruence).
  subst ok. exists s'. split; [reflexivity|].
  split; [apply (f_equal snd) in E; apply (f_equal executed) in E; vm_compute in E;
          symmetry; exact E|].
  apply (X12_failed_load lab_refusing lab_snowflake lab_azure (py "sql/units.sql")
           lab_system s' E).
  vm_compute. reflexivity.
Defined.

(** X13. Without step 3, [process_table] never returns [True]: with
    [snowflake_load=False] it returns [False], or [None] when the other
    steps went through, so that a caller that tests the result takes the
    table as failed; and it runs no SQL statement and opens no connection. *)
Theorem X13_no_load_no_success (fuel : nat) (P : platform) (table_name : pystr)
  (config : config_dict) (api_download blob_upload : bool) (s s' : system)
  (r : exception + option bool) :
  process_table fuel P table_name config api_download blob_upload false s = Some (r, s') ->
  r <> inr (Some true)
  /\ executed s' = executed s
  /\ connections s' = connections s.
Proof.
  intros H. apply process_table_spec in H as (_ & _ & _ & Hx & Hr).
  split; [|apply Hx; reflexivity].
  intros ->. destruct Hr as [Hr _]. discriminate Hr.
Qed.

(** Download and upload go through, and the result is [None]. *)
Lemma X13_no_load_no_success_witness :
  exists s',
    process_table 3 lab (py "Units") lab_config true true false lab_system
    = Some (inr None, s')
    /\ inr None <> (inr (Some true) : exception + option bool)
    /\ executed s' = executed lab_system
    /\ connections s' = connections lab_system.
Proof.
  destruct (process_table 3 lab (py "Units") lab_config true true false lab_system)
    as [[r s']|] eqn:E.
  2:{ apply (f_equal returned) in E. vm_compute in E. discriminate E. }
  assert (Hr : r = inr None).
  { apply (f_equal returned) in E. vm_compute in E. destruct r as [|[[|]|]]; congruence. }
  subst r. exists s'. split; [reflexivity|].
  apply (X13_no_load_no_success 3 lab (py "Units") lab_config true true lab_system s'
           (inr None) E).
Defined.

(** X14. Upload without download always fails: with
    [api_download=False] and [blob_upload=True], [process_table] returns
    [False] and logs the error, whatever [snowflake_load] is; it sends no
    request, writes no blob, and step 3 is not reached. *)
Theorem X14_upload_needs_download (fuel : nat) (P : platform) (table_name : pystr)
  (config : config_dict) (snowflake_load : bool) (s : system) :
  exists s',
    process_table fuel P table_name config false true snowflake_load s
    = Some (inr (Some false), s')
    /\ last (records s')
       = Some (ERROR, Text (py "Cannot upload to blob without first downloading CSV. Enable api_download=True."))
    /\ blobs s' = blobs s
    /\ executed s' = executed s
    /\ connections s' = connections s
    /\ sent (host s') = sent (host s).
Proof.
  eexists. split; [reflexivity|]. cbn. repeat split; try reflexivity.
  apply last_snoc.
Qed.

(** X15. When the download fails, that is [download_table_csv] returns
    [None], [process_table] logs the failure and returns [False] at once,
    whatever the other flags are: no blob is written, no SQL statement is
    run, and no request is sent beyond those of the download. *)
Theorem X15_failed_download_stops_the_table (fuel : nat) (P : platform) (table_name : pystr)
  (config : config_dict) (blob_upload snowflake_load : bool) (api_key : pystr)
  (w : world) (s : system) :
  getitem2 config (py "WelcomeHome") (py "api_key") = inr api_key ->
  download_table_csv fuel (api P) table_name api_key (mkdtemp P (host s)) (host s)
  = Some (None, w) ->
  exists s',
    process_table fuel P table_name config true blob_upload snowflake_load s
    = Some (inr (Some false), s')
    /\ last (records s')
       = Some (ERROR, Text (py "Failed to download CSV from API for table: "
                            ++ colorize_table_name table_name))
    /\ blobs s' = blobs s
    /\ executed s' = executed s
    /\ connections s' = connections s
    /\ sent (host s') = sent w.
Proof.
  intros Hk Hd. unfold process_table. cbn [orb].
  unfold in_temporary_directory, download_step. cbn [host info emit].
  rewrite Hk, Hd. cbn [truthy_path negb].
  eexists. split; [reflexivity|]. cbn. repeat split; try reflexivity.
  apply last_snoc.
Qed.

(** The second page of Units does not answer. *)
Lemma X15_failed_download_stops_the_table_witness :
  exists w s',
    download_table_csv 3 (api lab_offline) (py "Units") (py "k")
      (mkdtemp lab_offline (host lab_system)) (host lab_system) = Some (None, w)
    /\ process_table 3 lab_offline (py "Units") lab_config true true true lab_system
       = Some (inr (Some false), s')
    /\ last (records s')
       = Some (ERROR, Text (py "Failed to download CSV from API for table: "
                            ++ colorize_table_name (py "Units")))
    /\ blobs s' = blobs lab_system
    /\ executed s' = executed lab_system
    /\ connections s' = connections lab_system
    /\ sent (host s') = sent w.
Proof.
  destruct (download_table_csv 3 (api lab_offline) (py "Units") (py "k")
              (mkdtemp lab_offline (host lab_system)) (host lab_system))
    as [[res w]|] eqn:E.
  2:{ apply (f_equal (option_map fst)) in E. vm_compute in E. discriminate E. }
  assert (Hr : res = None).
  { apply (f_equal (option_map fst)) in E. vm_compute in E. congruence. }
  subst res. exists w.
  destruct (X15_failed_download_stops_the_table 3 lab_offline (py "Units") lab_config
              true true (py "k") w lab_system) as [s' H].
  - vm_compute. reflexivity.
  - exact E.
  - exists s'. split; [reflexivity|exact H].
Defined.

(** X16. When [process_table] returns [True] after its three steps, the
    download gave a file that is not empty, the blob of the table holds
    exactly the content of that file, the statements of the table's SQL
    file that are not blank were all run, in order, and the connection
    was closed. *)
Theorem X16_success_means_all_steps (fuel : nat) (P : platform) (table_name : pystr)
  (config : config_dict) (s s' : system) :
  process_table fuel P table_name config true true true s = Some (inr (Some true), s') ->
  exists api_key path w data blob snowflake_config a sql,
    getitem2 config (py "WelcomeHome") (py "api_key") = inr api_key
    /\ download_table_csv fuel (api P) table_name api_key (mkdtemp P (host s)) (host s)
       = Some (Some path, w)
    /\ files w !! path = Some data
    /\ data <> []
    /\ table_blob config table_name = Some blob
    /\ blobs s' = <[blob := data]> (blobs s)
    /\ make_snowflake_config table_name config = inr snowflake_config
    /\ make_azure_config table_name config = inr a
    /\ formatted_sql P snowflake_config a
         (sql_path P (camel_to_snake_case table_name ++ py ".sql"))
         (World (rmtree P (mkdtemp P (host s)) (files w)) (log w) (sent w)) = inr sql
    /\ executed s' = executed s ++ List.filter runs (split ";" sql)
    /\ connections s' = connections s.
Proof.
  intros H. apply process_table_true in H
    as (api_key & path & w & data & blob & sc & a & sql & H).
  exists api_key, path, w, data, blob, sc, a, sql. intuition.
Qed.

(** The three steps for Units in [lab]. *)
Lemma X16_success_means_all_steps_witness :
  exists s' api_key path w data blob snowflake_config a sql,
    process_table 3 lab (py "Units") lab_config true true true lab_system
    = Some (inr (Some true), s')
    /\ getitem2 lab_config (py "WelcomeHome") (py "api_key") = inr api_key
    /\ download_table_csv 3 (api lab) (py "Units") api_key (mkdtemp lab (host lab_system))
         (host lab_system) = Some (Some path, w)
    /\ files w !! path = Some data
    /\ data <> []
    /\ table_blob lab_config (py "Units") = Some blob
    /\ blobs s' = <[blob := data]> (blobs lab_system)
    /\ make_snowflake_config (py "Units") lab_config = inr snowflake_config
    /\ make_azure_config (py "Units") lab_config = inr a
    /\ formatted_sql lab snowflake_config a
         (sql_path lab (camel_to_snake_case (py "Units") ++ py ".sql"))
         (World (rmtree lab (mkdtemp lab (host lab_system)) (files w)) (log w) (sent w))
       = inr sql
    /\ executed s' = executed lab_system ++ List.filter runs (split ";" sql)
    /\ connections s' = connections lab_system.
Proof.
  destruct (process_table 3 lab (py "Units") lab_config true true true lab_system)
    as [[r s']|] eqn:E.
  2:{ apply (f_equal returned) in E. vm_compute in E. discriminate E. }
  assert (Hr : r = inr (Some true)).
  { apply (f_equal returned) in E. vm_compute in E. destruct r as [|[[|]|]]; congruence. }
  subst r.
  destruct (X16_success_means_all_steps 3 lab (py "Units") lab_config lab_system s' E)
    as (api_key & path & w & data & blob & sc & a & sql & H).
  exists s', api_key, path, w, data, blob, sc, a, sql. split; [reflexivity|exact H].
Defined.



(** X18. [process_table] never fails in silence: whenever it returns
    [False], it has logged a record of level ERROR or WARNING. *)
Theorem X18_failure_is_reported (fuel : nat) (P : platform) (table_name : pystr)
  (config : config_dict) (api_download blob_upload snowflake_load : bool) (s s' : system) :
  process_table fuel P table_name config api_download blob_upload snowflake_load s
  = Some (inr (Some false), s') ->
  exists before r after,
    records s' = records s ++ before ++ r :: after
    /\ (fst r = ERROR \/ fst r = WARNING).
Proof.
  intros H. apply process_table_spec in H as (_ & _ & _ & _ & (b & r & a & Hr & Hp)).
  exists b, r, a. split; [exact Hr|].
  destruct r as [[| | |] n]; cbn in Hp; try discriminate; auto.
Qed.

(** The database refuses a statement of the SQL file of Units. *)
Lemma X18_failure_is_reported_witness :
  exists s' before r after,
    process_table 3 lab_refusing (py "Units") lab_config true true true lab_system
    = Some (inr (Some false), s')
    /\ records s' = records lab_system ++ before ++ r :: after
    /\ (fst r = ERROR \/ fst r = WARNING).
Proof.
  destruct (process_table 3 lab_refusing (py "Units") lab_config true true true lab_system)
    as [[r s']|] eqn:E.
  2:{ apply (f_equal returned) in E. vm_compute in E. discriminate E. }
  assert (Hr : r = inr (Some false)).
  { apply (f_equal returned) in E. vm_compute in E. destruct r as [|[[|]|]]; congruence. }
  subst r.
  destruct (X18_failure_is_reported 3 lab_refusing (py "Units") lab_config true true true
              lab_system s' E) as (b & r & a & H).
  exists s', b, r, a. split; [reflexivity|exact H].
Defined.

(** X19. [main] returns 0 only after every table of [TABLES] went
    through the three steps: the configuration was loaded, and for each
    table the blob [<table in lower case>.csv] is in the container of the
    configuration when [main] ends. *)
Theorem X19_exit_zero_means_all_tables (fuel : nat) (P : platform) (s s' : system) :
  main fuel P s = Some (0, s') ->
  exists config,
    fst (load_config P (config_path P) s) = inr config
    /\ forall t, In t TABLES ->
         exists blob, table_blob config t = Some blob /\ is_Some (blobs s' !! blob).
Proof.
  unfold main. intros H.
  set (s0 := info (rule 100) (info (py "WELCOME HOME DATA EXPORT PIPELINE STARTING")
                                (info (rule 100) s))) in H.
  rewrite (load_config_any P (config_path P) s s0).
  destruct (load_config P (config_path P) s0) as [[e|config] s1]; [discriminate|].
  exists config. split; [reflexivity|].
  destruct (negb (truthy_get2 config (py "WelcomeHome") (py "api_key"))); [discriminate|].
  destruct (negb (truthy_get2 config (py "Azure") (py "connection_string"))); [discriminate|].
  destruct (negb (truthy_section config (py "Snowflake"))); [discriminate|].
  destruct (process_tables fuel P config TABLES [] [] s1) as [[[ok bad] s2]|] eqn:Hl;
    [|discriminate].
  apply process_tables_spec in Hl as (_ & _ & ok' & bad' & Eok & Ebad & Hperm & Hok & _).
  cbn [app] in Eok, Ebad. subst ok' bad'.
  destruct bad as [|b bad]; [|discriminate].
  rewrite app_nil_r in Hperm.
  assert (Hb : blobs s' = blobs s2).
  { destruct ok; injection H as <-; reflexivity. }
  intros t Ht. rewrite Hb. apply Hok.
  apply (Permutation_in _ (Permutation_sym Hperm)). exact Ht.
Qed.

(** Every service answers for the four tables. *)
Lemma X19_exit_zero_means_all_tables_witness :
  exists s' config,
    main 2 lab_all lab_all_system = Some (0, s')
    /\ fst (load_config lab_all (config_path lab_all) lab_all_system) = inr config
    /\ forall t, In t TABLES ->
         exists blob, table_blob config t = Some blob /\ is_Some (blobs s' !! blob).
Proof.
  destruct (main 2 lab_all lab_all_system) as [[code s']|] eqn:E.
  2:{ apply (f_equal (option_map fst)) in E. vm_compute in E. discriminate E. }
  assert (Hc : code = 0).
  { apply (f_equal (option_map fst)) in E. vm_compute in E. congruence. }
  subst code.
  destruct (X19_exit_zero_means_all_tables 2 lab_all lab_all_system s' E) as [config H].
  exists s', config. split; [reflexivity|exact H].
Defined.

(** X20. The exit code of [main] is 0 or 1 and agrees with its last
    record: 0 comes with the record that all tables were processed, 1
    with a record of level ERROR. *)
Theorem X20_exit_code_and_last_record (fuel : nat) (P : platform) (s s' : system)
  (code : Z) :
  main fuel P s = Some (code, s') ->
  (code = 0
   /\ last (records s') = Some (INFO, Text (py "All tables processed successfully!")))
  \/ (code = 1 /\ exists n, last (records s') = Some (ERROR, n)).
Proof.
  unfold main. intros H.
  destruct (load_config P (config_path P) _) as [[e|config] s1].
  { injection H as <- <-. right. split; [reflexivity|]. eexists. apply last_snoc. }
  destruct (negb (truthy_get2 config (py "WelcomeHome") (py "api_key"))).
  { injection H as <- <-. right. split; [reflexivity|]. eexists. apply last_snoc. }
  destruct (negb (truthy_get2 config (py "Azure") (py "connection_string"))).
  { injection H as <- <-. right. split; [reflexivity|]. eexists. apply last_snoc. }
  destruct (negb (truthy_section config (py "Snowflake"))).
  { injection H as <- <-. right. split; [reflexivity|]. eexists. apply last_snoc. }
  destruct (process_tables fuel P config TABLES [] [] s1) as [[[ok bad] s2]|];
    [|discriminate].
  destruct bad as [|b bad]; injection H as <- <-.
  - left. split; [reflexivity|]. apply last_snoc.
  - right. split; [reflexivity|]. eexists. apply last_snoc.
Qed.

(** Without the API key in the environment the configuration is refused. *)
Lemma X20_exit_code_and_last_record_witness :
  exists s',
    main 2 lab_no_env lab_system = Some (1, s')
    /\ ((1 = 0
         /\ last (records s') = Some (INFO, Text (py "All tables processed successfully!")))
        \/ (1 = 1 /\ exists n, last (records s') = Some (ERROR, n))).
Proof.
  destruct (main 2 lab_no_env lab_system) as [[code s']|] eqn:E.
  2:{ apply (f_equal (option_map fst)) in E. vm_compute in E. discriminate E. }
  assert (Hc : code = 1).
  { apply (f_equal (option_map fst)) in E. vm_compute in E. congruence. }
  subst code. exists s'. split; [reflexivity|].
  apply (X20_exit_code_and_last_record 2 lab_no_env lab_system s' 1 E).
Defined.

(** X21. The loop of [main] over the tables attempts every table,
    whatever happens to the others: when it ends, each table is in
    exactly one of [successful_tables] and [failed_tables], and has its
    PROCESSING TABLE record; a table that failed or raised does not stop
    the tables after it. *)
Theorem X21_every_table_is_attempted (fuel : nat) (P : platform) (config : config_dict)
  (tables successful_tables failed_tables : list pystr) (s s' : system) :
  process_tables fuel P config tables [] [] s
  = Some (successful_tables, failed_tables, s') ->
  Permutation (successful_tables ++ failed_tables) tables
  /\ forall t, In t tables ->
       In (INFO, Text (py "PROCESSING TABLE: " ++ colorize_table_name t)) (records s').
Proof.
  intros H. apply process_tables_spec in H
    as (_ & _ & ok & bad & -> & -> & Hperm & _ & Hall).
  split; [exact Hperm|exact Hall].
Qed.

(** A table the API does not serve, then Units: the first fails and the
    second goes through. *)
Lemma X21_every_table_is_attempted_witness :
  exists s',
    process_tables 3 lab lab_config [py "Nope"; py "Units"] [] [] lab_system
    = Some ([py "Units"], [py "Nope"], s')
    /\ Permutation ([py "Units"] ++ [py "Nope"]) [py "Nope"; py "Units"]
    /\ forall t, In t [py "Nope"; py "Units"] ->
         In (INFO, Text (py "PROCESSING TABLE: " ++ colorize_table_name t)) (records s').
Proof.
  destruct (process_tables 3 lab lab_config [py "Nope"; py "Units"] [] [] lab_system)
    as [[[ok bad] s']|] eqn:E.
  2:{ apply (f_equal (option_map fst)) in E. vm_compute in E. discriminate E. }
  assert (Hc : ok = [py "Units"] /\ bad = [py "Nope"]).
  { apply (f_equal (option_map fst)) in E. vm_compute in E.
    injection E as E1 E2. split; [rewrite <- E1|rewrite <- E2]; reflexivity. }
  destruct Hc as [-> ->]. exists s'. split; [reflexivity|].
  apply (X21_every_table_is_attempted 3 lab lab_config _ _ _ lab_system s' E).
Defined.

(** X22. The export validates every requested name before it fetches
    anything: when the argument is not empty and one of its names, once
    stripped, is not a valid table, [main] logs the first such name, closes
    the connection and exits with code 1; no request is sent, no statement
    is run and nothing is written, also for the valid names before it. *)
Theorem X22_invalid_name_stops_before_any_fetch {A : Type} (fuel : nat) (C : connector A)
  (srv : server) (read_csv : pystr -> option (list (pystr * list (option A))))
  (api_token text t : pystr) (s : warehouse A) :
  sf_connect C = None ->
  text <> [] ->
  In t (map strip (split "," text)) ->
  WelcomeHomeExport.is_valid t = false ->
  exists reported s',
    WelcomeHomeExport.main fuel C srv read_csv api_token (Some text) s
    = Some (Exited 1, s')
    /\ In reported (map strip (split "," text))
    /\ WelcomeHomeExport.is_valid reported = false
    /\ wh_records s'
       = wh_records s
         ++ [(ERROR, Text (py "Invalid table name: '" ++ reported
                           ++ py "'. Valid tables are: "
                           ++ join (py ", ") WelcomeHomeExport.valid_tables));
             (INFO, Text (py "Snowflake connection closed."))]
    /\ wh_world s' = wh_world s
    /\ wh_executed s' = wh_executed s
    /\ wh_written s' = wh_written s
    /\ wh_connections s' = wh_connections s.
Proof.
  intros Hc Hne Hin Hbad.
  unfold WelcomeHomeExport.main, get_snowflake_connection. rewrite Hc.
  unfold WelcomeHomeExport.tables_to_run.
  assert (Ht : truthy_url (Some text) = true) by (destruct text; [contradiction|reflexivity]).
  rewrite Ht. cbn [default from_option id].
  destruct (List.find (fun table => negb (WelcomeHomeExport.is_valid table))
              (map strip (split "," text))) as [reported|] eqn:Hf.
  - apply find_some in Hf as [Hr1 Hr2]. apply negb_true_iff in Hr2.
    exists reported. eexists. split; [reflexivity|]. cbn.
    rewrite <- app_assoc. repeat split; try assumption; reflexivity.
  - exfalso. pose proof (find_none _ _ Hf t Hin) as Hn. cbv beta in Hn.
    rewrite Hbad in Hn. discriminate.
Qed.

(** A valid name, then a misspelt one. *)
Lemma X22_invalid_name_stops_before_any_fetch_witness :
  exists reported s',
    WelcomeHomeExport.main 3 (answering pystr) two_id_pages one_column_csv (py "token")
      (Some (py "Units, Unitz")) (empty_warehouse pystr)
    = Some (Exited 1, s')
    /\ In reported (map strip (split "," (py "Units, Unitz")))
    /\ WelcomeHomeExport.is_valid reported = false
    /\ wh_records s'
       = wh_records (empty_warehouse pystr)
         ++ [(ERROR, Text (py "Invalid table name: '" ++ reported
                           ++ py "'. Valid tables are: "
                           ++ join (py ", ") WelcomeHomeExport.valid_tables));
             (INFO, Text (py "Snowflake connection closed."))]
    /\ wh_world s' = wh_world (empty_warehouse pystr)
    /\ wh_executed s' = wh_executed (empty_warehouse pystr)
    /\ wh_written s' = wh_written (empty_warehouse pystr)
    /\ wh_connections s' = wh_connections (empty_warehouse pystr).
Proof.
  apply (X22_invalid_name_stops_before_any_fetch 3 (answering pystr) two_id_pages
           one_column_csv (py "token") (py "Units, Unitz") (py "Unitz")).
  - reflexivity.
  - discriminate.
  - vm_compute. right. left. reflexivity.
  - vm_compute. reflexivity.
Defined.

(** X23. Both ID pipelines close the connection they open, on every way
    out of [main]: a normal end, [sys.exit], or an exception of
    [create_table_and_load_data]; and they open none when the connection
    fails. *)
Theorem X23_connection_always_closed :
  (forall (A : Type) (fuel : nat) (C : connector A) (srv : server)
          (read_csv : pystr -> option (list (pystr * list (option A))))
          (api_token : pystr) (specific_tables : option pystr) (s s' : warehouse A)
          (r : ending),
      WelcomeHomeExport.main fuel C srv read_csv api_token specific_tables s = Some (r, s') ->
      wh_connections s' = wh_connections s)
  /\ (forall (fuel : nat) (C : connector jvalue) (srv : server)
             (API_TOKEN SNOWFLAKE_PASSWORD : option pystr) (s s' : warehouse jvalue),
        WelcomeHome.main fuel C srv API_TOKEN SNOWFLAKE_PASSWORD s = Some s' ->
        wh_connections s' = wh_connections s).
Proof.
  split.
  - intros A fuel C srv read_csv tok specific s s' r H.
    unfold WelcomeHomeExport.main, get_snowflake_connection in H.
    destruct (sf_connect C).
    { injection H as <- <-. reflexivity. }
    destruct (WelcomeHomeExport.tables_to_run specific) as [bad|tables].
    { injection H as <- <-. reflexivity. }
    destruct (WelcomeHomeExport.load_tables fuel C srv read_csv tok tables _)
      as [[[e|] s1]|] eqn:Hl; [| |discriminate];
      apply load_tables_spec in Hl as [Hc _]; injection H as <- <-; cbn in *;
      rewrite Hc; reflexivity.
  - intros fuel C srv tok pw s s' H. unfold WelcomeHome.main in H.
    destruct (negb (truthy_url tok)); [injection H as <-; reflexivity|].
    destruct (negb (truthy_url pw)); [injection H as <-; reflexivity|].
    unfold get_snowflake_connection in H.
    destruct (sf_connect C); [injection H as <-; reflexivity|].
    cbn [wh_world wh_info wh_emit] in H.
    destruct (fetch_prospect_ids_from_activities fuel srv (default [] tok) 10000 (wh_world s))
      as [[ids w]|]; [|discriminate].
    destruct ids as [|i ids]; [injection H as <-; reflexivity|].
    destruct (WelcomeHome.create_table_and_load_data C (i :: ids) _) as [[e|] s1] eqn:Hc;
      apply prospects_create_spec in Hc as (_ & Hc & _); injection H as <-; cbn in *;
      rewrite Hc; reflexivity.
Qed.

(** [write_pandas] raises in the export of Units, and the connection is
    closed all the same. *)
Lemma X23_connection_always_closed_witness :
  exists e s',
    WelcomeHomeExport.main 3 (refusing_rows pystr) two_id_pages one_column_csv (py "token")
      (Some (py "Units")) (empty_warehouse pystr)
    = Some (Failed e, s')
    /\ wh_connections s' = wh_connections (empty_warehouse pystr).
Proof.
  destruct (WelcomeHomeExport.main 3 (refusing_rows pystr) two_id_pages one_column_csv
              (py "token") (Some (py "Units")) (empty_warehouse pystr))
    as [[r s']|] eqn:E.
  2:{ apply (f_equal (option_map fst)) in E. vm_compute in E. discriminate E. }
  destruct r as [| |e]; try (apply (f_equal (option_map fst)) in E; vm_compute in E;
                             discriminate E).
  exists e, s'. split; [reflexivity|].
  apply (proj1 X23_connection_always_closed _ _ _ _ _ _ _ _ _ _ E).
Defined.

(** X24. When the export's [main] ends normally, it has replaced exactly
    the tables whose fetch gave ids, in the order of the run: for each of
    them one CREATE OR REPLACE TABLE of the snake-case name and one
    [write_pandas] call with the fetched ids, every row with one timestamp;
    a table whose fetch gave no id, also after an error, is left as it was. *)
Theorem X24_export_replaces_tables_with_ids {A : Type} (fuel : nat) (C : connector A)
  (srv : server) (read_csv : pystr -> option (list (pystr * list (option A))))
  (api_token : pystr) (specific_tables : option pystr) (s s' : warehouse A) :
  WelcomeHomeExport.main fuel C srv read_csv api_token specific_tables s
  = Some (Finished, s') ->
  sf_connect C = None ->
  exists done entries,
    WelcomeHomeExport.tables_to_run specific_tables = inr (map fst done)
    /\ Forall (fetched read_csv fuel srv api_token) done
    /\ wh_executed s'
       = wh_executed s
         ++ map (fun p => WelcomeHomeExport.create_table_query (to_snake_case (fst p)))
              (List.filter with_ids done)
    /\ wh_written s' = wh_written s ++ entries
    /\ Forall2 (fun entry p => exists ts, entry = replacement C p ts)
         entries (List.filter with_ids done).
Proof.
  intros H Hc. unfold WelcomeHomeExport.main, get_snowflake_connection in H.
  rewrite Hc in H.
  destruct (WelcomeHomeExport.tables_to_run specific_tables) as [bad|tables];
    [discriminate|].
  destruct (WelcomeHomeExport.load_tables fuel C srv read_csv api_token tables _)
    as [[[e|] s1]|] eqn:Hl; try discriminate.
  apply load_tables_spec in Hl as [_ Hr].
  destruct (Hr eq_refl) as (done & entries & Hd & Hf & Hx & Hw & He).
  injection H as <-. cbn in *.
  exists done, entries. rewrite Hd. repeat split; assumption.
Qed.

(** Units gives three ids on two pages, Traits an empty body. *)
Lemma X24_export_replaces_tables_with_ids_witness :
  exists s' done entries,
    WelcomeHomeExport.main 3 (answering pystr) units_and_traits one_column_csv (py "token")
      (Some (py "Units, Traits")) (empty_warehouse pystr)
    = Some (Finished, s')
    /\ WelcomeHomeExport.tables_to_run (Some (py "Units, Traits")) = inr (map fst done)
    /\ Forall (fetched one_column_csv 3 units_and_traits (py "token")) done
    /\ wh_executed s'
       = wh_executed (empty_warehouse pystr)
         ++ map (fun p => WelcomeHomeExport.create_table_query (to_snake_case (fst p)))
              (List.filter with_ids done)
    /\ wh_written s' = wh_written (empty_warehouse pystr) ++ entries
    /\ Forall2 (fun entry p => exists ts, entry = replacement (answering pystr) p ts)
         entries (List.filter with_ids done).
Proof.
  destruct (WelcomeHomeExport.main 3 (answering pystr) units_and_traits one_column_csv
              (py "token") (Some (py "Units, Traits")) (empty_warehouse pystr))
    as [[r s']|] eqn:E.
  2:{ apply (f_equal (option_map fst)) in E. vm_compute in E. discriminate E. }
  destruct r as [|code|e]; try (apply (f_equal (option_map fst)) in E; vm_compute in E;
                                discriminate E).
  destruct (X24_export_replaces_tables_with_ids 3 (answering pystr) units_and_traits
              one_column_csv (py "token") (Some (py "Units, Traits"))
              (empty_warehouse pystr) s' E eq_refl) as (done & entries & H).
  exists s', done, entries. split; [reflexivity|exact H].
Defined.

(** X25. The prospects' [main] touches the table only when ids were
    fetched: with no id it runs no statement and writes nothing; with ids
    it runs DROP TABLE IF EXISTS and then CREATE TABLE before it passes to
    [write_pandas] exactly the fetched ids, every row with one timestamp,
    so that a failure after the DROP leaves the table dropped or empty. *)
Theorem X25_prospects_main (fuel : nat) (C : connector jvalue) (srv : server)
  (api_token password : pystr) (s s' : warehouse jvalue) :
  WelcomeHome.main fuel C srv (Some api_token) (Some password) s = Some s' ->
  api_token <> [] -> password <> [] -> sf_connect C = None ->
  exists ids ran,
    fetch_prospect_ids_from_activities fuel srv api_token 10000 (wh_world s)
    = Some (ids, wh_world s')
    /\ wh_executed s' = wh_executed s ++ ran
    /\ (ids = [] -> ran = [])
    /\ (ran = [] \/ ran = [WelcomeHome.drop_sql]
        \/ ran = [WelcomeHome.drop_sql; WelcomeHome.create_sql])
    /\ (wh_written s' = wh_written s
        \/ (wh_written s'
            = wh_written s
              ++ [(str_upper C WelcomeHome.table_name, false, ids,
                   repeat (sf_now C (wh_world s')) (length ids))]
            /\ ran = [WelcomeHome.drop_sql; WelcomeHome.create_sql])).
Proof.
  intros H Ht Hp Hc. unfold WelcomeHome.main in H.
  assert (E1 : truthy_url (Some api_token) = true)
    by (destruct api_token; [contradiction|reflexivity]).
  assert (E2 : truthy_url (Some password) = true)
    by (destruct password; [contradiction|reflexivity]).
  rewrite E1, E2 in H. cbn [negb] in H.
  unfold get_snowflake_connection in H. rewrite Hc in H.
  cbn [wh_world wh_info wh_emit default from_option id] in H.
  destruct (fetch_prospect_ids_from_activities fuel srv api_token 10000 (wh_world s))
    as [[ids w]|] eqn:Hf; [|discriminate].
  destruct ids as [|i ids].
  - injection H as <-. cbn. exists [], []. rewrite app_nil_r.
    repeat split; auto.
  - destruct (WelcomeHome.create_table_and_load_data C (i :: ids) _) as [r s1] eqn:Hcr.
    apply prospects_create_spec in Hcr as (Hw & _ & (ran & Hran & Hcases) & Hr).
    cbn in Hw, Hran, Hr.
    assert (Hs' : wh_world s' = w /\ wh_executed s' = wh_executed s1
                  /\ wh_written s' = wh_written s1).
    { destruct r; injection H as <-; cbn; rewrite Hw; repeat split; reflexivity. }
    destruct Hs' as (Hw' & Hx' & Hwr').
    exists (i :: ids), ran. rewrite Hw', Hx', Hwr'.
    split; [reflexivity|]. split; [exact Hran|]. split; [discriminate|].
    split; [exact Hcases|].
    destruct r as [e|].
    + left. exact Hr.
    + right. destruct Hr as [Hx Hwr]. split; [exact Hwr|].
      rewrite Hran in Hx. apply app_inv_head in Hx. exact Hx.
Qed.

(** The ids of [prospects_two_pages], loaded by a connector that answers. *)
Lemma X25_prospects_main_witness :
  exists s' ids ran,
    WelcomeHome.main 3 (answering jvalue) prospects_two_pages (Some (py "token"))
      (Some (py "pw")) (empty_warehouse jvalue) = Some s'
    /\ fetch_prospect_ids_from_activities 3 prospects_two_pages (py "token") 10000
         (wh_world (empty_warehouse jvalue)) = Some (ids, wh_world s')
    /\ wh_executed s' = wh_executed (empty_warehouse jvalue) ++ ran
    /\ (ids = [] -> ran = [])
    /\ (ran = [] \/ ran = [WelcomeHome.drop_sql]
        \/ ran = [WelcomeHome.drop_sql; WelcomeHome.create_sql])
    /\ (wh_written s' = wh_written (empty_warehouse jvalue)
        \/ (wh_written s'
            = wh_written (empty_warehouse jvalue)
              ++ [(str_upper (answering jvalue) WelcomeHome.table_name, false, ids,
                   repeat (sf_now (answering jvalue) (wh_world s')) (length ids))]
            /\ ran = [WelcomeHome.drop_sql; WelcomeHome.create_sql])).
Proof.
  destruct (WelcomeHome.main 3 (answering jvalue) prospects_two_pages (Some (py "token"))
              (Some (py "pw")) (empty_warehouse jvalue)) as [s'|] eqn:E.
  2:{ apply (f_equal (fun o : option (warehouse jvalue) =>
                        match o with Some _ => true | None => false end)) in E.
      vm_compute in E. discriminate E. }
  destruct (X25_prospects_main 3 (answering jvalue) prospects_two_pages (py "token")
              (py "pw") (empty_warehouse jvalue) s' E) as (ids & ran & H);
    [discriminate|discriminate|reflexivity|].
  exists s', ids, ran. split; [reflexivity|exact H].
Defined.

(** X26. The archived pipeline and [process_table] do the same to the
    outside world: for every table, configuration and state,
    [api_download_and_upload] followed, when it returns [True], by
    [snowflake_load] returns what [process_table] with its three steps
    returns (or raises the same exception), and leaves the same files,
    requests, blobs, executed statements and open connections; the two
    differ in their log records only. *)
Theorem X26_archive_agrees_with_process_table (fuel : nat) (P : platform)
  (table_name : pystr) (config : config_dict) (s : system) :
  match Archive.run_table fuel P table_name config s,
        process_table fuel P table_name config true true true s with
  | None, None => True
  | Some (r, s1), Some (r', s2) => r' = as_result r /\ same_effects s1 s2
  | _, _ => False
  end.
Proof.
  unfold Archive.run_table, process_table. cbn [orb app].
  match goal with
  | |- context [in_temporary_directory fuel P table_name config true true ?s0] =>
      pose proof (archive_block_agrees fuel P table_name config s s0 (same_effects_refl s))
        as H
  end.
  destruct (Archive.api_download_and_upload fuel P table_name config s) as [[[e|[|]] s1]|];
    destruct (in_temporary_directory fuel P table_name config true true _)
      as [[[az|v|e'] s2]|]; try contradiction; try exact I.
  - destruct H as [<- H]. split; [reflexivity|exact H].
  - destruct H as [(a & -> & Ha) H].
    pose proof (archive_load_agrees P table_name config a s1 s2 H Ha) as [Hr Hs].
    destruct (Archive.snowflake_load P table_name config s1) as [ok s3].
    destruct (load_step P table_name config (Some a) s2) as [ok' s4].
    cbn [fst snd] in Hr, Hs. subst ok'. split; [reflexivity|exact Hs].
  - destruct H as [-> H]. split; [reflexivity|exact H].
Qed.

(** X27. A configuration file with the sections Azure and Snowflake but
    without a section WelcomeHome makes [load_config] raise
    [KeyError('WelcomeHome')], whatever the environment holds, the API key
    included: the section is indexed before any test of it. [main] then
    logs the failure of the pipeline and returns 1. *)
Theorem X27_missing_section_is_a_key_error (fuel : nat) (P : platform) (s : system)
  (file : config_dict) :
  config_path P <> [] ->
  read_ini P (config_path P) = Sections file ->
  has_key (py "Azure") file = true ->
  has_key (py "Snowflake") file = true ->
  has_key (py "WelcomeHome") file = false ->
  load_config P (config_path P) s = (inl (KeyError (py "WelcomeHome")), s)
  /\ exists s',
       main fuel P s = Some (1, s')
       /\ last (records s')
          = Some (ERROR, TextExc (py "Pipeline failed with error: ")
                           (KeyError (py "WelcomeHome"))).
Proof.
  intros Hp Hr HA HS HW.
  assert (Hl : forall t, load_config P (config_path P) t
                         = (inl (KeyError (py "WelcomeHome")), t)).
  { intros t. unfold load_config.
    destruct (config_path P) as [|c p] eqn:E; [contradiction|]. cbn [truthy_str negb].
    rewrite Hr. cbn [List.find]. rewrite HA, HS. cbn [negb].
    assert (HW' : has_key (py "WelcomeHome")
                    match environ P !! py "AZURE_CONNECTION_STRING" with
                    | Some v => setitem2 (py "Azure") (py "connection_string") v file
                    | None => file
                    end = false).
    { destruct (environ P !! py "AZURE_CONNECTION_STRING");
        [rewrite setitem2_has_key|]; exact HW. }
    rewrite HW'. reflexivity. }
  split; [apply Hl|].
  unfold main. rewrite Hl. eexists. split; [reflexivity|]. cbn. apply last_snoc.
Qed.

(** The file of [lab] without its section WelcomeHome, the key being set
    in the environment. *)
Lemma X27_missing_section_is_a_key_error_witness :
  environ lab_no_section !! py "WELCOME_HOME_API_KEY" = Some (py "k")
  /\ load_config lab_no_section (config_path lab_no_section) lab_system
     = (inl (KeyError (py "WelcomeHome")), lab_system)
  /\ exists s',
       main 2 lab_no_section lab_system = Some (1, s')
       /\ last (records s')
          = Some (ERROR, TextExc (py "Pipeline failed with error: ")
                           (KeyError (py "WelcomeHome"))).
Proof.
  split; [vm_compute; reflexivity|].
  apply (X27_missing_section_is_a_key_error 2 lab_no_section lab_system
           (delete (py "WelcomeHome") lab_ini)).
  - discriminate.
  - reflexivity.
  - vm_compute. reflexivity.
  - vm_compute. reflexivity.
  - vm_compute. reflexivity.
Defined.
